(** * PIX Totalizer: usage gate, ledger operations and receipt pipeline

    A shallow embedding of the TypeScript sources ([database.ts],
    [subscription.ts], [payments.ts], [vision.ts], [bot.ts]) and the
    properties of the usage/subscription state machine and of the ledger
    operations.

    Conventions of the embedding:
    - timestamps ([Date], TIMESTAMPTZ columns, ISO strings) are [Z]
      milliseconds since the epoch;
    - amounts (JS [number], DECIMAL(12,2) column) are [Z] minor units
      (centavos);
    - the [transactions] table is the list of its rows in heap order, the
      [subscriptions] table a finite map keyed by its UNIQUE [chat_id]
      column;
    - an [async] function is a computation in the monad [M]: it threads the
      store, the count of clock readings and store requests made so far and
      the replies sent, and returns or throws. *)

From Stdlib Require Import ZArith Lia Ascii String.
From stdpp Require Import base option list sorting gmap strings pretty.

Local Open Scope Z_scope.

(** ** Rows *)

(** [export type PlanType = "free" | "basico" | "pro" | "ultra"] *)
Inductive PlanType := free | basico | pro | ultra.

Global Instance PlanType_eq_dec : EqDecision PlanType.
Proof. solve_decision. Defined.

(** [interface Transaction] of database.ts, as stored (the store assigns
    [id] and [created_at]). *)
Module Transaction.
Record t := mk {
  id : Z;
  chat_id : Z;
  amount : Z;
  bank_detected : option string;
  client_name : option string;
  telegram_file_id : string;
  raw_response : string;
  created_at : Z
}.

(** [.update({ amount: newAmount })] on one row. *)
Definition set_amount (a : Z) (r : t) : t :=
  mk (id r) (chat_id r) a (bank_detected r) (client_name r)
     (telegram_file_id r) (raw_response r) (created_at r).
End Transaction.

(** [interface Subscription] of subscription.ts. The [chat_id] column is the
    key under which the row is kept in the table. *)
Module Subscription.
Record t := mk {
  id : Z;
  plan : PlanType;
  transactions_used : Z;
  period_start : Z;
  period_end : option Z;
  created_at : Z
}.

(** The row [.insert({ chat_id, plan })] creates at time [at_]: the other
    columns take their defaults. *)
Definition fresh (id : Z) (plan : PlanType) (at_ : Z) : t := mk id plan 0 at_ None at_.

(** [.update({ plan: "free", transactions_used: 0, period_end: null })] *)
Definition downgrade (s : t) : t := mk (id s) free 0 (period_start s) None (created_at s).

(** [.update({ transactions_used: n })] *)
Definition set_transactions_used (n : Z) (s : t) : t :=
  mk (id s) (plan s) n (period_start s) (period_end s) (created_at s).

(** [.update({ transactions_used: 0, period_start: at_ })] *)
Definition reset (at_ : Z) (s : t) : t :=
  mk (id s) (plan s) 0 at_ (period_end s) (created_at s).
End Subscription.

(** [interface CanProcessResult] of subscription.ts; an optional field that
    is left out is [None]. *)
Module CanProcessResult.
Record t := mk {
  allowed : bool;
  plan : PlanType;
  used : Z;
  limit : option Z;
  message : option string;
  expired : option bool;
  inGracePeriod : option bool;
  (** absent, or present and then a number or null *)
  daysUntilExpiry : option (option Z)
}.
End CanProcessResult.

(** [interface ExtractionResult] of vision.ts. *)
Module ExtractionResult.
Record t := mk {
  amount : option Z;
  bank : option string;
  clientName : option string;
  rawResponse : string;
  error : option string
}.
End ExtractionResult.

Inductive MediaType := image_jpeg | image_png | image_webp | image_gif | application_pdf.

Global Instance MediaType_eq_dec : EqDecision MediaType.
Proof. solve_decision. Defined.

(** Model configuration: try cheaper model first, fallback to more capable model *)
Inductive Model := HAIKU_MODEL | SONNET_MODEL.

(** The object [JSON.parse] yields on a response of the vision model, read at
    the properties [parseExtractionResponse] reads, each at the type that
    [ExtractionResult] declares for it: [amount] is a number or [null], and
    an answer without the key [amount] is read as one with [null]. *)
Record Parsed := mkParsed {
  parsed_amount : option Z;
  parsed_bank : option string;
  parsed_clientName : option string;
  parsed_error : option string
}.

(** ** Exceptions, replies and the world *)

Inductive Exn :=
  | StoreUnavailable      (* the request to the store failed *)
  | UniqueViolation       (* INSERT hit the UNIQUE (chat_id) constraint *)
  | NoSingleRow           (* [.single()] did not see exactly one row *)
  | RangeError            (* thrown by [crypto.timingSafeEqual] *)
  | TypeError             (* a property of [null] was read *)
  | DownloadError         (* [getFile] / [fetch] failed *)
  | ApiError.             (* the vision API failed on every attempt *)

(** What the bot sends with [ctx.reply]; each constructor stands for one
    message template of bot.ts and carries what is interpolated in it. *)
Inductive Reply :=
  | LimitReached (message : option string) (displayName : string) (expired : bool)
  | GraceWarning (message : string) (plan : PlanType)
  | AlreadyRegistered
  | Processing
  | AmountNotIdentified (detail : string)
  | RunningTotal (amount : Z) (bank client : option string) (total : Z) (count : Z)
  | ProcessingFailed
  | EditUsage
  | InvalidValue
  | Edited (newAmount total count : Z)
  | NothingToEdit.

Record World := mkWorld {
  transactions : list Transaction.t;
  subscriptions : gmap Z Subscription.t;
  transactions_id_seq : Z;        (* next value of the BIGSERIAL of transactions *)
  subscriptions_id_seq : Z;       (* next value of the BIGSERIAL of subscriptions *)
  ticks : nat;                    (* clock readings made so far *)
  requests : nat;                 (* store requests made so far *)
  outbox : list Reply             (* replies sent, oldest first *)
}.

Definition set_transactions (f : list Transaction.t → list Transaction.t) (w : World) : World :=
  mkWorld (f (transactions w)) (subscriptions w) (transactions_id_seq w)
          (subscriptions_id_seq w) (ticks w) (requests w) (outbox w).

Definition set_subscriptions (f : gmap Z Subscription.t → gmap Z Subscription.t) (w : World) : World :=
  mkWorld (transactions w) (f (subscriptions w)) (transactions_id_seq w)
          (subscriptions_id_seq w) (ticks w) (requests w) (outbox w).

(** One more reading of the clock, one more request to the store, one more
    reply. *)
Definition tick (w : World) : World :=
  mkWorld (transactions w) (subscriptions w) (transactions_id_seq w)
          (subscriptions_id_seq w) (S (ticks w)) (requests w) (outbox w).

Definition ask (w : World) : World :=
  mkWorld (transactions w) (subscriptions w) (transactions_id_seq w)
          (subscriptions_id_seq w) (ticks w) (S (requests w)) (outbox w).

Definition sent (r : Reply) (w : World) : World :=
  mkWorld (transactions w) (subscriptions w) (transactions_id_seq w)
          (subscriptions_id_seq w) (ticks w) (requests w) (outbox w ++ [r]).

(** ** What the program takes from outside *)

(** The wall clock, the process's time zone and the availability of the
    store. [clock n] is what the [n]-th [new Date()] / [NOW()] of a run
    reads; [store_up n] tells whether the [n]-th request to the store is
    answered ([false]: the response carries an [error] and nothing is
    changed). *)
Class Runtime := {
  clock : nat → Z;
  store_up : nat → bool;
  (** [d.setDate(d.getDate() + n)] *)
  addDays : Z → Z → Z;
  (** [d.setHours(0, 0, 0, 0)] *)
  startOfDay : Z → Z
}.

(** The chat platform, the vision API and the JS built-ins. *)
Class Outside := {
  (** [ctx.api.getFile(fileId)] and [fetch(fileUrl)]: the file path and the
      base64 of the bytes, [None] when one of them throws *)
  download : string → option (string * string);
  (** [withRetry(() => anthropic.messages.create(...))] read at
      [message.content[0]]: the text of the answer, [None] when the last
      attempt throws *)
  messages_create : Model → MediaType → string → option string;
  (** [JSON.parse], [None] when it throws *)
  JSON_parse : string → option Parsed;
  (** [parseFloat] of a text that stands for a whole number of minor units,
      in minor units; [None] is NaN *)
  parseFloat : string → option Z
}.

(** A zone with a fixed offset from UTC (no daylight saving), [offset] in
    milliseconds east of UTC. *)
Definition MS_PER_DAY : Z := 1000 * 60 * 60 * 24.

Definition fixedZoneAddDays (t n : Z) : Z := t + n * MS_PER_DAY.

Definition fixedZoneStartOfDay (offset t : Z) : Z := t - (t + offset) `mod` MS_PER_DAY.

(** ** The monad of [async] functions *)

Inductive Outcome (A : Type) :=
  | Returned (a : A)
  | Thrown (e : Exn).
Arguments Returned {A} a.
Arguments Thrown {A} e.

Definition M (A : Type) : Type := World → Outcome A * World.

Global Instance M_ret : MRet M := λ A a w, (Returned a, w).

Global Instance M_bind : MBind M := λ A B f m w,
  match m w with
  | (Returned a, w') => f a w'
  | (Thrown e, w') => (Thrown e, w')
  end.

(** [throw e] *)
Definition throw {A} (e : Exn) : M A := λ w, (Thrown e, w).

(** [try { body } catch { handler }] *)
Definition try_catch {A} (body : M A) (handler : Exn → M A) : M A := λ w,
  match body w with
  | (Returned a, w') => (Returned a, w')
  | (Thrown e, w') => handler e w'
  end.

Definition get_world : M World := λ w, (Returned w, w).

Definition modify_world (f : World → World) : M unit := λ w, (Returned (), f w).

(** [await ctx.reply(...)] *)
Definition reply (r : Reply) : M unit := λ w, (Returned (), sent r w).

(** ** The store client (supabase-js)

    Every query resolves to [{ data, error, count }]; it never throws. *)
Record Response (A : Type) := mkResponse {
  data : option A;
  error : option Exn;
  count : option Z
}.
Arguments mkResponse {A} data error count.
Arguments data {A} r.
Arguments error {A} r.
Arguments count {A} r.

Definition answered {A} (a : A) : Response A := mkResponse (Some a) None None.
Definition failed {A} (e : Exn) : Response A := mkResponse None (Some e) None.

(** [.single()]: the row when the result has exactly one, an error otherwise. *)
Definition single {A} (r : Response (list A)) : Response A :=
  match data r with
  | Some [a] => answered a
  | Some _ => failed NoSingleRow
  | None => mkResponse None (error r) None
  end.

(** [.limit(n)] *)
Definition limit {A} (n : nat) (r : Response (list A)) : Response (list A) :=
  mkResponse (take n <$> data r) (error r) (count r).

(** [.order("created_at", { ascending })]: rows with equal keys keep their
    heap order. [before] tells whether [x] goes in front of [y]. *)
Definition before {A} (key : A → Z) (ascending : bool) (x y : A) : bool :=
  if ascending then key x <=? key y else key y <=? key x.

Fixpoint insert_by {A} (key : A → Z) (ascending : bool) (x : A) (l : list A) : list A :=
  match l with
  | [] => [x]
  | y :: l' =>
      if before key ascending x y then x :: y :: l'
      else y :: insert_by key ascending x l'
  end.

Definition order_by {A} (key : A → Z) (ascending : bool) (l : list A) : list A :=
  foldr (insert_by key ascending) [] l.

Section Program.
Context `{Runtime}.

(** [new Date()] (and the store's [NOW()]): the next reading of the clock. *)
Definition now : M Z := λ w, (Returned (clock (ticks w)), tick w).

(** One round trip to the store; tells whether it is answered. *)
Definition request : M bool := λ w, (Returned (store_up (requests w)), ask w).

(** [supabase.from("transactions").select("*")] with the filters [P],
    optionally ordered by [created_at]. *)
Definition select_transactions (P : Transaction.t → Prop) `{∀ r, Decision (P r)}
    (ascending : option bool) : M (Response (list Transaction.t)) :=
  up ← request;
  w ← get_world;
  if up : bool then
    mret (answered (match ascending with
                    | Some asc => order_by Transaction.created_at asc (filter P (transactions w))
                    | None => filter P (transactions w)
                    end))
  else mret (failed StoreUnavailable).

(** [.select("*", { count: "exact", head: true })]: the count only. *)
Definition count_transactions (P : Transaction.t → Prop) `{∀ r, Decision (P r)}
  : M (Response (list Transaction.t)) :=
  up ← request;
  w ← get_world;
  if up : bool then
    mret (mkResponse None None (Some (Z.of_nat (length (filter P (transactions w))))))
  else mret (failed StoreUnavailable).

(** [.insert({...}).select()]: the store assigns [id] and [created_at]. *)
Definition insert_transaction (chatId amount : Z) (bank client : option string)
    (fileId raw : string) : M (Response (list Transaction.t)) :=
  up ← request;
  if up : bool then
    t ← now;
    w ← get_world;
    let row := Transaction.mk (transactions_id_seq w) chatId amount bank client fileId raw t in
    modify_world (λ w, mkWorld (transactions w ++ [row]) (subscriptions w)
                               (transactions_id_seq w + 1) (subscriptions_id_seq w)
                               (ticks w) (requests w) (outbox w));;
    mret (answered [row])
  else mret (failed StoreUnavailable).

(** [.delete()] with the filters [P]; the response lists the deleted rows
    (its [data] is read only where [.select()] follows). *)
Definition delete_transactions (P : Transaction.t → Prop) `{∀ r, Decision (P r)}
  : M (Response (list Transaction.t)) :=
  up ← request;
  w ← get_world;
  if up : bool then
    modify_world (set_transactions (filter (λ r, ¬ P r)));;
    mret (answered (filter P (transactions w)))
  else mret (failed StoreUnavailable).

(** [.update({...})] with the filters [P], followed by [.select()]. *)
Definition update_transactions (P : Transaction.t → Prop) `{∀ r, Decision (P r)}
    (f : Transaction.t → Transaction.t) : M (Response (list Transaction.t)) :=
  up ← request;
  w ← get_world;
  if up : bool then
    modify_world (set_transactions (fmap (λ r, if decide (P r) then f r else r)));;
    mret (answered (f <$> filter P (transactions w)))
  else mret (failed StoreUnavailable).

(** [supabase.from("subscriptions").select("*").eq("chat_id", chatId)] *)
Definition select_subscriptions_eq_chat_id (chatId : Z) : M (Response (list Subscription.t)) :=
  up ← request;
  w ← get_world;
  if up : bool then mret (answered (option_list (subscriptions w !! chatId)))
  else mret (failed StoreUnavailable).

(** [.insert({ chat_id: chatId, plan }).select()]: the other columns take
    their defaults (usage 0, period start NOW(), no period end); a second
    row for the same chat is refused. *)
Definition insert_subscription (chatId : Z) (plan : PlanType) : M (Response (list Subscription.t)) :=
  up ← request;
  w ← get_world;
  if up : bool then
    match subscriptions w !! chatId with
    | Some _ => mret (failed UniqueViolation)
    | None =>
        t ← now;
        let row := Subscription.fresh (subscriptions_id_seq w) plan t in
        modify_world (λ w, mkWorld (transactions w) (<[chatId := row]> (subscriptions w))
                                   (transactions_id_seq w) (subscriptions_id_seq w + 1)
                                   (ticks w) (requests w) (outbox w));;
        mret (answered [row])
    end
  else mret (failed StoreUnavailable).

(** [.update({...}).eq("chat_id", chatId)] *)
Definition update_subscriptions_eq_chat_id (chatId : Z) (f : Subscription.t → Subscription.t)
  : M (Response (list Subscription.t)) :=
  up ← request;
  w ← get_world;
  if up : bool then
    modify_world (set_subscriptions (alter f chatId));;
    mret (answered (f <$> option_list (subscriptions w !! chatId)))
  else mret (failed StoreUnavailable).

(** [.update({...}).neq("plan", plan).select()] *)
Definition update_subscriptions_neq_plan (plan : PlanType) (f : Subscription.t → Subscription.t)
  : M (Response (list Subscription.t)) :=
  up ← request;
  w ← get_world;
  if up : bool then
    modify_world (set_subscriptions
                    (fmap (λ s, if decide (Subscription.plan s ≠ plan) then f s else s)));;
    mret (answered (f <$> filter (λ s, Subscription.plan s ≠ plan)
                                 (map_to_list (subscriptions w)).*2))
  else mret (failed StoreUnavailable).

(** ** database.ts *)

(** Returns ISO string for start of today (00:00:00) in local timezone *)
Definition getStartOfTodayISO : M Z :=
  today ← now;
  mret (startOfDay today).

(** The filters [.eq("chat_id", chatId).gte("created_at", todayISO)]. *)
Definition ofToday (chatId todayISO : Z) (r : Transaction.t) : Prop :=
  Transaction.chat_id r = chatId ∧ todayISO ≤ Transaction.created_at r.

Global Instance ofToday_dec chatId todayISO r : Decision (ofToday chatId todayISO r).
Proof. unfold ofToday. apply _. Defined.

Definition saveTransaction (chatId amount : Z) (bankDetected clientName : option string)
    (telegramFileId rawResponse : string) : M (option Transaction.t) :=
  r ← insert_transaction chatId amount bankDetected clientName telegramFileId rawResponse;
  let r := single r in
  match error r with
  | Some e => throw e
  | None => mret (data r)
  end.

Definition isDuplicate (chatId : Z) (telegramFileId : string) : M bool :=
  r ← select_transactions
        (λ t, Transaction.chat_id t = chatId ∧ Transaction.telegram_file_id t = telegramFileId)
        None;
  let r := limit 1 r in
  mret (match data r with
        | Some rows => bool_decide (0 < Z.of_nat (length rows))
        | None => false
        end).

Definition getTodayStats (chatId : Z) : M (Z * Z) :=
  todayISO ← getStartOfTodayISO;
  r ← select_transactions (ofToday chatId todayISO) None;
  match error r with
  | Some e => throw e
  | None =>
      let total := match data r with
                   | Some rows => foldl (λ sum t, sum + Transaction.amount t) 0 rows
                   | None => 0
                   end in
      let count := match data r with
                   | Some rows => Z.of_nat (length rows)
                   | None => 0
                   end in
      mret (total, count)
  end.

Definition getTodayTransactions (chatId : Z) : M (list Transaction.t) :=
  todayISO ← getStartOfTodayISO;
  r ← select_transactions (ofToday chatId todayISO) (Some true);
  match error r with
  | Some e => throw e
  | None => mret (default [] (data r))
  end.

Definition clearTodayTransactions (chatId : Z) : M Z :=
  todayISO ← getStartOfTodayISO;
  r ← delete_transactions (ofToday chatId todayISO);
  match error r with
  | Some e => throw e
  | None => mret (match data r with
                  | Some rows => Z.of_nat (length rows)
                  | None => 0
                  end)
  end.

Definition deleteTransactionByIndex (chatId : Z) (index : option Z) : M (option Transaction.t) :=
  todayISO ← getStartOfTodayISO;
  (* Get all today's transactions ordered by time (ascending, like /hoje shows) *)
  r ← select_transactions (ofToday chatId todayISO) (Some true);
  match data r with
  | None | Some [] => mret None
  | Some transactions =>
      (* If no index provided, delete the last one (most recent)
         If index provided, it's 1-based (matching /hoje display) *)
      let targetIndex := match index with
                         | None => Z.of_nat (length transactions) - 1
                         | Some index => index - 1
                         end in
      if bool_decide (targetIndex < 0 ∨ Z.of_nat (length transactions) ≤ targetIndex)
      then mret None
      else
        match transactions !! Z.to_nat targetIndex with
        | None => mret None
        | Some targetTx =>
            (* Delete it *)
            delete_transactions (λ t, Transaction.id t = Transaction.id targetTx);;
            mret (Some targetTx)
        end
  end.

Definition updateLastTransactionAmount (chatId newAmount : Z) : M (option Transaction.t) :=
  todayISO ← getStartOfTodayISO;
  (* Get the last transaction *)
  r ← select_transactions (ofToday chatId todayISO) (Some false);
  match data (single (limit 1 r)) with
  | None => mret None
  | Some lastTx =>
      (* Update it *)
      r ← update_transactions (λ t, Transaction.id t = Transaction.id lastTx)
                              (Transaction.set_amount newAmount);
      let r := single r in
      match error r with
      | Some e => throw e
      | None => mret (data r)
      end
  end.

(** ** subscription.ts *)

Record PlanInfo := mkPlanInfo {
  name : string;
  displayName : string;
  price : Z;
  limit_ : option Z;     (* [limit]; null = unlimited *)
  description : string
}.

(** Grace period in days after subscription expires *)
Definition GRACE_PERIOD_DAYS : Z := 3.

Definition PLANS (plan : PlanType) : PlanInfo :=
  match plan with
  | free => mkPlanInfo "free" "Grátis" 0 (Some 5) "5 comprovantes/dia"
  | basico => mkPlanInfo "basico" "Básico" 197 (Some 1000) "1.000 comprovantes/mês"
  | pro => mkPlanInfo "pro" "Pro" 349 (Some 3500) "3.500 comprovantes/mês"
  | ultra => mkPlanInfo "ultra" "Ultra" 697 None "Comprovantes ilimitados"
  end.

(** [planInfo.limit!] *)
Definition limit_of (plan : PlanType) : Z := default 0 (limit_ (PLANS plan)).

Definition getSubscription (chatId : Z) : M (option Subscription.t) :=
  r ← select_subscriptions_eq_chat_id chatId;
  mret (data (single r)).

Definition getOrCreateSubscription (chatId : Z) : M (option Subscription.t) :=
  sub ← getSubscription chatId;
  match sub with
  | Some sub => mret (Some sub)
  | None =>
      r ← insert_subscription chatId free;
      let r := single r in
      match error r with
      | Some e => throw e
      | None => mret (data r)
      end
  end.

(** Check if subscription has expired (past grace period) *)
Definition isSubscriptionExpired (sub : Subscription.t) : M bool :=
  match Subscription.plan sub, Subscription.period_end sub with
  | free, _ | _, None => mret false
  | _, Some period_end =>
      let gracePeriodEnd := addDays period_end GRACE_PERIOD_DAYS in
      t ← now;
      mret (bool_decide (gracePeriodEnd < t))
  end.

(** Check if subscription is in grace period *)
Definition isInGracePeriod (sub : Subscription.t) : M bool :=
  match Subscription.plan sub, Subscription.period_end sub with
  | free, _ | _, None => mret false
  | _, Some periodEnd =>
      t ← now;
      let gracePeriodEnd := addDays periodEnd GRACE_PERIOD_DAYS in
      mret (bool_decide (periodEnd < t ∧ t ≤ gracePeriodEnd))
  end.

(** [Math.ceil(a / b)] for integers [a] and [b > 0]. *)
Definition ceilDiv (a b : Z) : Z := - ((- a) `div` b).

(** Get days until subscription expires (negative if already expired) *)
Definition getDaysUntilExpiry (sub : Subscription.t) : M (option Z) :=
  match Subscription.plan sub, Subscription.period_end sub with
  | free, _ | _, None => mret None
  | _, Some periodEnd =>
      t ← now;
      let diffMs := periodEnd - t in
      mret (Some (ceilDiv diffMs (1000 * 60 * 60 * 24)))
  end.

(** Downgrade expired subscription to free plan *)
Definition downgradeToFree (chatId : Z) : M unit :=
  update_subscriptions_eq_chat_id chatId Subscription.downgrade;;
  mret ().

Definition getTodayTransactionCount (chatId : Z) : M Z :=
  todayISO ← getStartOfTodayISO;
  r ← count_transactions (ofToday chatId todayISO);
  mret (default 0 (count r)).

Definition graceMessage (graceDaysLeft : Z) : string :=
  "⚠️ Assinatura vencida! Renove em " +:+ pretty graceDaysLeft +:+ " dias para manter acesso.".

Definition canProcess (chatId : Z) : M CanProcessResult.t :=
  sub ← getOrCreateSubscription chatId;
  match sub with
  | None => throw TypeError   (* [sub!] was null: reading [sub.plan] throws *)
  | Some sub =>
  let plan := Subscription.plan sub in
  let planInfo := PLANS plan in
  daysUntilExpiry ← getDaysUntilExpiry sub;
  let rest : M CanProcessResult.t :=
    (* Ultra plan - unlimited *)
    if decide (plan = ultra) then
      mret (CanProcessResult.mk true plan (Subscription.transactions_used sub) None
              None None None (Some daysUntilExpiry))
    (* Free plan - check daily limit *)
    else if decide (plan = free) then
      todayCount ← getTodayTransactionCount chatId;
      let dailyLimit := limit_of plan in
      if bool_decide (dailyLimit ≤ todayCount) then
        mret (CanProcessResult.mk false plan todayCount (Some dailyLimit)
                (Some ("Limite diário atingido (" +:+ pretty todayCount +:+ "/"
                       +:+ pretty dailyLimit +:+ ")"))
                None None None)
      else
        mret (CanProcessResult.mk true plan todayCount (Some dailyLimit) None None None None)
    else
      (* Paid plans - check monthly limit *)
      let monthlyLimit := limit_of plan in
      if bool_decide (monthlyLimit ≤ Subscription.transactions_used sub) then
        mret (CanProcessResult.mk false plan (Subscription.transactions_used sub)
                (Some monthlyLimit)
                (Some ("Limite mensal atingido (" +:+ pretty (Subscription.transactions_used sub)
                       +:+ "/" +:+ pretty monthlyLimit +:+ ")"))
                None None (Some daysUntilExpiry))
      else
        mret (CanProcessResult.mk true plan (Subscription.transactions_used sub)
                (Some monthlyLimit) None None None (Some daysUntilExpiry)) in
  (* Check expiration for paid plans *)
  if decide (plan ≠ free) then
    (* Fully expired (past grace period) - downgrade to free *)
    isExpired ← isSubscriptionExpired sub;
    if isExpired : bool then
      downgradeToFree chatId;;
      todayCount ← getTodayTransactionCount chatId;
      let freeLimit := limit_of free in
      mret (CanProcessResult.mk (bool_decide (todayCount < freeLimit)) free todayCount
              (Some freeLimit)
              (Some ("Sua assinatura " +:+ displayName planInfo
                     +:+ " expirou. Plano rebaixado para Grátis."))
              (Some true) None None)
    else
      (* In grace period - warn but allow *)
      inGrace ← isInGracePeriod sub;
      if inGrace : bool then
        let graceDaysLeft := GRACE_PERIOD_DAYS + default 0 daysUntilExpiry in
        (* Ultra plan - unlimited *)
        if decide (plan = ultra) then
          mret (CanProcessResult.mk true plan (Subscription.transactions_used sub) None
                  (Some (graceMessage graceDaysLeft)) None (Some true) (Some daysUntilExpiry))
        else
          (* Paid plans with limits *)
          let monthlyLimit := limit_of plan in
          mret (CanProcessResult.mk
                  (bool_decide (Subscription.transactions_used sub < monthlyLimit))
                  plan (Subscription.transactions_used sub) (Some monthlyLimit)
                  (Some (graceMessage graceDaysLeft)) None (Some true) (Some daysUntilExpiry))
      else rest
  else rest
  end.

Definition incrementUsage (chatId : Z) : M unit :=
  sub ← getOrCreateSubscription chatId;
  match sub with
  | None => throw TypeError   (* [sub!] was null: reading [sub.plan] throws *)
  | Some sub =>
      (* Only increment for paid plans (free uses daily count from transactions) *)
      if decide (Subscription.plan sub ≠ free) then
        update_subscriptions_eq_chat_id chatId
          (Subscription.set_transactions_used (Subscription.transactions_used sub + 1));;
        mret ()
      else mret ()
  end.

Definition resetMonthlyUsage : M Z :=
  t ← now;
  r ← update_subscriptions_neq_plan free (Subscription.reset t);
  match error r with
  | Some e => throw e
  | None => mret (match data r with
                  | Some rows => Z.of_nat (length rows)
                  | None => 0
                  end)
  end.

(** ** vision.ts *)

Context `{Outside}.

Definition parseExtractionResponse (responseText : string) : ExtractionResult.t :=
  match JSON_parse responseText with
  | Some parsed =>
      ExtractionResult.mk (parsed_amount parsed)
        (* [parsed.bank || null] *)
        (match parsed_bank parsed with Some EmptyString => None | b => b end)
        (match parsed_clientName parsed with Some EmptyString => None | c => c end)
        responseText
        (parsed_error parsed)
  | None =>
      ExtractionResult.mk None None None responseText (Some "Failed to parse response")
  end.

(** Extract PIX data using a specific model *)
Definition extractWithModel (base64Data : string) (mediaType : MediaType) (model : Model)
  : M ExtractionResult.t :=
  match messages_create model mediaType base64Data with
  | Some responseText => mret (parseExtractionResponse responseText)
  | None => throw ApiError
  end.

(** Extract PIX amount from image or PDF (tries Haiku first for images, Sonnet for PDFs) *)
Definition extractPixData (base64Data : string) (mediaType : MediaType) : M ExtractionResult.t :=
  try_catch
    ((* PDFs require Sonnet - Haiku doesn't support document processing *)
     if decide (mediaType = application_pdf) then
       extractWithModel base64Data mediaType SONNET_MODEL
     else
       (* For images: try Haiku first (cheaper ~10x) *)
       haikusResult ← extractWithModel base64Data mediaType HAIKU_MODEL;
       (* If Haiku successfully extracted an amount, use it *)
       match ExtractionResult.amount haikusResult with
       | Some _ => mret haikusResult
       | None =>
           (* Fallback to Sonnet for difficult images *)
           extractWithModel base64Data mediaType SONNET_MODEL
       end)
    (* [rawResponse: String(error)]: the text of the error, not kept here *)
    (λ _, mret (ExtractionResult.mk None None None EmptyString (Some "API call failed"))).

Definition extractPixAmount (imageBase64 : string) (mediaType : MediaType) : M ExtractionResult.t :=
  extractPixData imageBase64 mediaType.

Definition extractFromPdf (pdfBase64 : string) : M ExtractionResult.t :=
  extractPixData pdfBase64 application_pdf.

(** ** summary.ts, as far as the pipeline uses it *)

Definition getRunningTotalMessage (chatId justAddedAmount : Z) (bank clientName : option string)
  : M Reply :=
  '(total, count) ← getTodayStats chatId;
  mret (RunningTotal justAddedAmount bank clientName total count).

(** ** bot.ts *)

(** [filePath.endsWith(".png")] *)
Definition endsWith (s suffix : string) : bool :=
  bool_decide (String.length suffix ≤ String.length s)%nat
  && bool_decide (String.substring (String.length s - String.length suffix) (String.length suffix) s
                  = suffix).

(** The reply to a submission that the gate refuses. *)
Definition refused (check : CanProcessResult.t) : Reply :=
  LimitReached (CanProcessResult.message check)
               (displayName (PLANS (CanProcessResult.plan check)))
               (default false (CanProcessResult.expired check)).

(** [photos] are the [file_id]s of [ctx.message.photo], smallest first. *)
Definition processImage (chatId : Z) (photos : list string) : M unit :=
  match last photos with
  | None => mret ()
  | Some fileId =>
      (* Check subscription limit *)
      check ← canProcess chatId;
      if negb (CanProcessResult.allowed check) then reply (refused check)
      else
        (* Warn about grace period *)
        match CanProcessResult.inGracePeriod check, CanProcessResult.message check with
        | Some true, Some (String _ _ as message) =>
            reply (GraceWarning message (CanProcessResult.plan check))
        | _, _ => mret ()
        end;;
        (* Check for duplicate *)
        dup ← isDuplicate chatId fileId;
        if dup : bool then reply AlreadyRegistered
        else
          reply Processing;;
          try_catch
            (match download fileId with
             | None => throw DownloadError
             | Some (filePath, base64) =>
                 (* Determine media type *)
                 let mediaType := if endsWith filePath ".png" then image_png else image_jpeg in
                 (* Extract amount using Claude Vision *)
                 result ← extractPixAmount base64 mediaType;
                 match ExtractionResult.amount result with
                 | None =>
                     reply (AmountNotIdentified
                              (match ExtractionResult.error result with
                               | Some (String _ _ as e) => e
                               | _ => "Tente enviar uma imagem mais clara."
                               end))
                 | Some amount =>
                     (* Save transaction *)
                     saveTransaction chatId amount (ExtractionResult.bank result)
                       (ExtractionResult.clientName result) fileId
                       (ExtractionResult.rawResponse result);;
                     (* Increment usage for paid plans *)
                     incrementUsage chatId;;
                     (* Send running total *)
                     message ← getRunningTotalMessage chatId amount
                                 (ExtractionResult.bank result)
                                 (ExtractionResult.clientName result);
                     reply message
                 end
             end)
            (λ _, reply ProcessingFailed)
  end.

(** [mimeType] is one that the handler of document messages lets through,
    at the type the function casts it to. *)
Definition processDocument (chatId : Z) (fileId : string) (mimeType : MediaType) : M unit :=
  (* Check subscription limit *)
  check ← canProcess chatId;
  if negb (CanProcessResult.allowed check) then reply (refused check)
  else
    (* Warn about grace period *)
    match CanProcessResult.inGracePeriod check, CanProcessResult.message check with
    | Some true, Some (String _ _ as message) =>
        reply (GraceWarning message (CanProcessResult.plan check))
    | _, _ => mret ()
    end;;
    (* Check for duplicate *)
    dup ← isDuplicate chatId fileId;
    if dup : bool then reply AlreadyRegistered
    else
      reply Processing;;
      try_catch
        (match download fileId with
         | None => throw DownloadError
         | Some (filePath, base64) =>
             result ← (if decide (mimeType = application_pdf) then extractFromPdf base64
                       else extractPixAmount base64 mimeType);
             match ExtractionResult.amount result with
             | None =>
                 reply (AmountNotIdentified
                          (match ExtractionResult.error result with
                           | Some (String _ _ as e) => e
                           | _ => "Tente enviar um arquivo mais claro."
                           end))
             | Some amount =>
                 (* Save transaction *)
                 saveTransaction chatId amount (ExtractionResult.bank result)
                   (ExtractionResult.clientName result) fileId
                   (ExtractionResult.rawResponse result);;
                 (* Increment usage for paid plans *)
                 incrementUsage chatId;;
                 (* Send running total *)
                 message ← getRunningTotalMessage chatId amount
                             (ExtractionResult.bank result)
                             (ExtractionResult.clientName result);
                 reply message
             end
         end)
        (λ _, reply ProcessingFailed).

(** [text.split(" ").slice(1).join(" ")]: what follows the first space. *)
Fixpoint afterFirstSpace (text : string) : string :=
  match text with
  | EmptyString => EmptyString
  | String c rest => if Ascii.eqb c " "%char then rest else afterFirstSpace rest
  end.

(** [s.replace(a, b)] for one-character [a] and [b]: the first occurrence only. *)
Fixpoint replaceFirst (a b : ascii) (s : string) : string :=
  match s with
  | EmptyString => EmptyString
  | String c rest => if Ascii.eqb c a then String b rest else String c (replaceFirst a b rest)
  end.

(** [s.replace(/[^\d.]/g, empty)]: only the digits and dots are kept. *)
Fixpoint keepDigitsAndDots (s : string) : string :=
  match s with
  | EmptyString => EmptyString
  | String c rest =>
      if Ascii.eqb c "."%char || ((48 <=? Ascii.nat_of_ascii c)%nat && (Ascii.nat_of_ascii c <=? 57)%nat)
      then String c (keepDigitsAndDots rest)
      else keepDigitsAndDots rest
  end.

(** Handle /editar command - correct last transaction amount *)
Definition editar (chatId : Z) (text : string) : M unit :=
  let args := afterFirstSpace text in
  if decide (args = EmptyString) then reply EditUsage
  else
    (* Parse amount (accept both . and , as decimal separator) *)
    let cleanAmount := keepDigitsAndDots (replaceFirst ","%char "."%char args) in
    match parseFloat cleanAmount with
    | None => reply InvalidValue
    | Some newAmount =>
        if bool_decide (newAmount ≤ 0) then reply InvalidValue
        else
          updated ← updateLastTransactionAmount chatId newAmount;
          match updated with
          | Some _ =>
              (* getDailySummaryMessage *)
              '(total, count) ← getTodayStats chatId;
              now;;
              reply (Edited newAmount total count)
          | None => reply NothingToEdit
          end
    end.

End Program.

(** ** vision.ts: the retries *)

Module Retry.
(** What a run of [withRetry] has done so far: the calls of [fn] made and the
    milliseconds waited between them. *)
Record Log := mkLog {
  calls : nat;
  slept : Z
}.

(** The rounds of the loop [for (attempt; attempt <= maxRetries; attempt++)]
    that are left, [rounds] of them. [fn k] is how the [k]-th call of [fn]
    ends, counted from 0. The result is the value of the first call that
    returns, or what [throw lastError] throws after the loop, [None] being
    the initial [null]. *)
Fixpoint attempts {A} (fn : nat → Exn + A) (maxRetries delayMs : Z) (rounds : nat)
    (attempt : Z) (lastError : option Exn) (log : Log) : (option Exn + A) * Log :=
  match rounds with
  | O => (inl lastError, log)
  | S rounds' =>
      match fn (calls log) with
      | inr a => (inr a, mkLog (S (calls log)) (slept log))
      | inl error =>
          let log := mkLog (S (calls log))
                           (if bool_decide (attempt < maxRetries)
                            then slept log + delayMs * attempt
                            else slept log) in
          attempts fn maxRetries delayMs rounds' (attempt + 1) (Some error) log
      end
  end.

Definition withRetry {A} (fn : nat → Exn + A) (maxRetries delayMs : Z)
  : (option Exn + A) * Log :=
  attempts fn maxRetries delayMs (Z.to_nat maxRetries) 1 None (mkLog 0 0).

(** The default arguments [maxRetries = 3], [delayMs = 1000]. *)
Definition withRetry_default {A} (fn : nat → Exn + A) : (option Exn + A) * Log :=
  withRetry fn 3 1000.
End Retry.

(** ** payments.ts *)

(** [s.split(sep)] for a one-character separator. *)
Fixpoint split (sep : ascii) (s : string) : list string :=
  match s with
  | EmptyString => [EmptyString]
  | String c rest =>
      if Ascii.eqb c sep then EmptyString :: split sep rest
      else match split sep rest with
           | [] => [String c EmptyString]
           | piece :: pieces => String c piece :: pieces
           end
  end.

(** [crypto.timingSafeEqual(Buffer.from(a), Buffer.from(b))]: throws when
    the byte lengths differ. *)
Definition timingSafeEqual (a b : string) : Outcome bool :=
  if decide (String.length a = String.length b) then Returned (bool_decide (a = b))
  else Thrown RangeError.

Section Webhook.

(** [process.env.MERCADO_PAGO_WEBHOOK_SECRET], [None] when unset. *)
Variable MP_WEBHOOK_SECRET : option string.

(** [crypto.createHmac("sha256", key).update(message).digest("hex")] *)
Variable hmacSha256Hex : string → string → string.

(** Parse x-signature header: "ts=xxx,v1=xxx" *)
Definition parseSignature (xSignature : string) : gmap string string :=
  foldl (λ signatureParts part,
           match split "="%char part with
           | String k0 k :: String v0 v :: _ => <[String k0 k := String v0 v]> signatureParts
           | _ => signatureParts
           end)
        ∅ (split ","%char xSignature).

(** Validate Mercado Pago webhook signature *)
Definition validateWebhookSignature (xSignature xRequestId : option string) (dataId : string)
  : Outcome bool :=
  match MP_WEBHOOK_SECRET with
  | None | Some EmptyString =>
      Returned true (* Allow if not configured (for backwards compatibility) *)
  | Some secret =>
      match xSignature, xRequestId with
      | Some (String _ _ as xSignature), Some (String _ _ as xRequestId) =>
          let signatureParts := parseSignature xSignature in
          match signatureParts !! "ts", signatureParts !! "v1" with
          | Some ts, Some v1 =>
              (* Build the manifest string *)
              let manifest := "id:" +:+ dataId +:+ ";request-id:" +:+ xRequestId
                              +:+ ";ts:" +:+ ts +:+ ";" in
              (* Generate HMAC-SHA256 *)
              let expectedSignature := hmacSha256Hex secret manifest in
              (* Constant-time comparison to prevent timing attacks *)
              timingSafeEqual v1 expectedSignature
          | _, _ => Returned false
          end
      | _, _ => Returned false
      end
  end.

End Webhook.

(** ** bot.ts: the admin command *)

(** What the handler of /grant answers with [ctx.reply]; every path through
    it ends with at most one reply, which is its result here. *)
Inductive GrantReply :=
  | GrantUsage
  | GrantInvalidChatId
  | GrantError (e : Exn)
  | GrantDone (targetChatId : Z).

(** [new Date("2099-12-31T23:59:59Z")] *)
Definition LIFETIME_END : Z := 4102444799000.

Section Admin.
Context `{Runtime}.

(** [process.env.ADMIN_CHAT_ID ? parseInt(process.env.ADMIN_CHAT_ID, 10) : null],
    [None] when it is [null] or [NaN]. *)
Variable ADMIN_CHAT_ID : option Z.

(** [parseInt(s, 10)], [None] is NaN. *)
Variable parseInt : string → option Z.

(** [.upsert({ chat_id, plan, transactions_used, period_start, period_end },
    { onConflict: "chat_id" })]: the row of the chat takes the columns given
    and keeps the others; a chat without a row gets one, with the defaults
    of [id] and [created_at]. *)
Definition upsert_subscription_on_chat_id (chatId : Z) (plan : PlanType)
    (transactions_used period_start : Z) (period_end : option Z)
  : M (Response (list Subscription.t)) :=
  up ← request;
  w ← get_world;
  if up : bool then
    match subscriptions w !! chatId with
    | Some s =>
        let row := Subscription.mk (Subscription.id s) plan transactions_used period_start
                                   period_end (Subscription.created_at s) in
        modify_world (set_subscriptions (<[chatId := row]>));;
        mret (mkResponse None None None)
    | None =>
        t ← now;
        let row := Subscription.mk (subscriptions_id_seq w) plan transactions_used
                                   period_start period_end t in
        modify_world (λ w, mkWorld (transactions w) (<[chatId := row]> (subscriptions w))
                                   (transactions_id_seq w) (subscriptions_id_seq w + 1)
                                   (ticks w) (requests w) (outbox w));;
        mret (mkResponse None None None)
    end
  else mret (failed StoreUnavailable).

(** Admin command: /grant <chat_id> - give lifetime ultra access *)
Definition grant (chatId : Z) (text : string) : M (option GrantReply) :=
  (* Only admin can use this command *)
  if match ADMIN_CHAT_ID with
     | Some admin => bool_decide (admin ≠ 0) && bool_decide (chatId ≠ admin)
     | None => false
     end
  then mret None (* Silently ignore for non-admins *)
  else
    match tail (split " "%char text) with
    | [] => mret (Some GrantUsage)
    | arg :: _ =>
        match parseInt arg with
        | None => mret (Some GrantInvalidChatId)
        | Some targetChatId =>
            (* Grant lifetime ultra access (year 2099) *)
            periodStart ← now;
            r ← upsert_subscription_on_chat_id targetChatId ultra 0 periodStart
                                               (Some LIFETIME_END);
            match error r with
            | Some e => mret (Some (GrantError e))
            | None => mret (Some (GrantDone targetChatId))
            end
        end
    end.

End Admin.

(** ** A deployment to run the program on *)

Module Demo.
(** 2025-11-03, 11:00 in a zone three hours west of UTC. *)
Definition t0 : Z := 1762178400000.

Definition hour : Z := 60 * 60 * 1000.

(** The clock advances a millisecond per reading; the store answers. *)
Definition runtime : Runtime := {|
  clock := λ n, t0 + Z.of_nat n;
  store_up := λ _, true;
  addDays := fixedZoneAddDays;
  startOfDay := fixedZoneStartOfDay (-3 * hour)
|}.

(** Every file downloads as a JPEG and the vision model answers with a
    text that parses to [amount]. *)
Definition outside (amount : option Z) : Outside := {|
  download := λ _, Some ("photos/file_1.jpg", "/9j/4AAQSkZJRg==");
  messages_create := λ _ _ _, Some "answer";
  JSON_parse := λ _, Some (mkParsed amount (Some "Nubank") None None);
  parseFloat := λ _, None
|}.

Definition receipt (id chat amount : Z) (fileId : string) (at_ : Z) : Transaction.t :=
  Transaction.mk id chat amount (Some "Nubank") None fileId "answer" at_.

(** Chat 7 has two receipts of today and one of yesterday, chat 8 one of
    today. *)
Definition ledger : list Transaction.t :=
  [ receipt 1 7 15000 "AgAD-1" (t0 - 20 * hour);
    receipt 2 7 2590 "AgAD-2" (t0 - 2 * hour);
    receipt 3 8 990 "AgAD-3" (t0 - 1 * hour);
    receipt 4 7 120000 "AgAD-4" (t0 - 1 * hour) ].

Definition world (subs : gmap Z Subscription.t) : World := mkWorld ledger subs 5 3 0 0 [].

(** Chat 7 on the basico plan, its period over for 40 days. *)
Definition expired : World :=
  world {[ 7 := Subscription.mk 1 basico 12 (t0 - 70 * 24 * hour)
                                (Some (t0 - 40 * 24 * hour)) (t0 - 400 * 24 * hour) ]}.

(** Chat 7 on the pro plan, its period over for a day. *)
Definition grace : World :=
  world {[ 7 := Subscription.mk 1 pro 12 (t0 - 31 * 24 * hour)
                                (Some (t0 - 24 * hour)) (t0 - 400 * 24 * hour) ]}.

(** Chat 7 on the free plan (with a stale usage counter), chat 8 on ultra. *)
Definition mixed : World :=
  world {[ 7 := Subscription.mk 1 free 40 (t0 - 70 * 24 * hour) None (t0 - 400 * 24 * hour);
           8 := Subscription.mk 2 ultra 9000 (t0 - 5 * 24 * hour)
                                (Some (t0 + 25 * 24 * hour)) (t0 - 90 * 24 * hour) ]}.

(** Chat 7 on the free plan with five receipts of today. *)
Definition full : World :=
  mkWorld [ receipt 1 7 100 "AgAD-1" (t0 - 5 * hour);
            receipt 2 7 200 "AgAD-2" (t0 - 4 * hour);
            receipt 3 7 300 "AgAD-3" (t0 - 3 * hour);
            receipt 4 7 400 "AgAD-4" (t0 - 2 * hour);
            receipt 5 7 500 "AgAD-5" (t0 - 1 * hour) ]
          {[ 7 := Subscription.mk 1 free 0 (t0 - 70 * 24 * hour) None (t0 - 70 * 24 * hour) ]}
          6 2 0 0 [].

(** A stand-in for the digest: 64 hexadecimal digits whatever the input. *)
Definition digest (key message : string) : string :=
  "0000000000000000000000000000000000000000000000000000000000000000".
End Demo.

(** ** The vocabulary of the properties *)

(** [x] may stand in front of [y] in a result ordered by [key]. *)
Definition in_order {A} (key : A → Z) (ascending : bool) (x y : A) : Prop :=
  before key ascending x y = true.

(** [id] is the primary key of [transactions]. *)
Definition unique_ids (rows : list Transaction.t) : Prop := NoDup (Transaction.id <$> rows).

(** The rows of [subscriptions] that are not on the free plan. *)
Definition paidRows (subs : gmap Z Subscription.t) : gmap Z Subscription.t :=
  filter (λ kv, Subscription.plan kv.2 ≠ free) subs.

Section Vocabulary.
Context `{Runtime}.

(** The live count: today's ledger entries of the chat, today being the day
    of the clock reading [t]. *)
Definition todayCount (chatId t : Z) (w : World) : Z :=
  Z.of_nat (length (filter (ofToday chatId (startOfDay t)) (transactions w))).

(** What [getTodayTransactions] lists: the chat's rows created since the
    start of the day of the clock reading [t], oldest first. *)
Definition listToday (chatId t : Z) (rows : list Transaction.t) : list Transaction.t :=
  order_by Transaction.created_at true (filter (ofToday chatId (startOfDay t)) rows).

End Vocabulary.

(** The decision of the free-tier rule on a count. *)
Definition freeDecision (count : Z) : CanProcessResult.t :=
  if bool_decide (5 ≤ count) then
    CanProcessResult.mk false free count (Some 5)
      (Some ("Limite diário atingido (" +:+ pretty count +:+ "/" +:+ pretty 5 +:+ ")"))
      None None None
  else CanProcessResult.mk true free count (Some 5) None None None None.

(** The tables are as they were. *)
Definition same_store (w w' : World) : Prop :=
  transactions w' = transactions w ∧ subscriptions w' = subscriptions w.

(** How a run of the gate may leave the row of a chat: as it was, created
    with the free-tier defaults, or downgraded from a paid plan. *)
Inductive row_change (old : option Subscription.t) (new : Subscription.t) : Prop :=
  | row_unchanged : old = Some new → row_change old new
  | row_created :
      old = None → Subscription.plan new = free → Subscription.transactions_used new = 0 →
      row_change old new
  | row_downgraded s :
      old = Some s → Subscription.plan s ≠ free → new = Subscription.downgrade s →
      row_change old new.

(** No ledger row is appended and no usage counter is incremented. *)
Definition quiet (w w' : World) : Prop :=
  transactions w' = transactions w
  ∧ (∀ c, subscriptions w' !! c = None → subscriptions w !! c = None)
  ∧ (∀ c s', subscriptions w' !! c = Some s' → row_change (subscriptions w !! c) s').

(** How [incrementUsage] may leave the row of a chat: as a run of the gate
    may, or, for the chat's own row on a paid plan, with its usage counter
    one higher. *)
Definition row_count (chatId c : Z) (old : option Subscription.t) (new : Subscription.t)
  : Prop :=
  row_change old new
  ∨ (c = chatId
     ∧ ∃ s, old = Some s
            ∧ Subscription.plan s ≠ free
            ∧ new = Subscription.set_transactions_used
                      (Subscription.transactions_used s + 1) s).

(** One ledger row of the chat is appended; the usage counter of the chat's
    row may be incremented, when its plan is not free. *)
Definition appended (chatId : Z) (w w' : World) : Prop :=
  ∃ row,
    transactions w' = transactions w ++ [row]
    ∧ Transaction.chat_id row = chatId
    ∧ (∀ c, subscriptions w' !! c = None → subscriptions w !! c = None)
    ∧ (∀ c s', subscriptions w' !! c = Some s' →
         row_count chatId c (subscriptions w !! c) s').

(** [m], run from [w], ends in a world related to [w]. *)
Definition lands (R : World → World → Prop) {A} (m : M A) (w : World) : Prop := R w (m w).2.

(** The relations that runs are framed with: preorders that hold between
    worlds with the same tables. *)
Class Frame (R : World → World → Prop) := {
  #[global] frame_preorder :: PreOrder R;
  frame_same_store : ∀ w w', same_store w w' → R w w'
}.

(** Every row of the ledger was there before or has a positive amount. *)
Definition writes_positive (w w' : World) : Prop :=
  ∀ r, r ∈ transactions w' → r ∈ transactions w ∨ 0 < Transaction.amount r.

(** Either nothing is appended and nothing counted, or one row is appended. *)
Definition settled (chatId : Z) (w w' : World) : Prop := quiet w w' ∨ appended chatId w w'.

(** The sum [reduce((sum, t) => sum + t.amount, 0)] of the amounts of rows. *)
Definition totalAmount (rows : list Transaction.t) : Z :=
  foldl (λ sum t, sum + Transaction.amount t) 0 rows.

(** The decision of the rule of a paid plan whose period is running: always
    allowed on ultra, allowed below the monthly cap on basico and pro. *)
Definition paidDecision (sub : Subscription.t) (daysUntilExpiry : option Z)
  : CanProcessResult.t :=
  let plan := Subscription.plan sub in
  let used := Subscription.transactions_used sub in
  if decide (plan = ultra) then
    CanProcessResult.mk true plan used None None None None (Some daysUntilExpiry)
  else if bool_decide (limit_of plan ≤ used) then
    CanProcessResult.mk false plan used (Some (limit_of plan))
      (Some ("Limite mensal atingido (" +:+ pretty used +:+ "/" +:+ pretty (limit_of plan)
             +:+ ")"))
      None None (Some daysUntilExpiry)
  else
    CanProcessResult.mk true plan used (Some (limit_of plan)) None None None
                        (Some daysUntilExpiry).

(** The decision for a paid plan in its days of grace, [d] being the days
    until expiry. *)
Definition graceDecision (sub : Subscription.t) (d : Z) : CanProcessResult.t :=
  let plan := Subscription.plan sub in
  let used := Subscription.transactions_used sub in
  if decide (plan = ultra) then
    CanProcessResult.mk true plan used None (Some (graceMessage (GRACE_PERIOD_DAYS + d)))
                        None (Some true) (Some (Some d))
  else
    CanProcessResult.mk (bool_decide (used < limit_of plan)) plan used (Some (limit_of plan))
                        (Some (graceMessage (GRACE_PERIOD_DAYS + d)))
                        None (Some true) (Some (Some d)).

(** The ledger and its sequence are as they were. *)
Definition same_ledger (w w' : World) : Prop :=
  transactions w' = transactions w ∧ transactions_id_seq w' = transactions_id_seq w.

(** No reply is sent. *)
Definition silent (w w' : World) : Prop := outbox w' = outbox w.

(** The replies sent before are still there, and new ones come after them. *)
Definition replies_kept (w w' : World) : Prop := outbox w `prefix_of` outbox w'.

(** The relations between the world before and the world after that no
    reading of the clock, no request to the store and no write to
    [subscriptions] breaks. *)
Class Steady (R : World → World → Prop) := {
  #[global] steady_preorder :: PreOrder R;
  steady_tick : ∀ w, R w (tick w);
  steady_ask : ∀ w, R w (ask w);
  steady_subscriptions : ∀ w subs seq,
    R w (mkWorld (transactions w) subs (transactions_id_seq w) seq
                 (ticks w) (requests w) (outbox w))
}.

(** Those that the writes to [transactions] and the replies do not break
    either: a row appended under the next id of the sequence, rows deleted,
    rows rewritten under their ids, a reply sent. *)
Class Orderly (R : World → World → Prop) := {
  #[global] orderly_steady :: Steady R;
  orderly_append : ∀ w row,
    Transaction.id row = transactions_id_seq w →
    R w (mkWorld (transactions w ++ [row]) (subscriptions w) (transactions_id_seq w + 1)
                 (subscriptions_id_seq w) (ticks w) (requests w) (outbox w));
  orderly_delete : ∀ w (P : Transaction.t → Prop) `{∀ r, Decision (P r)},
    R w (set_transactions (filter P) w);
  orderly_rewrite : ∀ w (g : Transaction.t → Transaction.t),
    (∀ r, Transaction.id (g r) = Transaction.id r) →
    R w (set_transactions (fmap g) w);
  orderly_sent : ∀ w r, R w (sent r w)
}.

(** [pieces.join(sep)] for a one-character separator. *)
Fixpoint join (sep : ascii) (pieces : list string) : string :=
  match pieces with
  | [] => EmptyString
  | [piece] => piece
  | piece :: rest => piece +:+ String sep (join sep rest)
  end.

(** The character [c] occurs in [s]. *)
Fixpoint mentions (c : ascii) (s : string) : bool :=
  match s with
  | EmptyString => false
  | String c' rest => Ascii.eqb c' c || mentions c rest
  end.

(** The sum 1 + 2 + ... + n. *)
Definition triangle (n : Z) : Z := n * (n + 1) / 2.

(** [m] run [n] times in a row. *)
Fixpoint repeatM (n : nat) (m : M unit) : M unit :=
  match n with
  | O => mret ()
  | S n' => m;; repeatM n' m
  end.

(** ** A deployment whose store fails now and then *)

Module Faulty.
(** The store answers every request but the [n]-th. *)
Definition runtime (n : nat) : Runtime := {|
  clock := λ k, Demo.t0 + Z.of_nat k;
  store_up := λ k, bool_decide (k ≠ n);
  addDays := fixedZoneAddDays;
  startOfDay := fixedZoneStartOfDay (-3 * Demo.hour)
|}.

(** The store answers no request. *)
Definition down : Runtime := {|
  clock := λ k, Demo.t0 + Z.of_nat k;
  store_up := λ _, false;
  addDays := fixedZoneAddDays;
  startOfDay := fixedZoneStartOfDay (-3 * Demo.hour)
|}.
End Faulty.

(** ** More deployments *)

Module Cases.
(** Chat 7 on the basico plan, 25 days of its period to go. *)
Definition running : World :=
  Demo.world {[ 7 := Subscription.mk 1 basico 12 (Demo.t0 - 5 * 24 * Demo.hour)
                                     (Some (Demo.t0 + 25 * 24 * Demo.hour))
                                     (Demo.t0 - 90 * 24 * Demo.hour) ]}.

(** The first two calls throw, the third returns. *)
Definition flaky (k : nat) : Exn + Z :=
  if (k <? 2)%nat then inl ApiError else inr 42.

(** No text parses to a number. *)
Definition outside : Outside := {|
  download := λ _, None;
  messages_create := λ _ _ _, None;
  JSON_parse := λ _, None;
  parseFloat := λ _, None
|}.
End Cases.

(** * Properties *)

(** ** Running a computation *)

Lemma bind_run {A B} (m : M A) (f : A → M B) w :
  (m ≫= f) w =
    match m w with
    | (Returned a, w') => f a w'
    | (Thrown e, w') => (Thrown e, w')
    end.
Proof. reflexivity. Qed.

Ltac munfold :=
  unfold mbind, M_bind, mret, M_ret, get_world, modify_world, throw, now, reply; cbn.

Lemma ceilDiv_spec a b :
  0 < b → (ceilDiv a b - 1) * b < a ≤ ceilDiv a b * b.
Proof.
  intros Hb. unfold ceilDiv.
  pose proof (Z.div_mod (- a) b ltac:(lia)) as Hdm.
  pose proof (Z.mod_pos_bound (- a) b Hb) as Hr.
  nia.
Qed.

(** ** The usage gate, when the store answers *)

Section Gate.
Context `{Runtime}.
Hypothesis store_answers : ∀ n, store_up n = true.

Lemma request_run w : request w = (Returned true, ask w).
Proof. unfold request. by rewrite store_answers. Qed.

Lemma getSubscription_run chatId w :
  getSubscription chatId w = (Returned (subscriptions w !! chatId), ask w).
Proof.
  unfold getSubscription, select_subscriptions_eq_chat_id.
  rewrite !bind_run, request_run. munfold.
  by destruct (subscriptions w !! chatId).
Qed.

Lemma getOrCreateSubscription_found chatId sub w :
  subscriptions w !! chatId = Some sub →
  getOrCreateSubscription chatId w = (Returned (Some sub), ask w).
Proof.
  intros Hsub. unfold getOrCreateSubscription.
  by rewrite bind_run, getSubscription_run, Hsub.
Qed.

Lemma getOrCreateSubscription_created chatId w :
  subscriptions w !! chatId = None →
  let row := Subscription.fresh (subscriptions_id_seq w) free (clock (ticks w)) in
  getOrCreateSubscription chatId w =
    (Returned (Some row),
     mkWorld (transactions w) (<[chatId := row]> (subscriptions w))
             (transactions_id_seq w) (subscriptions_id_seq w + 1)
             (S (ticks w)) (S (S (requests w))) (outbox w)).
Proof.
  intros Hsub. cbn. unfold getOrCreateSubscription.
  rewrite bind_run, getSubscription_run, Hsub.
  unfold insert_subscription. rewrite !bind_run, request_run. munfold.
  by rewrite Hsub.
Qed.

Lemma getTodayTransactionCount_run chatId w :
  getTodayTransactionCount chatId w =
    (Returned (todayCount chatId (clock (ticks w)) w), ask (tick w)).
Proof.
  unfold getTodayTransactionCount, getStartOfTodayISO, count_transactions.
  rewrite !bind_run. munfold. by rewrite store_answers.
Qed.

Lemma getDaysUntilExpiry_run sub periodEnd w :
  Subscription.plan sub ≠ free →
  Subscription.period_end sub = Some periodEnd →
  getDaysUntilExpiry sub w =
    (Returned (Some (ceilDiv (periodEnd - clock (ticks w)) MS_PER_DAY)), tick w).
Proof.
  intros Hplan Hend. unfold getDaysUntilExpiry. rewrite Hend.
  by destruct (Subscription.plan sub).
Qed.

Lemma isSubscriptionExpired_run sub periodEnd w :
  Subscription.plan sub ≠ free →
  Subscription.period_end sub = Some periodEnd →
  isSubscriptionExpired sub w =
    (Returned (bool_decide (addDays periodEnd GRACE_PERIOD_DAYS < clock (ticks w))), tick w).
Proof.
  intros Hplan Hend. unfold isSubscriptionExpired. rewrite Hend.
  by destruct (Subscription.plan sub).
Qed.

Lemma isInGracePeriod_run sub periodEnd w :
  Subscription.plan sub ≠ free →
  Subscription.period_end sub = Some periodEnd →
  isInGracePeriod sub w =
    (Returned (bool_decide (periodEnd < clock (ticks w)
                            ∧ clock (ticks w) ≤ addDays periodEnd GRACE_PERIOD_DAYS)),
     tick w).
Proof.
  intros Hplan Hend. unfold isInGracePeriod. rewrite Hend.
  by destruct (Subscription.plan sub).
Qed.

Lemma downgradeToFree_run chatId w :
  downgradeToFree chatId w =
    (Returned (), set_subscriptions (alter Subscription.downgrade chatId) (ask w)).
Proof.
  unfold downgradeToFree, update_subscriptions_eq_chat_id.
  rewrite !bind_run, request_run. by munfold.
Qed.

Lemma freeDecision_allowed count :
  CanProcessResult.allowed (freeDecision count) = bool_decide (count < 5).
Proof.
  unfold freeDecision. case_bool_decide; cbn; symmetry.
  - apply bool_decide_eq_false; lia.
  - apply bool_decide_eq_true; lia.
Qed.

Lemma freeDecision_fields count :
  CanProcessResult.plan (freeDecision count) = free
  ∧ CanProcessResult.used (freeDecision count) = count
  ∧ CanProcessResult.limit (freeDecision count) = Some 5
  ∧ CanProcessResult.expired (freeDecision count) = None.
Proof. unfold freeDecision. by case_bool_decide. Qed.

Ltac free_branches :=
  rewrite (decide_False (P := free ≠ free)) by (intros ?; done);
  rewrite (decide_False (P := free = ultra)) by done;
  rewrite (decide_True (P := free = free)) by done.

Lemma canProcess_free_found chatId sub w :
  subscriptions w !! chatId = Some sub →
  Subscription.plan sub = free →
  canProcess chatId w =
    (Returned (freeDecision (todayCount chatId (clock (ticks w)) w)), ask (tick (ask w))).
Proof.
  intros Hsub Hfree. unfold canProcess.
  rewrite bind_run, (getOrCreateSubscription_found _ _ _ Hsub).
  unfold getDaysUntilExpiry. rewrite Hfree. rewrite bind_run. cbn.
  free_branches. rewrite bind_run, getTodayTransactionCount_run.
  unfold freeDecision, limit_of, todayCount. cbn.
  by case_bool_decide.
Qed.

Lemma canProcess_free_created chatId w :
  subscriptions w !! chatId = None →
  ∃ w', canProcess chatId w =
          (Returned (freeDecision (todayCount chatId (clock (S (ticks w))) w)), w')
        ∧ transactions w' = transactions w
        ∧ ticks w' = S (S (ticks w)).
Proof.
  intros Hsub. unfold canProcess.
  rewrite bind_run, (getOrCreateSubscription_created _ _ Hsub).
  unfold getDaysUntilExpiry. cbn. rewrite bind_run. cbn.
  free_branches. rewrite bind_run, getTodayTransactionCount_run.
  unfold freeDecision, limit_of, todayCount. cbn.
  case_bool_decide; eexists; (split; [reflexivity|done]).
Qed.

(** The free-tier rule when every request is answered. On the free tier (a
    free row, or no row yet: one is created with free-tier defaults)
    [canProcess] allows exactly when fewer than 5 ledger
    entries of the chat were created since local midnight of the day the
    call reads from the clock; [used] is that count. The count comes from
    the ledger: whatever the stored usage counter of the row holds, the
    result is the same. *)
Theorem canProcess_free_tier chatId w :
  (∀ sub, subscriptions w !! chatId = Some sub → Subscription.plan sub = free) →
  ∃ r w' n,
    canProcess chatId w = (Returned r, w') ∧
    (ticks w ≤ n < ticks w')%nat ∧
    let live := Z.of_nat (length (filter (ofToday chatId (startOfDay (clock n)))
                                         (transactions w))) in
    CanProcessResult.plan r = free ∧
    CanProcessResult.used r = live ∧
    CanProcessResult.allowed r = bool_decide (live < 5).
Proof.
  intros Hfree. destruct (subscriptions w !! chatId) as [sub|] eqn:Hsub.
  - rewrite (canProcess_free_found _ _ _ Hsub (Hfree _ eq_refl)).
    eexists _, _, (ticks w). split; [reflexivity|]. cbn. split; [lia|].
    destruct (freeDecision_fields (todayCount chatId (clock (ticks w)) w)) as (-> & -> & _).
    by rewrite freeDecision_allowed.
  - destruct (canProcess_free_created _ _ Hsub) as (w' & -> & _ & Hticks).
    eexists _, _, (S (ticks w)). split; [reflexivity|]. cbn. split; [lia|].
    destruct (freeDecision_fields (todayCount chatId (clock (S (ticks w))) w)) as (-> & -> & _).
    by rewrite freeDecision_allowed.
Qed.

(** The expiry rule when every request is answered. A paid subscription
    whose period end plus 3 days lies before the time [isSubscriptionExpired] reads (the second reading of the call) is
    rewritten to plan free, usage 0, no period end; the decision has plan
    free, [expired = true] and allows exactly when the live count of
    today's ledger entries is below 5. A second call right after returns
    plan free without the [expired] flag. *)
Theorem canProcess_expired chatId w sub periodEnd :
  subscriptions w !! chatId = Some sub →
  Subscription.plan sub ≠ free →
  Subscription.period_end sub = Some periodEnd →
  addDays periodEnd 3 < clock (S (ticks w)) →
  ∃ r w' r2 w'',
    canProcess chatId w = (Returned r, w') ∧
    subscriptions w' !! chatId =
      Some (Subscription.mk (Subscription.id sub) free 0 (Subscription.period_start sub)
                            None (Subscription.created_at sub)) ∧
    CanProcessResult.plan r = free ∧
    CanProcessResult.expired r = Some true ∧
    CanProcessResult.allowed r =
      bool_decide (Z.of_nat (length (filter (ofToday chatId
                                               (startOfDay (clock (S (S (ticks w))))))
                                            (transactions w))) < 5) ∧
    canProcess chatId w' = (Returned r2, w'') ∧
    CanProcessResult.plan r2 = free ∧
    CanProcessResult.expired r2 = None.
Proof.
  intros Hsub Hplan Hend Hlate.
  set (w' := ask (tick (set_subscriptions (alter Subscription.downgrade chatId)
                                          (ask (tick (tick (ask w))))))).
  assert (subscriptions w' !! chatId = Some (Subscription.downgrade sub)) as Hrow.
  { cbn. by rewrite lookup_alter_eq, Hsub. }
  eexists _, w', _, _. split; [|split; [exact Hrow|]].
  - unfold canProcess. rewrite bind_run, (getOrCreateSubscription_found _ _ _ Hsub).
    rewrite bind_run, (getDaysUntilExpiry_run _ _ _ Hplan Hend).
    rewrite (decide_True (P := Subscription.plan sub ≠ free)) by done.
    rewrite bind_run, (isSubscriptionExpired_run _ _ _ Hplan Hend). cbn [ticks tick ask].
    rewrite bool_decide_eq_true_2 by done.
    rewrite bind_run, downgradeToFree_run.
    rewrite bind_run, getTodayTransactionCount_run. reflexivity.
  - cbn. repeat split.
    + rewrite (canProcess_free_found _ _ _ Hrow eq_refl). reflexivity.
    + apply freeDecision_fields.
    + apply freeDecision_fields.
Qed.

(** C2. A paid subscription past its period end but within the 3 days of
    grace (at the readings of [isSubscriptionExpired] and [isInGracePeriod])
    gets [inGracePeriod = true], [daysUntilExpiry] the ceiling [d] of
    (period end - now) in days, now being the first reading of the call, a
    message that counts [3 + d] days, and [allowed] by the plan's own rule:
    usage below 1000 for basico, below 3500 for pro, always for ultra. *)
Theorem canProcess_grace chatId w sub periodEnd :
  subscriptions w !! chatId = Some sub →
  Subscription.plan sub ≠ free →
  Subscription.period_end sub = Some periodEnd →
  clock (S (ticks w)) ≤ addDays periodEnd 3 →
  periodEnd < clock (S (S (ticks w))) ≤ addDays periodEnd 3 →
  ∃ r w' d,
    canProcess chatId w = (Returned r, w') ∧
    CanProcessResult.inGracePeriod r = Some true ∧
    CanProcessResult.daysUntilExpiry r = Some (Some d) ∧
    (d - 1) * MS_PER_DAY < periodEnd - clock (ticks w) ≤ d * MS_PER_DAY ∧
    CanProcessResult.message r =
      Some ("⚠️ Assinatura vencida! Renove em " +:+ pretty (3 + d)
            +:+ " dias para manter acesso.") ∧
    CanProcessResult.allowed r =
      match Subscription.plan sub with
      | ultra => true
      | basico => bool_decide (Subscription.transactions_used sub < 1000)
      | pro => bool_decide (Subscription.transactions_used sub < 3500)
      | free => false
      end.
Proof.
  intros Hsub Hplan Hend Hnot Hin.
  exists
    (let d := ceilDiv (periodEnd - clock (ticks w)) MS_PER_DAY in
     if decide (Subscription.plan sub = ultra) then
       CanProcessResult.mk true (Subscription.plan sub) (Subscription.transactions_used sub)
         None (Some (graceMessage (GRACE_PERIOD_DAYS + d))) None (Some true) (Some (Some d))
     else
       CanProcessResult.mk
         (bool_decide (Subscription.transactions_used sub < limit_of (Subscription.plan sub)))
         (Subscription.plan sub) (Subscription.transactions_used sub)
         (Some (limit_of (Subscription.plan sub)))
         (Some (graceMessage (GRACE_PERIOD_DAYS + d))) None (Some true) (Some (Some d))),
    (tick (tick (tick (ask w)))),
    (ceilDiv (periodEnd - clock (ticks w)) MS_PER_DAY).
  split.
  - unfold canProcess. rewrite bind_run, (getOrCreateSubscription_found _ _ _ Hsub).
    rewrite bind_run, (getDaysUntilExpiry_run _ _ _ Hplan Hend).
    rewrite (decide_True (P := Subscription.plan sub ≠ free)) by done.
    rewrite bind_run, (isSubscriptionExpired_run _ _ _ Hplan Hend). cbn [ticks tick ask].
    rewrite bool_decide_eq_false_2 by (unfold GRACE_PERIOD_DAYS; lia).
    rewrite bind_run, (isInGracePeriod_run _ _ _ Hplan Hend). cbn [ticks tick ask].
    rewrite bool_decide_eq_true_2 by (unfold GRACE_PERIOD_DAYS; lia).
    cbn. by case_decide.
  - pose proof (ceilDiv_spec (periodEnd - clock (ticks w)) MS_PER_DAY ltac:(done)).
    destruct (Subscription.plan sub); try done; cbn; repeat split; lia.
Qed.

End Gate.

(** ** Ordering by a key *)

Section Ordering.
Context {A : Type} (key : A → Z) (ascending : bool).

Local Abbreviation in_order := (in_order key ascending).

Lemma in_order_trans x y z : in_order x y → in_order y z → in_order x z.
Proof.
  unfold in_order, before. destruct ascending; rewrite !Z.leb_le; lia.
Qed.

Lemma in_order_total x y : before key ascending x y = false → in_order y x.
Proof.
  unfold in_order, before. destruct ascending; rewrite Z.leb_gt, Z.leb_le; lia.
Qed.

Lemma order_by_cons x l :
  order_by key ascending (x :: l) = insert_by key ascending x (order_by key ascending l).
Proof. reflexivity. Qed.

Lemma insert_by_front x l :
  Forall (in_order x) l → insert_by key ascending x l = x :: l.
Proof.
  destruct l as [|y l]; [done|]. intros Hall. cbn.
  apply Forall_cons_1 in Hall as [Hxy _]. unfold in_order in Hxy. by rewrite Hxy.
Qed.

Lemma insert_by_Permutation x l : insert_by key ascending x l ≡ₚ x :: l.
Proof.
  induction l as [|y l IH]; [done|]. cbn.
  destruct (before key ascending x y); [done|].
  rewrite IH. apply Permutation_swap.
Qed.

Lemma order_by_Permutation l : order_by key ascending l ≡ₚ l.
Proof.
  induction l as [|x l IH]; [done|]. cbn.
  by rewrite insert_by_Permutation, IH.
Qed.

Lemma order_by_length l : length (order_by key ascending l) = length l.
Proof. by rewrite order_by_Permutation. Qed.

Lemma elem_of_order_by x l : x ∈ order_by key ascending l ↔ x ∈ l.
Proof. by rewrite order_by_Permutation. Qed.

Lemma insert_by_sorted x l :
  StronglySorted in_order l → StronglySorted in_order (insert_by key ascending x l).
Proof.
  induction l as [|y l IH]; intros Hs; cbn.
  - repeat constructor.
  - apply StronglySorted_inv in Hs as [Hl Hy].
    destruct (before key ascending x y) eqn:Hxy.
    + constructor; [by constructor|].
      constructor; [done|].
      eapply Forall_impl; [exact Hy|]. intros z Hyz. by eapply in_order_trans.
    + constructor; [by apply IH|].
      rewrite insert_by_Permutation. constructor; [|done].
      by apply in_order_total.
Qed.

Lemma order_by_sorted l : StronglySorted in_order (order_by key ascending l).
Proof.
  induction l as [|x l IH]; cbn; [constructor|]. by apply insert_by_sorted.
Qed.

(** The first row of the ordered result is in front of every row. *)
Lemma order_by_head x l' l :
  order_by key ascending l = x :: l' → ∀ y, y ∈ l → y = x ∨ in_order x y.
Proof.
  intros Heq y Hy. pose proof (order_by_sorted l) as Hs. rewrite Heq in Hs.
  apply elem_of_order_by in Hy. rewrite Heq in Hy.
  apply StronglySorted_inv in Hs as [_ Hall].
  apply elem_of_cons in Hy as [->|Hy]; [by left|right].
  by eapply Forall_forall in Hall.
Qed.

(** Filtering the rows commutes with ordering them. *)
Lemma filter_insert_by (P : A → Prop) `{∀ x, Decision (P x)} x l :
  StronglySorted in_order l →
  filter P (insert_by key ascending x l) =
    if decide (P x) then insert_by key ascending x (filter P l) else filter P l.
Proof.
  induction l as [|y l IH]; intros Hs; cbn [insert_by].
  - rewrite filter_cons, !filter_nil. by case_decide.
  - apply StronglySorted_inv in Hs as [Hl Hy].
    destruct (before key ascending x y) eqn:Hxy.
    + rewrite filter_cons. case_decide; [|done].
      symmetry. apply insert_by_front.
      apply Forall_forall. intros z Hz.
      apply list_elem_of_filter in Hz as [_ Hz].
      apply elem_of_cons in Hz as [->|Hz]; [done|].
      eapply in_order_trans; [exact Hxy|]. by eapply Forall_forall in Hy.
    + rewrite filter_cons, IH by done. rewrite (filter_cons _ y).
      repeat case_decide; cbn; by rewrite ?Hxy.
Qed.

Lemma filter_order_by (P : A → Prop) `{∀ x, Decision (P x)} l :
  filter P (order_by key ascending l) = order_by key ascending (filter P l).
Proof.
  induction l as [|x l IH]; [done|].
  rewrite order_by_cons, filter_insert_by by apply order_by_sorted.
  rewrite filter_cons, IH. by case_decide.
Qed.

End Ordering.

(** ** Rows with unique ids *)

Lemma filter_all {A} (P : A → Prop) `{∀ x, Decision (P x)} (l : list A) :
  (∀ x, x ∈ l → P x) → filter P l = l.
Proof.
  induction l as [|x l IH]; intros Hall; [done|].
  rewrite filter_cons_True by (apply Hall; left).
  f_equal. apply IH. intros y Hy. apply Hall. by right.
Qed.

Lemma filter_comm {A} (P Q : A → Prop) `{∀ x, Decision (P x)} `{∀ x, Decision (Q x)}
    (l : list A) :
  filter P (filter Q l) = filter Q (filter P l).
Proof.
  induction l as [|x l IH]; [done|].
  rewrite !(filter_cons _ x). repeat case_decide; rewrite ?filter_cons; 
    repeat case_decide; try done; by rewrite IH.
Qed.

Lemma filter_none {A} (P : A → Prop) `{∀ x, Decision (P x)} (l : list A) :
  (∀ x, x ∈ l → ¬ P x) → filter P l = [].
Proof.
  induction l as [|x l IH]; intros Hall; [done|].
  rewrite filter_cons_False by (apply Hall; left).
  apply IH. intros y Hy. apply Hall. by right.
Qed.

Lemma unique_ids_split rows x :
  unique_ids rows → x ∈ rows →
  ∃ l1 l2, rows = l1 ++ x :: l2
           ∧ (∀ r, r ∈ l1 → Transaction.id r ≠ Transaction.id x)
           ∧ (∀ r, r ∈ l2 → Transaction.id r ≠ Transaction.id x).
Proof.
  unfold unique_ids. intros Hnd Hx.
  apply list_elem_of_split in Hx as (l1 & l2 & ->). exists l1, l2.
  rewrite fmap_app, fmap_cons in Hnd.
  apply NoDup_app in Hnd as (_ & Hdisj & Hnd).
  apply NoDup_cons in Hnd as [Hx _].
  split; [done|]. split; intros r Hr Heq.
  - apply (Hdisj (Transaction.id r)); [by apply list_elem_of_fmap_2|].
    rewrite Heq. left.
  - apply Hx. rewrite <- Heq. by apply list_elem_of_fmap_2.
Qed.

Section OneRow.
Context (l1 l2 : list Transaction.t) (x : Transaction.t).
Hypothesis other1 : ∀ r, r ∈ l1 → Transaction.id r ≠ Transaction.id x.
Hypothesis other2 : ∀ r, r ∈ l2 → Transaction.id r ≠ Transaction.id x.

Lemma filter_id_eq :
  filter (λ r, Transaction.id r = Transaction.id x) (l1 ++ x :: l2) = [x].
Proof.
  rewrite filter_app, filter_cons_True by done.
  by rewrite !filter_none.
Qed.

Lemma filter_id_ne :
  filter (λ r, ¬ Transaction.id r = Transaction.id x) (l1 ++ x :: l2) = l1 ++ l2.
Proof.
  rewrite filter_app, filter_cons_False by (intros Hne; by apply Hne).
  by rewrite !filter_all.
Qed.

Lemma fmap_id_eq (f : Transaction.t → Transaction.t) :
  (λ r, if decide (Transaction.id r = Transaction.id x) then f r else r) <$> (l1 ++ x :: l2)
  = l1 ++ f x :: l2.
Proof.
  assert (∀ l : list Transaction.t, (∀ r, r ∈ l → Transaction.id r ≠ Transaction.id x) →
    (λ r, if decide (Transaction.id r = Transaction.id x) then f r else r) <$> l = l) as Hsame.
  { induction l as [|y l IH]; intros Hall; [done|]. rewrite fmap_cons.
    rewrite decide_False by (apply Hall; left).
    f_equal. apply IH. intros r Hr. apply Hall. by right. }
  rewrite fmap_app, fmap_cons, decide_True by done.
  by rewrite !Hsame.
Qed.

End OneRow.

(** Removing the rows with the id of the [i]-th row removes that row. *)
Lemma filter_id_ne_delete rows i x :
  unique_ids rows → rows !! i = Some x →
  filter (λ r, ¬ Transaction.id r = Transaction.id x) rows = delete i rows.
Proof.
  intros Hnd Hi.
  apply list_elem_of_split_length in Hi as (l1 & l2 & -> & ->).
  unfold unique_ids in Hnd. rewrite fmap_app, fmap_cons in Hnd.
  apply NoDup_app in Hnd as (_ & Hdisj & Hnd).
  apply NoDup_cons in Hnd as [Hx _].
  rewrite delete_middle. apply filter_id_ne; intros r Hr Heq.
  - apply (Hdisj (Transaction.id r)); [by apply list_elem_of_fmap_2|].
    rewrite Heq. left.
  - apply Hx. rewrite <- Heq. by apply list_elem_of_fmap_2.
Qed.

Lemma unique_ids_filter (P : Transaction.t → Prop) `{∀ r, Decision (P r)} rows :
  unique_ids rows → unique_ids (filter P rows).
Proof.
  unfold unique_ids. intros Hnd.
  eapply sublist_NoDup; [exact Hnd|]. by apply fmap_sublist, sublist_filter.
Qed.

Lemma unique_ids_order_by ascending rows :
  unique_ids rows → unique_ids (order_by Transaction.created_at ascending rows).
Proof. unfold unique_ids. by rewrite order_by_Permutation. Qed.

(** ** The ledger operations, when the store answers *)

Section Ledger.
Context `{Runtime}.
Hypothesis store_answers : ∀ n, store_up n = true.

Lemma getStartOfTodayISO_run w :
  getStartOfTodayISO w = (Returned (startOfDay (clock (ticks w))), tick w).
Proof. reflexivity. Qed.

Lemma select_transactions_run (P : Transaction.t → Prop) `{∀ r, Decision (P r)} ascending w :
  select_transactions P ascending w =
    (Returned (answered (match ascending with
                         | Some asc => order_by Transaction.created_at asc
                                                (filter P (transactions w))
                         | None => filter P (transactions w)
                         end)),
     ask w).
Proof.
  unfold select_transactions. rewrite !bind_run, (request_run store_answers). by munfold.
Qed.

Lemma delete_transactions_run (P : Transaction.t → Prop) `{∀ r, Decision (P r)} w :
  delete_transactions P w =
    (Returned (answered (filter P (transactions w))),
     set_transactions (filter (λ r, ¬ P r)) (ask w)).
Proof.
  unfold delete_transactions. rewrite !bind_run, (request_run store_answers). by munfold.
Qed.

Lemma update_transactions_run (P : Transaction.t → Prop) `{∀ r, Decision (P r)} f w :
  update_transactions P f w =
    (Returned (answered (f <$> filter P (transactions w))),
     set_transactions (fmap (λ r, if decide (P r) then f r else r)) (ask w)).
Proof.
  unfold update_transactions. rewrite !bind_run, (request_run store_answers). by munfold.
Qed.

Lemma getTodayTransactions_run chatId w :
  getTodayTransactions chatId w =
    (Returned (listToday chatId (clock (ticks w)) (transactions w)), ask (tick w)).
Proof.
  unfold getTodayTransactions.
  rewrite bind_run, getStartOfTodayISO_run, bind_run, select_transactions_run.
  reflexivity.
Qed.

Lemma deleteTransactionByIndex_run chatId index w :
  let today := listToday chatId (clock (ticks w)) (transactions w) in
  let targetIndex := match index with
                     | None => Z.of_nat (length today) - 1
                     | Some index => index - 1
                     end in
  deleteTransactionByIndex chatId index w =
    match today !! Z.to_nat targetIndex with
    | Some targetTx =>
        if bool_decide (0 ≤ targetIndex)
        then (Returned (Some targetTx),
              set_transactions
                (filter (λ r, ¬ Transaction.id r = Transaction.id targetTx))
                (ask (ask (tick w))))
        else (Returned None, ask (tick w))
    | None => (Returned None, ask (tick w))
    end.
Proof.
  cbn zeta. unfold deleteTransactionByIndex.
  rewrite bind_run, getStartOfTodayISO_run, bind_run, select_transactions_run.
  cbn [data answered]. change (transactions (tick w)) with (transactions w).
  fold (listToday chatId (clock (ticks w)) (transactions w)).
  set (today := listToday _ _ _).
  destruct today as [|row today'] eqn:Htoday.
  { rewrite lookup_nil. reflexivity. }
  rewrite <- Htoday. clear Htoday.
  set (targetIndex := match index with None => _ | Some _ => _ end).
  case_bool_decide as Hout.
  - destruct (today !! Z.to_nat targetIndex) as [targetTx|] eqn:Hlook; [|done].
    apply lookup_lt_Some in Hlook.
    rewrite bool_decide_eq_false_2; [done|lia].
  - destruct (today !! Z.to_nat targetIndex) as [targetTx|] eqn:Hlook.
    + rewrite bool_decide_eq_true_2 by lia.
      by rewrite bind_run, delete_transactions_run.
    + apply lookup_ge_None in Hlook. lia.
Qed.

(** Deleting by position when every request is answered. With [today] the
    chat's rows of today, oldest first, [L] its length
    and [k] the position asked for ([L] when none is given): for [k] in
    [1, L] the [k]-th row of [today], and only that row, leaves the table
    and is returned, so that today's list is the old one without its [k]-th
    entry; for any other [k] nothing is returned and the table is as before.
    Giving no position is the same call as giving [L]. *)
Theorem deleteTransactionByIndex_position chatId index w :
  unique_ids (transactions w) →
  let today := listToday chatId (clock (ticks w)) (transactions w) in
  let L := Z.of_nat (length today) in
  let k := default L index in
  ∃ deleted w',
    deleteTransactionByIndex chatId index w = (Returned deleted, w') ∧
    (1 ≤ k ≤ L →
       ∃ target l1 l2,
         today !! Z.to_nat (k - 1) = Some target ∧
         deleted = Some target ∧
         transactions w = l1 ++ target :: l2 ∧
         transactions w' = l1 ++ l2 ∧
         listToday chatId (clock (ticks w)) (transactions w') = delete (Z.to_nat (k - 1)) today) ∧
    (¬ (1 ≤ k ≤ L) → deleted = None ∧ transactions w' = transactions w) ∧
    deleteTransactionByIndex chatId None w = deleteTransactionByIndex chatId (Some L) w.
Proof.
  intros Huniq today L k.
  assert (deleteTransactionByIndex chatId None w = deleteTransactionByIndex chatId (Some L) w)
    as Hsame by (by rewrite !deleteTransactionByIndex_run).
  assert (deleteTransactionByIndex chatId index w = deleteTransactionByIndex chatId (Some k) w)
    as -> by (destruct index; [done|exact Hsame]).
  rewrite deleteTransactionByIndex_run. fold today.
  destruct (today !! Z.to_nat (k - 1)) as [target|] eqn:Hlook.
  - pose proof (lookup_lt_Some _ _ _ Hlook) as Hlt.
    case_bool_decide as Hk.
    + eexists _, _. split; [reflexivity|]. split; [|split; [|exact Hsame]].
      * intros _.
        assert (target ∈ transactions w) as Hin.
        { apply list_elem_of_lookup_2 in Hlook. unfold today, listToday in Hlook.
          apply elem_of_order_by, list_elem_of_filter in Hlook. tauto. }
        destruct (unique_ids_split _ _ Huniq Hin) as (l1 & l2 & Hrows & Hl1 & Hl2).
        exists target, l1, l2. do 3 (split; [done|]). split.
        { cbn. rewrite Hrows. by apply filter_id_ne. }
        cbn [transactions set_transactions ask tick]. unfold listToday.
        rewrite filter_comm, <- filter_order_by. fold (listToday chatId (clock (ticks w)) (transactions w)).
        apply filter_id_ne_delete; [|done].
        by apply unique_ids_order_by, unique_ids_filter.
      * intros Hnot. exfalso. apply Hnot. unfold L. lia.
    + eexists _, _. split; [reflexivity|]. split; [|split; [|exact Hsame]].
      * intros ?. lia.
      * done.
  - apply lookup_ge_None in Hlook.
    eexists _, _. split; [reflexivity|]. split; [|split; [|exact Hsame]].
    + intros ?. unfold L in *. lia.
    + done.
Qed.

(** Editing the last amount when every request is answered. When the chat
    has rows of today, one of them that no row of today
    is newer than gets its amount overwritten: in the table that row, and no
    other, changes, in its amount only, and the changed row is returned.
    When the chat has no row of today nothing is returned and the table is
    as before. *)
Theorem updateLastTransactionAmount_last chatId newAmount w :
  unique_ids (transactions w) →
  let today := filter (ofToday chatId (startOfDay (clock (ticks w)))) (transactions w) in
  ∃ updated w',
    updateLastTransactionAmount chatId newAmount w = (Returned updated, w') ∧
    subscriptions w' = subscriptions w ∧
    (today = [] → updated = None ∧ transactions w' = transactions w) ∧
    (today ≠ [] →
       ∃ last new l1 l2,
         last ∈ today ∧
         (∀ r, r ∈ today → Transaction.created_at r ≤ Transaction.created_at last) ∧
         updated = Some new ∧
         transactions w = l1 ++ last :: l2 ∧
         transactions w' = l1 ++ new :: l2 ∧
         Transaction.amount new = newAmount ∧
         Transaction.id new = Transaction.id last ∧
         Transaction.chat_id new = Transaction.chat_id last ∧
         Transaction.bank_detected new = Transaction.bank_detected last ∧
         Transaction.client_name new = Transaction.client_name last ∧
         Transaction.telegram_file_id new = Transaction.telegram_file_id last ∧
         Transaction.raw_response new = Transaction.raw_response last ∧
         Transaction.created_at new = Transaction.created_at last).
Proof.
  intros Huniq today. unfold updateLastTransactionAmount.
  rewrite bind_run, getStartOfTodayISO_run, bind_run, select_transactions_run.
  change (transactions (tick w)) with (transactions w). fold today.
  destruct (order_by Transaction.created_at false today) as [|last rest] eqn:Hordered.
  - assert (today = []) as Hnil.
    { apply Permutation_nil_r. by rewrite <- (order_by_Permutation Transaction.created_at false),
        Hordered. }
    eexists _, _. split; [reflexivity|]. by rewrite Hnil.
  - assert (last ∈ today) as Hlast.
    { apply (elem_of_order_by Transaction.created_at false). rewrite Hordered. left. }
    assert (last ∈ transactions w) as Hin.
    { apply list_elem_of_filter in Hlast. tauto. }
    destruct (unique_ids_split _ _ Huniq Hin) as (l1 & l2 & Hrows & Hl1 & Hl2).
    cbn [limit data answered fmap option_fmap option_map take single].
    rewrite take_0. cbn [data answered].
    rewrite bind_run, update_transactions_run.
    change (transactions (ask (tick w))) with (transactions w).
    rewrite Hrows, (filter_id_eq l1 l2 last Hl1 Hl2).
    eexists _, _. split; [reflexivity|]. split; [done|]. split.
    { intros Hnil. rewrite Hnil in Hlast. by apply elem_of_nil in Hlast. }
    intros _. exists last, (Transaction.set_amount newAmount last), l1, l2.
    split; [done|]. split.
    { intros r Hr.
      destruct (order_by_head _ _ _ _ _ Hordered r Hr) as [->|Hord]; [done|].
      unfold in_order, before in Hord. by apply Z.leb_le in Hord. }
    split; [done|]. split; [done|]. split; [|done].
    cbn. by rewrite Hrows, (fmap_id_eq l1 l2 last Hl1 Hl2).
Qed.

Lemma length_filter_values (P : Subscription.t → Prop) `{∀ s, Decision (P s)}
    (subs : gmap Z Subscription.t) :
  length (filter P (map_to_list subs).*2) = size (filter (λ kv, P kv.2) subs).
Proof.
  induction subs as [|c s subs Hc _ IH] using map_first_key_ind.
  - by rewrite map_filter_empty, map_size_empty, map_to_list_empty.
  - rewrite map_to_list_insert by done. rewrite fmap_cons, filter_cons. cbn [snd].
    destruct (decide (P s)) as [Hs|Hs].
    + rewrite map_filter_insert_True by done.
      rewrite map_size_insert_None by (by rewrite map_lookup_filter_None; left).
      cbn. by rewrite IH.
    + rewrite map_filter_insert_False by done.
      rewrite delete_id by done. exact IH.
Qed.

Lemma now_run w : now w = (Returned (clock (ticks w)), tick w).
Proof. reflexivity. Qed.

Lemma update_subscriptions_neq_plan_run plan f w :
  update_subscriptions_neq_plan plan f w =
    (Returned (answered (f <$> filter (λ s, Subscription.plan s ≠ plan)
                                      (map_to_list (subscriptions w)).*2)),
     set_subscriptions (fmap (λ s, if decide (Subscription.plan s ≠ plan) then f s else s))
                       (ask w)).
Proof.
  unfold update_subscriptions_neq_plan.
  rewrite !bind_run, (request_run store_answers). reflexivity.
Qed.

(** C10. [resetMonthlyUsage] sets usage to 0 and period start to the time it
    reads on every row whose plan is not free and leaves the free rows as
    they are; no row's period end changes; it returns how many rows are not
    on the free plan. *)
Theorem resetMonthlyUsage_paid_rows w :
  ∃ n w',
    resetMonthlyUsage w = (Returned n, w') ∧
    n = Z.of_nat (size (paidRows (subscriptions w))) ∧
    (∀ c s, subscriptions w !! c = Some s →
       ∃ s', subscriptions w' !! c = Some s' ∧
             Subscription.period_end s' = Subscription.period_end s ∧
             (Subscription.plan s = free → s' = s) ∧
             (Subscription.plan s ≠ free →
                s' = Subscription.mk (Subscription.id s) (Subscription.plan s) 0
                       (clock (ticks w)) (Subscription.period_end s)
                       (Subscription.created_at s))) ∧
    (∀ c, subscriptions w !! c = None → subscriptions w' !! c = None) ∧
    transactions w' = transactions w.
Proof.
  unfold resetMonthlyUsage.
  rewrite bind_run, now_run, bind_run, update_subscriptions_neq_plan_run.
  cbn [error data answered].
  eexists _, _. split; [reflexivity|].
  cbn [subscriptions transactions set_subscriptions ask tick].
  split; [|split; [|split; [|done]]].
  - rewrite length_fmap, length_filter_values. reflexivity.
  - intros c s Hs. rewrite lookup_fmap, Hs. cbn [fmap option_fmap option_map].
    eexists. split; [reflexivity|].
    case_decide; (split; [done|]); split; intros ?; done.
  - intros c Hc. by rewrite lookup_fmap, Hc.
Qed.

End Ledger.

(** ** What a run leaves behind, whatever the store does *)

Global Instance same_store_preorder : PreOrder same_store.
Proof.
  split.
  - by intros w.
  - intros w1 w2 w3 [H1 H2] [H3 H4]. split; congruence.
Qed.

Global Instance quiet_preorder : PreOrder quiet.
Proof.
  split.
  - intros w. split; [done|]. split; [done|]. intros c s' Hs. by apply row_unchanged.
  - intros w1 w2 w3 (Ht1 & Hk1 & Hr1) (Ht2 & Hk2 & Hr2).
    split; [congruence|]. split; [by auto|].
    intros c s' Hs. destruct (Hr2 c s' Hs) as [Hsame|Hnone Hfree Hzero|s Hold Hpaid ->].
    + by apply Hr1.
    + apply row_created; auto.
    + destruct (Hr1 c s Hold) as [Hsame|Hnone Hfree Hzero|s0 Hold0 Hpaid0 ->].
      * by eapply row_downgraded.
      * done.
      * done.
Qed.

Lemma same_store_quiet w w' : same_store w w' → quiet w w'.
Proof.
  intros [Ht Hs]. split; [done|]. rewrite Hs. split; [done|].
  intros c s' Hrow. by apply row_unchanged.
Qed.

Global Instance same_store_frame : Frame same_store.
Proof. split; [apply _|done]. Qed.

Global Instance quiet_frame : Frame quiet.
Proof. split; [apply _|apply same_store_quiet]. Qed.

Create HintDb frames.

Section Frames.
Context `{Runtime} `{Outside}.
Context (R : World → World → Prop) `{!Frame R}.

Lemma lands_same_store {A} (m : M A) w : same_store w (m w).2 → lands R m w.
Proof. unfold lands. apply frame_same_store. Qed.

Lemma lands_ret {A} (a : A) w : lands R (mret a) w.
Proof. by apply lands_same_store. Qed.

Lemma lands_throw {A} e w : lands R (throw (A := A) e) w.
Proof. by apply lands_same_store. Qed.

Lemma lands_bind {A B} (m : M A) (f : A → M B) w :
  lands R m w →
  (∀ a w', m w = (Returned a, w') → lands R (f a) w') →
  lands R (m ≫= f) w.
Proof.
  unfold lands. rewrite bind_run. intros Hm Hf.
  destruct (m w) as [[a|e] w'] eqn:Hrun; [|done].
  etrans; [exact Hm|]. by apply Hf.
Qed.

Lemma lands_try_catch {A} (body : M A) handler w :
  lands R body w →
  (∀ e w', body w = (Thrown e, w') → lands R (handler e) w') →
  lands R (try_catch body handler) w.
Proof.
  unfold lands, try_catch. intros Hm Hh.
  destruct (body w) as [[a|e] w'] eqn:Hrun; [done|].
  etrans; [exact Hm|]. by apply Hh.
Qed.

Lemma lands_now w : lands R now w.
Proof. by apply lands_same_store. Qed.

Lemma lands_request w : lands R request w.
Proof. by apply lands_same_store. Qed.

Lemma lands_get_world w : lands R get_world w.
Proof. by apply lands_same_store. Qed.

Lemma lands_reply r w : lands R (reply r) w.
Proof. by apply lands_same_store. Qed.

Lemma lands_modify_world f w : R w (f w) → lands R (modify_world f) w.
Proof. done. Qed.

End Frames.

Global Hint Resolve same_store_frame quiet_frame lands_ret lands_throw lands_now
  lands_request lands_get_world lands_reply : frames.

(** One step through a computation: a bind, a branch of the code, or a
    computation whose frame is known. *)
Ltac frame_step :=
  match goal with
  | |- lands _ (_ ≫= _) _ => apply lands_bind; [apply _| |intros ? ? _]
  | |- lands _ (try_catch _ _) _ => apply lands_try_catch; [apply _| |intros ? ? _]
  | |- lands _ (match ?x with _ => _ end) _ => destruct x
  | |- lands _ (let _ := _ in _) _ => cbn zeta
  | |- lands _ _ _ => solve [eauto with frames]
  end.

Ltac frame := repeat frame_step.

(** *** Computations that leave the tables as they are *)

Lemma lands_select_transactions `{Runtime} R `{!Frame R}
    (P : Transaction.t → Prop) `{∀ r, Decision (P r)} asc w :
  lands R (select_transactions P asc) w.
Proof. unfold select_transactions. frame. Qed.

Lemma lands_count_transactions `{Runtime} R `{!Frame R}
    (P : Transaction.t → Prop) `{∀ r, Decision (P r)} w :
  lands R (count_transactions P) w.
Proof. unfold count_transactions. frame. Qed.

Lemma lands_select_subscriptions_eq_chat_id `{Runtime} R `{!Frame R} chatId w :
  lands R (select_subscriptions_eq_chat_id chatId) w.
Proof. unfold select_subscriptions_eq_chat_id. frame. Qed.

Global Hint Resolve lands_select_transactions lands_count_transactions
  lands_select_subscriptions_eq_chat_id : frames.

Lemma lands_getStartOfTodayISO `{Runtime} R `{!Frame R} w : lands R getStartOfTodayISO w.
Proof. unfold getStartOfTodayISO. frame. Qed.

Global Hint Resolve lands_getStartOfTodayISO : frames.

Lemma lands_isDuplicate `{Runtime} R `{!Frame R} chatId fileId w :
  lands R (isDuplicate chatId fileId) w.
Proof. unfold isDuplicate. frame. Qed.

Lemma lands_getTodayStats `{Runtime} R `{!Frame R} chatId w :
  lands R (getTodayStats chatId) w.
Proof. unfold getTodayStats. frame. Qed.

Lemma lands_getTodayTransactionCount `{Runtime} R `{!Frame R} chatId w :
  lands R (getTodayTransactionCount chatId) w.
Proof. unfold getTodayTransactionCount. frame. Qed.

Lemma lands_getSubscription `{Runtime} R `{!Frame R} chatId w :
  lands R (getSubscription chatId) w.
Proof. unfold getSubscription. frame. Qed.

Lemma lands_getDaysUntilExpiry `{Runtime} R `{!Frame R} sub w :
  lands R (getDaysUntilExpiry sub) w.
Proof. unfold getDaysUntilExpiry. frame. Qed.

Lemma lands_isSubscriptionExpired `{Runtime} R `{!Frame R} sub w :
  lands R (isSubscriptionExpired sub) w.
Proof. unfold isSubscriptionExpired. frame. Qed.

Lemma lands_isInGracePeriod `{Runtime} R `{!Frame R} sub w :
  lands R (isInGracePeriod sub) w.
Proof. unfold isInGracePeriod. frame. Qed.

Global Hint Resolve lands_isDuplicate lands_getTodayStats lands_getTodayTransactionCount
  lands_getSubscription lands_getDaysUntilExpiry lands_isSubscriptionExpired
  lands_isInGracePeriod : frames.

Lemma lands_getRunningTotalMessage `{Runtime} R `{!Frame R} chatId amount bank client w :
  lands R (getRunningTotalMessage chatId amount bank client) w.
Proof. unfold getRunningTotalMessage. frame. Qed.

Lemma lands_extractWithModel `{Outside} R `{!Frame R} base64 mediaType model w :
  lands R (extractWithModel base64 mediaType model) w.
Proof. unfold extractWithModel. frame. Qed.

Global Hint Resolve lands_getRunningTotalMessage lands_extractWithModel : frames.

Lemma lands_extractPixData `{Outside} R `{!Frame R} base64 mediaType w :
  lands R (extractPixData base64 mediaType) w.
Proof. unfold extractPixData. frame. Qed.

Global Hint Resolve lands_extractPixData : frames.

(** *** The gate appends nothing and increments nothing *)

(** From the run of a computation that leaves the tables as they are. *)
Lemma same_store_run {A} (m : M A) w a w' :
  lands same_store m w → m w = (a, w') → same_store w w'.
Proof. unfold lands. intros Hm Hrun. by rewrite Hrun in Hm. Qed.

Lemma lands_insert_subscription `{Runtime} chatId w :
  lands quiet (insert_subscription chatId free) w.
Proof.
  unfold lands, insert_subscription. rewrite !bind_run. munfold.
  destruct (store_up (requests w)); [|by apply same_store_quiet].
  destruct (subscriptions w !! chatId) as [s|] eqn:Hrow; [by apply same_store_quiet|].
  cbn. split; [done|]. split; cbn.
  - intros c Hc. apply lookup_insert_None in Hc as [Hc _]. done.
  - intros c s' Hs. destruct (decide (chatId = c)) as [<-|Hne].
    + rewrite lookup_insert_eq in Hs. injection Hs as <-.
      by apply row_created.
    + rewrite lookup_insert_ne in Hs by done. by apply row_unchanged.
Qed.

Lemma lands_getOrCreateSubscription `{Runtime} chatId w :
  lands quiet (getOrCreateSubscription chatId) w.
Proof.
  unfold getOrCreateSubscription. pose proof lands_insert_subscription. frame.
Qed.

(** The row that [getOrCreateSubscription] returns is the row of the chat. *)
Lemma getOrCreateSubscription_row `{Runtime} chatId w sub w' :
  getOrCreateSubscription chatId w = (Returned (Some sub), w') →
  subscriptions w' !! chatId = Some sub.
Proof.
  unfold getOrCreateSubscription, getSubscription, select_subscriptions_eq_chat_id,
    insert_subscription.
  rewrite !bind_run. munfold.
  destruct (store_up (requests w)); cbn.
  - destruct (subscriptions w !! chatId) as [s|] eqn:Hrow; cbn.
    + intros [= <- <-]. done.
    + destruct (store_up (S (requests w))); cbn; [|done].
      rewrite Hrow. cbn. intros [= <- <-]. cbn. by rewrite lookup_insert_eq.
  - destruct (store_up (S (requests w))); cbn; [|done].
    destruct (subscriptions w !! chatId) as [s|] eqn:Hrow; cbn; [done|].
    intros [= <- <-]. cbn. by rewrite lookup_insert_eq.
Qed.

Lemma lands_downgradeToFree `{Runtime} chatId w :
  (∀ s, subscriptions w !! chatId = Some s → Subscription.plan s ≠ free) →
  lands quiet (downgradeToFree chatId) w.
Proof.
  intros Hpaid. unfold lands, downgradeToFree, update_subscriptions_eq_chat_id.
  rewrite !bind_run. munfold.
  destruct (store_up (requests w)); [|by apply same_store_quiet].
  cbn. split; [done|]. split; cbn.
  - intros c Hc. destruct (decide (chatId = c)) as [<-|Hne].
    + rewrite lookup_alter_eq in Hc. by destruct (subscriptions w !! chatId).
    + by rewrite lookup_alter_ne in Hc.
  - intros c s' Hs. destruct (decide (chatId = c)) as [<-|Hne].
    + rewrite lookup_alter_eq in Hs.
      destruct (subscriptions w !! chatId) as [s|] eqn:Hrow; [|done].
      injection Hs as <-. eapply row_downgraded; eauto.
    + rewrite lookup_alter_ne in Hs by done. by apply row_unchanged.
Qed.

Lemma isSubscriptionExpired_paid `{Runtime} sub w w' :
  isSubscriptionExpired sub w = (Returned true, w') → Subscription.plan sub ≠ free.
Proof.
  unfold isSubscriptionExpired. intros Hrun Hfree. rewrite Hfree in Hrun. done.
Qed.

Lemma lands_canProcess `{Runtime} chatId w : lands quiet (canProcess chatId) w.
Proof.
  unfold canProcess.
  apply lands_bind; [apply _|apply lands_getOrCreateSubscription|].
  intros [sub|] w1 Hsub; [|frame].
  apply getOrCreateSubscription_row in Hsub.
  apply lands_bind; [apply _|frame|]. intros days w2 Hdays.
  apply (same_store_run _ _ _ _ (lands_getDaysUntilExpiry _ _ _)) in Hdays as [_ Hsubs2].
  cbn zeta. destruct (decide (Subscription.plan sub ≠ free)) as [Hpaid|_]; [|frame].
  apply lands_bind; [apply _|frame|]. intros [] w3 Hexp; [|frame].
  apply (same_store_run _ _ _ _ (lands_isSubscriptionExpired _ _ _)) in Hexp as [_ Hsubs3].
  apply lands_bind; [apply _| |intros ? ? _; frame].
  apply lands_downgradeToFree. rewrite Hsubs3, Hsubs2, Hsub. by intros s [= <-].
Qed.

Global Hint Resolve lands_canProcess : frames.

(** *** Appending a row and counting it *)

Lemma incrementUsage_counts `{Runtime} chatId w :
  let w' := (incrementUsage chatId w).2 in
  transactions w' = transactions w
  ∧ (∀ c, subscriptions w' !! c = None → subscriptions w !! c = None)
  ∧ (∀ c s', subscriptions w' !! c = Some s' → row_count chatId c (subscriptions w !! c) s').
Proof.
  assert (∀ w' : World, same_store w w' →
    transactions w' = transactions w
    ∧ (∀ c, subscriptions w' !! c = None → subscriptions w !! c = None)
    ∧ (∀ c s', subscriptions w' !! c = Some s' →
         row_count chatId c (subscriptions w !! c) s')) as Hsame.
  { intros w' [Ht Hs]. rewrite Hs. split; [done|]. split; [done|].
    intros c s' Hrow. left. by apply row_unchanged. }
  cbn zeta.
  unfold incrementUsage, getOrCreateSubscription, getSubscription,
    select_subscriptions_eq_chat_id, insert_subscription, update_subscriptions_eq_chat_id.
  rewrite !bind_run. munfold.
  destruct (store_up (requests w)); cbn.
  - destruct (subscriptions w !! chatId) as [s|] eqn:Hrow; cbn.
    + destruct (decide (Subscription.plan s ≠ free)) as [Hpaid|Hfree]; cbn;
        [|by apply Hsame].
      destruct (store_up (S (requests w))); cbn; [|by apply Hsame].
      split; [done|]. split.
      * intros c Hc. destruct (decide (chatId = c)) as [<-|Hne].
        -- rewrite lookup_alter_eq, Hrow in Hc. done.
        -- by rewrite lookup_alter_ne in Hc.
      * intros c s' Hs. destruct (decide (chatId = c)) as [<-|Hne].
        -- rewrite lookup_alter_eq, Hrow in Hs. injection Hs as <-.
           right. split; [done|]. by exists s.
        -- rewrite lookup_alter_ne in Hs by done. left. by apply row_unchanged.
    + destruct (store_up (S (requests w))); cbn; [|by apply Hsame].
      rewrite Hrow. cbn.
      rewrite (decide_False (P := free ≠ free)) by (intros ?; done). cbn.
      split; [done|]. split.
      * intros c Hc. apply lookup_insert_None in Hc as [Hc _]. done.
      * intros c s' Hs. destruct (decide (chatId = c)) as [<-|Hne].
        -- rewrite lookup_insert_eq in Hs. injection Hs as <-.
           left. rewrite Hrow. by apply row_created.
        -- rewrite lookup_insert_ne in Hs by done. left. by apply row_unchanged.
  - destruct (store_up (S (requests w))); cbn; [|by apply Hsame].
    destruct (subscriptions w !! chatId) as [s|] eqn:Hrow; cbn; [by apply Hsame|].
    rewrite (decide_False (P := free ≠ free)) by (intros ?; done). cbn.
    split; [done|]. split.
    + intros c Hc. apply lookup_insert_None in Hc as [Hc _]. done.
    + intros c s' Hs. destruct (decide (chatId = c)) as [<-|Hne].
      * rewrite lookup_insert_eq in Hs. injection Hs as <-.
        left. rewrite Hrow. by apply row_created.
      * rewrite lookup_insert_ne in Hs by done. left. by apply row_unchanged.
Qed.

Lemma saveTransaction_cases `{Runtime} chatId amount bank client fileId raw w :
  match saveTransaction chatId amount bank client fileId raw w with
  | (Returned _, w') =>
      ∃ row, transactions w' = transactions w ++ [row]
             ∧ Transaction.chat_id row = chatId
             ∧ Transaction.amount row = amount
             ∧ subscriptions w' = subscriptions w
  | (Thrown _, w') => same_store w w'
  end.
Proof.
  unfold saveTransaction, insert_transaction. rewrite !bind_run. munfold.
  destruct (store_up (requests w)); cbn; [|done].
  eexists. split; [reflexivity|]. done.
Qed.

Lemma settled_after_quiet chatId w1 w2 w3 :
  quiet w1 w2 → settled chatId w2 w3 → settled chatId w1 w3.
Proof.
  intros Hq [Hq'|(row & Ht & Hchat & Hkept & Hrows)]; [left; by etrans|right].
  destruct Hq as (Ht1 & Hk1 & Hr1).
  exists row. split; [by rewrite Ht, Ht1|]. split; [done|]. split; [by auto|].
  intros c s' Hs. destruct (Hrows c s' Hs) as [Hchange|(-> & s & Hold & Hpaid & ->)].
  - left. destruct Hchange as [Hsame|Hnone Hfree Hzero|s Hold Hpaid ->].
    + by apply Hr1.
    + apply row_created; auto.
    + destruct (Hr1 c s Hold) as [Hsame|Hnone Hfree Hzero|s0 Hold0 Hpaid0 ->]; try done.
      by eapply row_downgraded.
  - destruct (Hr1 chatId s Hold) as [Hsame|Hnone Hfree Hzero|s0 Hold0 Hpaid0 ->]; try done.
    right. split; [done|]. by exists s.
Qed.

Lemma settled_before_same_store chatId w1 w2 w3 :
  settled chatId w1 w2 → same_store w2 w3 → settled chatId w1 w3.
Proof.
  intros [Hq|(row & Ht & Hchat & Hkept & Hrows)] [Ht' Hs'].
  - left. etrans; [exact Hq|]. by apply same_store_quiet.
  - right. exists row. rewrite Ht', Hs'. done.
Qed.

Lemma lands_settled_of_quiet chatId {A} (m : M A) w :
  lands quiet m w → lands (settled chatId) m w.
Proof. by left. Qed.

Lemma lands_settled_bind chatId {A B} (m : M A) (f : A → M B) w :
  lands quiet m w →
  (∀ a w', m w = (Returned a, w') → lands (settled chatId) (f a) w') →
  lands (settled chatId) (m ≫= f) w.
Proof.
  unfold lands. rewrite bind_run. intros Hm Hf.
  destruct (m w) as [[a|e] w'] eqn:Hrun; [|by left].
  eapply settled_after_quiet; [exact Hm|]. by apply Hf.
Qed.

Lemma lands_settled_try_catch chatId {A} (body : M A) handler w :
  lands (settled chatId) body w →
  (∀ e w', lands same_store (handler e) w') →
  lands (settled chatId) (try_catch body handler) w.
Proof.
  unfold lands, try_catch. intros Hm Hh.
  destruct (body w) as [[a|e] w'] eqn:Hrun; [done|].
  eapply settled_before_same_store; [exact Hm|]. apply Hh.
Qed.

(** The end of the pipeline: append, count, report. *)
Lemma lands_commit `{Runtime} chatId amount bank client fileId raw w :
  lands (settled chatId)
    (saveTransaction chatId amount bank client fileId raw;;
     incrementUsage chatId;;
     message ← getRunningTotalMessage chatId amount bank client;
     reply message) w.
Proof.
  unfold lands. rewrite bind_run.
  pose proof (saveTransaction_cases chatId amount bank client fileId raw w) as Hsave.
  destruct (saveTransaction _ _ _ _ _ _ w) as [[saved|e] w1].
  2:{ left. by apply same_store_quiet. }
  destruct Hsave as (row & Ht1 & Hchat & _ & Hs1).
  rewrite bind_run.
  destruct (incrementUsage_counts chatId w1) as (Ht2 & Hk2 & Hr2).
  destruct (incrementUsage chatId w1) as [[[]|e] w2]; cbn [snd] in Ht2, Hk2, Hr2.
  - apply (settled_before_same_store _ _ w2).
    + right. exists row. rewrite Ht2, Ht1. split; [done|]. split; [done|].
      rewrite <- Hs1. split; [done|]. exact Hr2.
    + assert (lands same_store
                (message ← getRunningTotalMessage chatId amount bank client; reply message)
                w2) as Hrest by frame.
      exact Hrest.
  - cbn [snd]. right. exists row. rewrite Ht2, Ht1. split; [done|]. split; [done|].
    rewrite <- Hs1. split; [done|]. exact Hr2.
Qed.

Lemma lands_extractPixAmount `{Outside} R `{!Frame R} base64 mediaType w :
  lands R (extractPixAmount base64 mediaType) w.
Proof. unfold extractPixAmount. frame. Qed.

Lemma lands_extractFromPdf `{Outside} R `{!Frame R} base64 w :
  lands R (extractFromPdf base64) w.
Proof. unfold extractFromPdf. frame. Qed.

Global Hint Resolve lands_extractPixAmount lands_extractFromPdf : frames.

Ltac settle_step :=
  match goal with
  | |- lands (settled _) (saveTransaction _ _ _ _ _ _ ≫= _) _ => apply lands_commit
  | |- lands (settled _) (_ ≫= _) _ =>
      apply lands_settled_bind; [solve [frame]|intros ? ? _]
  | |- lands (settled _) (try_catch _ _) _ =>
      apply lands_settled_try_catch; [|intros ? ?; solve [frame]]
  | |- lands (settled _) (match ?x with _ => _ end) _ => destruct x
  | |- lands (settled _) (let _ := _ in _) _ => cbn zeta
  | |- lands (settled _) _ _ => apply lands_settled_of_quiet; solve [frame]
  end.

Ltac settle := repeat settle_step.

(** Steps through a pipeline up to the call of the extraction. *)
Ltac frame_before_extraction :=
  repeat lazymatch goal with
         | |- lands _ (extractPixAmount _ _ ≫= _) _ => fail
         | |- lands _ ((if _ then _ else _) ≫= _) _ => fail
         | _ => frame_step
         end.

Section Pipeline.
Context `{Runtime} `{Outside}.

Lemma processImage_settled chatId photos w :
  lands (settled chatId) (processImage chatId photos) w.
Proof. unfold processImage. settle. Qed.

Lemma processDocument_settled chatId fileId mimeType w :
  lands (settled chatId) (processDocument chatId fileId mimeType) w.
Proof. unfold processDocument. settle. Qed.

Lemma processImage_no_amount chatId photos fileId filePath base64 w :
  last photos = Some fileId →
  download fileId = Some (filePath, base64) →
  (∀ w0 result w1,
     extractPixAmount base64 (if endsWith filePath ".png" then image_png else image_jpeg) w0
       = (Returned result, w1) →
     ExtractionResult.amount result = None) →
  lands quiet (processImage chatId photos) w.
Proof.
  intros Hlast Hdl Hnone. unfold processImage. rewrite Hlast.
  frame_before_extraction.
  injection Hdl as -> ->.
  apply lands_bind; [apply _|frame|]. intros result ? Hrun.
  apply Hnone in Hrun. rewrite Hrun. frame.
Qed.

Lemma processDocument_no_amount chatId fileId mimeType filePath base64 w :
  download fileId = Some (filePath, base64) →
  (∀ w0 result w1,
     (if decide (mimeType = application_pdf) then extractFromPdf base64
      else extractPixAmount base64 mimeType) w0 = (Returned result, w1) →
     ExtractionResult.amount result = None) →
  lands quiet (processDocument chatId fileId mimeType) w.
Proof.
  intros Hdl Hnone. unfold processDocument.
  frame_before_extraction.
  injection Hdl as -> ->.
  apply lands_bind; [apply _|frame|]. intros result ? Hrun.
  apply Hnone in Hrun. rewrite Hrun. frame.
Qed.

(** C4. Whatever the store, the download and the vision API do, a run of the
    pipeline on a receipt file ([processImage] for a photo, [processDocument]
    for a document) ends in one of two ways. Either no ledger row is appended
    and no usage counter is incremented (the rows of [subscriptions] are as
    they were, or created with free-tier defaults, or downgraded from a paid
    plan), or exactly one row of the chat is appended and the usage counter
    of the chat's row is as before or, when its plan is not free, one
    higher. So the counter is incremented only in a run that appended, and
    never on a free-tier row. When the extraction of the downloaded file
    yields no amount, the run ends the first way. *)
Theorem pipeline_commits chatId w :
  (∀ photos,
     let w' := (processImage chatId photos w).2 in
     quiet w w' ∨ appended chatId w w')
  ∧ (∀ fileId mimeType,
       let w' := (processDocument chatId fileId mimeType w).2 in
       quiet w w' ∨ appended chatId w w')
  ∧ (∀ photos fileId filePath base64,
       last photos = Some fileId →
       download fileId = Some (filePath, base64) →
       (∀ w0 result w1,
          extractPixAmount base64 (if endsWith filePath ".png" then image_png else image_jpeg)
                           w0 = (Returned result, w1) →
          ExtractionResult.amount result = None) →
       quiet w (processImage chatId photos w).2)
  ∧ (∀ fileId mimeType filePath base64,
       download fileId = Some (filePath, base64) →
       (∀ w0 result w1,
          (if decide (mimeType = application_pdf) then extractFromPdf base64
           else extractPixAmount base64 mimeType) w0 = (Returned result, w1) →
          ExtractionResult.amount result = None) →
       quiet w (processDocument chatId fileId mimeType w).2).
Proof.
  split; [|split; [|split]].
  - intros photos. apply processImage_settled.
  - intros fileId mimeType. apply processDocument_settled.
  - intros photos fileId filePath base64 Hlast Hdl Hnone.
    by eapply processImage_no_amount.
  - intros fileId mimeType filePath base64 Hdl Hnone.
    by eapply processDocument_no_amount.
Qed.

End Pipeline.

(** ** The edit path writes positive amounts only *)

Global Instance writes_positive_frame : Frame writes_positive.
Proof.
  split; [split|].
  - intros w r Hr. by left.
  - intros w1 w2 w3 H12 H23 r Hr.
    destruct (H23 r Hr) as [Hr2|Hpos]; [by apply H12|by right].
  - intros w w' [Ht _] r Hr. left. by rewrite <- Ht.
Qed.

Global Hint Resolve writes_positive_frame : frames.

Lemma lands_updateLastTransactionAmount `{Runtime} chatId newAmount w :
  0 < newAmount →
  lands writes_positive (updateLastTransactionAmount chatId newAmount) w.
Proof.
  intros Hpos. unfold updateLastTransactionAmount.
  apply lands_bind; [apply _|frame|]. intros todayISO w1 _.
  apply lands_bind; [apply _|frame|]. intros r w2 _.
  destruct (data (single (limit 1 r))) as [lastTx|]; [|frame].
  apply lands_bind; [apply _| |intros ? ? _; frame].
  unfold lands, update_transactions. rewrite !bind_run. munfold.
  destruct (store_up (requests w2)); cbn; [|by intros r0 Hr0; left].
  intros r0 Hr0. apply list_elem_of_fmap in Hr0 as (r1 & -> & Hr1).
  case_decide; [by right|by left].
Qed.

(** The /editar handler refuses [newAmount <= 0] before it writes: for the
    amounts of this development, whole hundredths, it leaves no new amount
    in the ledger that is not positive. (A text such as 0.001, positive but
    stored as 0.00 in a column of scale 2, has no value here.) *)
Lemma editar_writes_positive `{Runtime} `{Outside} chatId text w :
  lands writes_positive (editar chatId text) w.
Proof.
  unfold editar. cbn zeta.
  destruct (decide (afterFirstSpace text = EmptyString)); [frame|].
  destruct (parseFloat _) as [newAmount|]; [|frame].
  case_bool_decide as Hle; [frame|].
  apply lands_bind; [apply _| |intros ? ? _; frame].
  apply lands_updateLastTransactionAmount. lia.
Qed.

(** ** The order of the duplicate check and the gate *)

(** C5, on the code: the pipeline runs the gate first and looks for a
    duplicate afterwards. A file that chat 7 has sent before is answered as a
    duplicate only after the gate has downgraded the chat's expired basico
    subscription, and is answered with the daily limit, not as a duplicate,
    when the chat has used up its five receipts of the day. *)
Theorem processImage_gate_precedes_duplicate_check :
  let sent_before w := (@isDuplicate Demo.runtime 7 "AgAD-2" w).1 in
  let run w := (@processImage Demo.runtime (Demo.outside (Some 100)) 7 ["AgAD-2"] w).2 in
  sent_before Demo.expired = Returned true
  ∧ Subscription.plan <$> subscriptions Demo.expired !! 7 = Some basico
  ∧ Subscription.plan <$> subscriptions (run Demo.expired) !! 7 = Some free
  ∧ outbox (run Demo.expired) = [AlreadyRegistered]
  ∧ sent_before Demo.full = Returned true
  ∧ outbox (run Demo.full)
    = [LimitReached (Some "Limite diário atingido (5/5)") "Grátis" false].
Proof. vm_compute. done. Qed.

(** ** Amounts that reach the ledger *)

(** C8, on the code: the pipeline stores whatever amount the extraction
    yields, as long as it is not null. A vision answer with amount 0, or
    with a negative amount, becomes a ledger row. *)
Theorem processImage_stores_nonpositive_amount :
  let run amount :=
    (@processImage Demo.runtime (Demo.outside (Some amount)) 7 ["AgAD-9"] Demo.mixed).2 in
  (∃ row, transactions (run 0) = transactions Demo.mixed ++ [row]
          ∧ Transaction.amount row = 0)
  ∧ (∃ row, transactions (run (-15000)) = transactions Demo.mixed ++ [row]
            ∧ Transaction.amount row = -15000).
Proof. split; eexists; vm_compute; done. Qed.

(** ** The webhook signature *)

Section Signature.
Context (hmacSha256Hex : string → string → string).

Lemma validateWebhookSignature_no_secret xSignature xRequestId dataId :
  validateWebhookSignature None hmacSha256Hex xSignature xRequestId dataId = Returned true
  ∧ validateWebhookSignature (Some EmptyString) hmacSha256Hex xSignature xRequestId dataId
    = Returned true.
Proof. done. Qed.

Lemma validateWebhookSignature_missing_header c secret xSignature xRequestId dataId :
  xSignature = None ∨ xRequestId = None →
  validateWebhookSignature (Some (String c secret)) hmacSha256Hex xSignature xRequestId dataId
  = Returned false.
Proof.
  intros [-> | ->]; cbn; [done|]. by destruct xSignature as [[]|].
Qed.

Lemma timingSafeEqual_same_length a b :
  String.length a = String.length b → timingSafeEqual a b = Returned (bool_decide (a = b)).
Proof. intros Hlen. unfold timingSafeEqual. by rewrite decide_True. Qed.

Lemma timingSafeEqual_other_length a b :
  String.length a ≠ String.length b → timingSafeEqual a b = Thrown RangeError.
Proof. intros Hlen. unfold timingSafeEqual. by rewrite decide_False. Qed.

(** C9, on the code: with a secret configured, a well-formed header whose
    [v1] is shorter than the 64 hexadecimal digits of the digest makes
    [validateWebhookSignature] throw instead of returning [false]. *)
Theorem validateWebhookSignature_throws :
  String.length (hmacSha256Hex "s3cr3t" "id:123;request-id:req-1;ts:1700000000;") = 64%nat →
  validateWebhookSignature (Some "s3cr3t") hmacSha256Hex
    (Some "ts=1700000000,v1=abc") (Some "req-1") "123"
  = Thrown RangeError.
Proof.
  intros Hlen. unfold validateWebhookSignature.
  replace (parseSignature "ts=1700000000,v1=abc" !! "ts") with (Some "1700000000")
    by (vm_compute; reflexivity).
  replace (parseSignature "ts=1700000000,v1=abc" !! "v1") with (Some "abc")
    by (vm_compute; reflexivity).
  apply timingSafeEqual_other_length.
  change (hmacSha256Hex "s3cr3t" _)
    with (hmacSha256Hex "s3cr3t" "id:123;request-id:req-1;ts:1700000000;").
  rewrite Hlen. done.
Qed.

End Signature.

Lemma validateWebhookSignature_throws_witness :
  validateWebhookSignature (Some "s3cr3t") Demo.digest
    (Some "ts=1700000000,v1=abc") (Some "req-1") "123"
  = Thrown RangeError.
Proof. apply validateWebhookSignature_throws. reflexivity. Defined.

(** ** The theorems at work on the demo deployment *)

Lemma demo_store_answers : ∀ n, @store_up Demo.runtime n = true.
Proof. done. Defined.

Lemma demo_ledger_unique_ids : unique_ids Demo.ledger.
Proof. unfold unique_ids. apply (bool_decide_unpack _). vm_compute. exact I. Defined.

Lemma canProcess_free_tier_witness :
  ∃ r w',
    @canProcess Demo.runtime 7 Demo.mixed = (Returned r, w')
    ∧ CanProcessResult.plan r = free
    ∧ CanProcessResult.allowed r = bool_decide (CanProcessResult.used r < 5).
Proof.
  destruct (@canProcess_free_tier Demo.runtime demo_store_answers 7 Demo.mixed)
    as (r & w' & n & Hrun & _ & Hplan & Hused & Hallowed).
  { intros sub Hsub. vm_compute in Hsub. by injection Hsub as <-. }
  exists r, w'. by rewrite Hused, Hallowed.
Defined.

Lemma canProcess_expired_witness :
  ∃ r w',
    @canProcess Demo.runtime 7 Demo.expired = (Returned r, w')
    ∧ Subscription.plan <$> subscriptions w' !! 7 = Some free
    ∧ CanProcessResult.expired r = Some true
    ∧ CanProcessResult.allowed r = true.
Proof.
  destruct (@canProcess_expired Demo.runtime demo_store_answers 7 Demo.expired
              (Subscription.mk 1 basico 12 (Demo.t0 - 70 * 24 * Demo.hour)
                 (Some (Demo.t0 - 40 * 24 * Demo.hour)) (Demo.t0 - 400 * 24 * Demo.hour))
              (Demo.t0 - 40 * 24 * Demo.hour))
    as (r & w' & r2 & w'' & Hrun & Hrow & _ & Hexpired & Hallowed & _).
  - vm_compute. reflexivity.
  - done.
  - reflexivity.
  - vm_compute. reflexivity.
  - exists r, w'. rewrite Hrow, Hallowed. split; [done|]. split; [done|]. split; [done|].
    vm_compute. reflexivity.
Defined.

Lemma canProcess_grace_witness :
  ∃ r w',
    @canProcess Demo.runtime 7 Demo.grace = (Returned r, w')
    ∧ CanProcessResult.inGracePeriod r = Some true
    ∧ CanProcessResult.daysUntilExpiry r = Some (Some (-1))
    ∧ CanProcessResult.allowed r = true.
Proof.
  destruct (@canProcess_grace Demo.runtime demo_store_answers 7 Demo.grace
              (Subscription.mk 1 pro 12 (Demo.t0 - 31 * 24 * Demo.hour)
                 (Some (Demo.t0 - 24 * Demo.hour)) (Demo.t0 - 400 * 24 * Demo.hour))
              (Demo.t0 - 24 * Demo.hour))
    as (r & w' & d & Hrun & Hgrace & Hdays & Hceil & _ & Hallowed).
  - vm_compute. reflexivity.
  - done.
  - reflexivity.
  - vm_compute. discriminate.
  - vm_compute. split; [reflexivity|discriminate].
  - exists r, w'. split; [done|]. split; [done|]. split; [|by rewrite Hallowed].
    rewrite Hdays. do 2 f_equal.
    unfold MS_PER_DAY, Demo.t0, Demo.hour in Hceil. cbn [clock Demo.runtime ticks Demo.grace
      Demo.world] in Hceil. unfold Demo.t0 in Hceil. lia.
Defined.

Lemma deleteTransactionByIndex_position_witness :
  ∃ w',
    @deleteTransactionByIndex Demo.runtime 7 (Some 2) Demo.mixed
    = (Returned (Some (Demo.receipt 4 7 120000 "AgAD-4" (Demo.t0 - 1 * Demo.hour))), w').
Proof.
  destruct (@deleteTransactionByIndex_position Demo.runtime demo_store_answers 7 (Some 2)
              Demo.mixed demo_ledger_unique_ids)
    as (deleted & w' & Hrun & Hin & _).
  destruct Hin as (target & l1 & l2 & Hlook & -> & _).
  { vm_compute. split; discriminate. }
  vm_compute in Hlook. injection Hlook as <-.
  exists w'. exact Hrun.
Defined.

Lemma updateLastTransactionAmount_last_witness :
  ∃ new w',
    @updateLastTransactionAmount Demo.runtime 7 9900 Demo.mixed = (Returned (Some new), w')
    ∧ Transaction.amount new = 9900.
Proof.
  destruct (@updateLastTransactionAmount_last Demo.runtime demo_store_answers 7 9900
              Demo.mixed demo_ledger_unique_ids)
    as (updated & w' & Hrun & _ & _ & Hsome).
  destruct Hsome as (last & new & l1 & l2 & _ & _ & -> & _ & _ & Hamount & _).
  { vm_compute. discriminate. }
  by exists new, w'.
Defined.

Lemma resetMonthlyUsage_paid_rows_witness :
  ∃ w', @resetMonthlyUsage Demo.runtime Demo.mixed = (Returned 1, w').
Proof.
  destruct (@resetMonthlyUsage_paid_rows Demo.runtime demo_store_answers Demo.mixed)
    as (n & w' & Hrun & -> & _).
  exists w'. exact Hrun.
Defined.

Lemma pipeline_commits_witness :
  quiet Demo.mixed (@processImage Demo.runtime (Demo.outside None) 7 ["AgAD-9"] Demo.mixed).2.
Proof.
  destruct (@pipeline_commits Demo.runtime (Demo.outside None) 7 Demo.mixed)
    as (_ & _ & Hnone & _).
  apply (Hnone ["AgAD-9"] "AgAD-9" "photos/file_1.jpg" "/9j/4AAQSkZJRg==").
  - reflexivity.
  - reflexivity.
  - intros w0 result w1 Hrun. vm_compute in Hrun. by injection Hrun as <- _.
Defined.


(** ** The claims when a request is not answered *)

(** C1, on the code: [downgradeToFree] does not read the outcome of its
    update. On a store that answers every request but the second, the gate
    tells chat 7, whose basico period ended 40 days ago, that its plan is
    free and expired, while the stored row is as before, basico; the call
    right after finds it expired again. *)
Theorem canProcess_expired_row_stays_paid :
  let gate w := @canProcess (Faulty.runtime 1) 7 w in
  let after := (gate Demo.expired).2 in
  (∃ r, (gate Demo.expired).1 = Returned r
        ∧ CanProcessResult.plan r = free
        ∧ CanProcessResult.expired r = Some true)
  ∧ subscriptions after !! 7 = subscriptions Demo.expired !! 7
  ∧ Subscription.plan <$> subscriptions after !! 7 = Some basico
  ∧ (∃ r2, (gate after).1 = Returned r2
           ∧ CanProcessResult.plan r2 = free
           ∧ CanProcessResult.expired r2 = Some true).
Proof.
  cbn zeta. split_and!.
  - eexists. vm_compute. done.
  - vm_compute. reflexivity.
  - vm_compute. reflexivity.
  - eexists. vm_compute. done.
Qed.

(** C3, on the code: [getTodayTransactionCount] takes a count that is not
    answered for 0. On a store that answers every request but the second,
    the gate allows free chat 7, with [used = 0], although five of its
    ledger entries are of today. *)
Theorem canProcess_free_tier_count_unread :
  let gate := @canProcess (Faulty.runtime 1) 7 Demo.full in
  (∀ n, (n ≤ 3)%nat →
        @todayCount (Faulty.runtime 1) 7 (@clock (Faulty.runtime 1) n) Demo.full = 5)
  ∧ Subscription.plan <$> subscriptions Demo.full !! 7 = Some free
  ∧ (∃ r, gate.1 = Returned r
          ∧ CanProcessResult.plan r = free
          ∧ CanProcessResult.allowed r = true
          ∧ CanProcessResult.used r = 0)
  ∧ ticks gate.2 = 1%nat.
Proof.
  cbn zeta. split_and!.
  - intros [|[|[|[|n]]]] Hn; [vm_compute; reflexivity..|lia].
  - vm_compute. reflexivity.
  - eexists. vm_compute. done.
  - vm_compute. reflexivity.
Qed.

(** C6, on the code: [deleteTransactionByIndex] reads the outcome of neither
    of its requests. Chat 7 has two rows of today. When the delete is not
    answered, position 2 is returned as deleted and the table is as before;
    when the list is not answered, position 2 yields nothing, as if out of
    range. *)
Theorem deleteTransactionByIndex_requests_unread :
  let second := Demo.receipt 4 7 120000 "AgAD-4" (Demo.t0 - 1 * Demo.hour) in
  let unanswered n := @deleteTransactionByIndex (Faulty.runtime n) 7 (Some 2) Demo.mixed in
  @listToday Demo.runtime 7 (@clock Demo.runtime 0) (transactions Demo.mixed)
  = [Demo.receipt 2 7 2590 "AgAD-2" (Demo.t0 - 2 * Demo.hour); second]
  ∧ (unanswered 1%nat).1 = Returned (Some second)
  ∧ transactions (unanswered 1%nat).2 = transactions Demo.mixed
  ∧ (unanswered 0%nat).1 = Returned None
  ∧ transactions (unanswered 0%nat).2 = transactions Demo.mixed.
Proof. cbn zeta. split_and!; vm_compute; reflexivity. Qed.

(** C7, on the code: [updateLastTransactionAmount] does not read the error
    of its query for the last row. Chat 7 has two rows of today; when that
    query is not answered the call returns nothing, as if the chat had no
    row of today, and no amount is overwritten. *)
Theorem updateLastTransactionAmount_query_unread :
  let run := @updateLastTransactionAmount (Faulty.runtime 0) 7 9900 Demo.mixed in
  filter (ofToday 7 (@startOfDay (Faulty.runtime 0) (@clock (Faulty.runtime 0) 0)))
         (transactions Demo.mixed)
  = [Demo.receipt 2 7 2590 "AgAD-2" (Demo.t0 - 2 * Demo.hour);
     Demo.receipt 4 7 120000 "AgAD-4" (Demo.t0 - 1 * Demo.hour)]
  ∧ run.1 = Returned None
  ∧ transactions run.2 = transactions Demo.mixed.
Proof. cbn zeta. split_and!; vm_compute; reflexivity. Qed.

(** * Further properties of the code *)

(** ** The ledger queries *)

Lemma StronglySorted_weaken {A} (R R' : A → A → Prop) (l : list A) :
  (∀ x y, R x y → R' x y) → StronglySorted R l → StronglySorted R' l.
Proof.
  intros Himpl. induction 1 as [|x l Hl IH Hx]; constructor; [done|].
  eapply Forall_impl; [exact Hx|]. auto.
Qed.

Lemma foldl_amount_Permutation (l l' : list Transaction.t) :
  l ≡ₚ l' → ∀ a, foldl (λ sum t, sum + Transaction.amount t) a l
             = foldl (λ sum t, sum + Transaction.amount t) a l'.
Proof.
  induction 1 as [|x l l' _ IH|x y l|l1 l2 l3 _ IH1 _ IH2]; intros a; cbn.
  - done.
  - apply IH.
  - f_equal. lia.
  - by rewrite IH1.
Qed.

Lemma isDuplicate_eqn `{Runtime} chatId fileId w :
  isDuplicate chatId fileId w =
    (Returned
       (if store_up (requests w)
        then bool_decide (Exists (λ r, Transaction.chat_id r = chatId
                                       ∧ Transaction.telegram_file_id r = fileId)
                                 (transactions w))
        else false),
     ask w).
Proof.
  unfold isDuplicate, select_transactions. rewrite !bind_run.
  unfold request. rewrite bind_run. unfold get_world.
  destruct (store_up (requests w)); [|done].
  cbn [limit data answered fmap option_fmap option_map transactions ask].
  unfold mret, M_ret. f_equal. f_equal. apply bool_decide_ext.
  destruct (filter _ (transactions w)) as [|x rest] eqn:Hrows.
  - split; [cbn; lia|]. intros Hex. apply Exists_exists in Hex as (r & Hr & HP).
    assert (r ∈ filter (λ t, Transaction.chat_id t = chatId
                            ∧ Transaction.telegram_file_id t = fileId) (transactions w))
      as Hin by (by apply list_elem_of_filter).
    rewrite Hrows in Hin. by apply elem_of_nil in Hin.
  - split; [|cbn; lia]. intros _.
    assert (x ∈ filter (λ t, Transaction.chat_id t = chatId
                            ∧ Transaction.telegram_file_id t = fileId) (transactions w))
      as Hin by (rewrite Hrows; left).
    apply list_elem_of_filter in Hin as [HP Hin].
    apply Exists_exists. by exists x.
Qed.

(** X1. [isDuplicate] answers true exactly when the ledger holds a row with
    that chat and that file id, whatever its day. When the query is not
    answered it answers false all the same: it never throws. *)
Theorem isDuplicate_exists `{Runtime} chatId fileId w :
  ∃ dup,
    isDuplicate chatId fileId w = (Returned dup, ask w)
    ∧ (store_up (requests w) = true →
       (dup = true ↔ ∃ r, r ∈ transactions w
                          ∧ Transaction.chat_id r = chatId
                          ∧ Transaction.telegram_file_id r = fileId))
    ∧ (store_up (requests w) = false → dup = false).
Proof.
  rewrite isDuplicate_eqn. eexists. split; [reflexivity|].
  destruct (store_up (requests w)); split; try done.
  intros _. rewrite bool_decide_eq_true, Exists_exists. naive_solver.
Qed.

Section Queries.
Context `{Runtime}.
Hypothesis store_answers : ∀ n, store_up n = true.

(** X2. [getTodayTransactions] returns the rows of the chat created since
    the start of today, each once, oldest first, and leaves the tables as
    they are. *)
Theorem getTodayTransactions_ordered chatId w :
  ∃ rows w',
    getTodayTransactions chatId w = (Returned rows, w')
    ∧ same_store w w'
    ∧ StronglySorted (λ x y, Transaction.created_at x ≤ Transaction.created_at y) rows
    ∧ rows ≡ₚ filter (λ r, Transaction.chat_id r = chatId
                           ∧ startOfDay (clock (ticks w)) ≤ Transaction.created_at r)
                     (transactions w).
Proof.
  rewrite (getTodayTransactions_run store_answers).
  eexists _, _. split; [reflexivity|]. split; [done|]. split.
  - eapply StronglySorted_weaken; [|apply order_by_sorted].
    intros x y Hxy. unfold in_order, before in Hxy. by apply Z.leb_le in Hxy.
  - apply order_by_Permutation.
Qed.

(** X3. The total and the count of [getTodayStats] are the sum of the
    amounts and the number of the rows that [getTodayTransactions] lists,
    and [getTodayTransactionCount] counts the same rows; with no row today
    they are 0. *)
Theorem getTodayStats_agrees chatId w :
  ∃ rows w1 w2 w3,
    getTodayTransactions chatId w = (Returned rows, w1)
    ∧ getTodayStats chatId w = (Returned (totalAmount rows, Z.of_nat (length rows)), w2)
    ∧ getTodayTransactionCount chatId w = (Returned (Z.of_nat (length rows)), w3)
    ∧ (rows = [] → getTodayStats chatId w = (Returned (0, 0), w2)).
Proof.
  rewrite (getTodayTransactions_run store_answers),
    (getTodayTransactionCount_run store_answers).
  assert (getTodayStats chatId w =
            (Returned (totalAmount (listToday chatId (clock (ticks w)) (transactions w)),
                       Z.of_nat (length (listToday chatId (clock (ticks w)) (transactions w)))),
             ask (tick w))) as Hstats.
  { unfold getTodayStats.
    rewrite bind_run, getStartOfTodayISO_run, bind_run,
      (select_transactions_run store_answers).
    cbn [error data answered]. unfold mret, M_ret.
    change (transactions (tick w)) with (transactions w).
    unfold totalAmount, listToday.
    rewrite order_by_length.
    by rewrite (foldl_amount_Permutation _ _ (order_by_Permutation _ _ _)). }
  eexists _, _, _, _. split; [reflexivity|]. split; [exact Hstats|]. split.
  - unfold todayCount, listToday. by rewrite order_by_length.
  - intros Hnil. rewrite Hstats, Hnil. reflexivity.
Qed.

(** X4. [clearTodayTransactions] returns the number of rows of the chat
    created since the start of today and removes exactly those rows. Called
    again, on a day that is not an earlier one, it returns 0 and removes
    nothing. *)
Theorem clearTodayTransactions_twice chatId w :
  let today := startOfDay (clock (ticks w)) in
  ∃ w' w'',
    clearTodayTransactions chatId w
      = (Returned (Z.of_nat (length (filter (ofToday chatId today) (transactions w)))), w')
    ∧ transactions w' = filter (λ r, ¬ ofToday chatId today r) (transactions w)
    ∧ subscriptions w' = subscriptions w
    ∧ (today ≤ startOfDay (clock (S (ticks w))) →
         clearTodayTransactions chatId w' = (Returned 0, w'')
         ∧ transactions w'' = transactions w').
Proof.
  cbn zeta.
  assert (∀ w0, clearTodayTransactions chatId w0 =
    (Returned (Z.of_nat (length (filter (ofToday chatId (startOfDay (clock (ticks w0))))
                                        (transactions w0)))),
     set_transactions (filter (λ r, ¬ ofToday chatId (startOfDay (clock (ticks w0))) r))
                      (ask (tick w0)))) as Hrun.
  { intros w0. unfold clearTodayTransactions.
    by rewrite bind_run, getStartOfTodayISO_run, bind_run,
      (delete_transactions_run store_answers). }
  eexists _, _. split; [apply Hrun|]. split; [done|]. split; [done|].
  intros Hday. rewrite Hrun. cbn [ticks transactions set_transactions ask tick].
  set (today := startOfDay (clock (ticks w))) in *.
  set (later := startOfDay (clock (S (ticks w)))) in *.
  assert (filter (ofToday chatId later)
                 (filter (λ r, ¬ ofToday chatId today r) (transactions w)) = []) as Hnone.
  { apply filter_none. intros r Hr [Hchat Hlate].
    apply list_elem_of_filter in Hr as [Hnot _]. apply Hnot. split; [done|]. lia. }
  rewrite Hnone. split; [reflexivity|].
  apply filter_all. intros r Hr [Hchat Hlate].
  apply list_elem_of_filter in Hr as [Hnot _]. apply Hnot. split; [done|]. lia.
Qed.

End Queries.

(** ** One request to the store, answered or not *)

Section Requests.
Context `{Runtime}.

Lemma select_transactions_eqn (P : Transaction.t → Prop) `{∀ r, Decision (P r)} ascending w :
  select_transactions P ascending w =
    (Returned (if store_up (requests w)
               then answered (match ascending with
                              | Some asc => order_by Transaction.created_at asc
                                                     (filter P (transactions w))
                              | None => filter P (transactions w)
                              end)
               else failed StoreUnavailable),
     ask w).
Proof.
  unfold select_transactions, request. rewrite !bind_run.
  by destruct (store_up (requests w)).
Qed.

Lemma count_transactions_eqn (P : Transaction.t → Prop) `{∀ r, Decision (P r)} w :
  count_transactions P w =
    (Returned (if store_up (requests w)
               then mkResponse None None
                      (Some (Z.of_nat (length (filter P (transactions w)))))
               else failed StoreUnavailable),
     ask w).
Proof.
  unfold count_transactions, request. rewrite !bind_run.
  by destruct (store_up (requests w)).
Qed.

Lemma delete_transactions_eqn (P : Transaction.t → Prop) `{∀ r, Decision (P r)} w :
  delete_transactions P w =
    if store_up (requests w)
    then (Returned (answered (filter P (transactions w))),
          set_transactions (filter (λ r, ¬ P r)) (ask w))
    else (Returned (failed StoreUnavailable), ask w).
Proof.
  unfold delete_transactions, request. rewrite !bind_run.
  by destruct (store_up (requests w)).
Qed.

Lemma update_transactions_eqn (P : Transaction.t → Prop) `{∀ r, Decision (P r)} f w :
  update_transactions P f w =
    if store_up (requests w)
    then (Returned (answered (f <$> filter P (transactions w))),
          set_transactions (fmap (λ r, if decide (P r) then f r else r)) (ask w))
    else (Returned (failed StoreUnavailable), ask w).
Proof.
  unfold update_transactions, request. rewrite !bind_run.
  by destruct (store_up (requests w)).
Qed.

Lemma insert_transaction_eqn chatId amount bank client fileId raw w :
  insert_transaction chatId amount bank client fileId raw w =
    if store_up (requests w)
    then
      let row := Transaction.mk (transactions_id_seq w) chatId amount bank client fileId raw
                                (clock (ticks w)) in
      (Returned (answered [row]),
       mkWorld (transactions w ++ [row]) (subscriptions w) (transactions_id_seq w + 1)
               (subscriptions_id_seq w) (S (ticks w)) (S (requests w)) (outbox w))
    else (Returned (failed StoreUnavailable), ask w).
Proof.
  unfold insert_transaction, request. rewrite !bind_run.
  by destruct (store_up (requests w)).
Qed.

Lemma select_subscriptions_eq_chat_id_eqn chatId w :
  select_subscriptions_eq_chat_id chatId w =
    (Returned (if store_up (requests w)
               then answered (option_list (subscriptions w !! chatId))
               else failed StoreUnavailable),
     ask w).
Proof.
  unfold select_subscriptions_eq_chat_id, request. rewrite !bind_run.
  by destruct (store_up (requests w)).
Qed.

Lemma getSubscription_eqn chatId w :
  getSubscription chatId w =
    (Returned (if store_up (requests w) then subscriptions w !! chatId else None), ask w).
Proof.
  unfold getSubscription. rewrite bind_run, select_subscriptions_eq_chat_id_eqn.
  destruct (store_up (requests w)); [|done].
  by destruct (subscriptions w !! chatId).
Qed.

Lemma insert_subscription_eqn chatId plan w :
  insert_subscription chatId plan w =
    if store_up (requests w)
    then match subscriptions w !! chatId with
         | Some _ => (Returned (failed UniqueViolation), ask w)
         | None =>
             let row := Subscription.fresh (subscriptions_id_seq w) plan (clock (ticks w)) in
             (Returned (answered [row]),
              mkWorld (transactions w) (<[chatId := row]> (subscriptions w))
                      (transactions_id_seq w) (subscriptions_id_seq w + 1)
                      (S (ticks w)) (S (requests w)) (outbox w))
         end
    else (Returned (failed StoreUnavailable), ask w).
Proof.
  unfold insert_subscription, request. rewrite !bind_run.
  destruct (store_up (requests w)); [|done].
  unfold get_world. cbn [subscriptions ask].
  by destruct (subscriptions w !! chatId).
Qed.

Lemma update_subscriptions_eq_chat_id_eqn chatId f w :
  update_subscriptions_eq_chat_id chatId f w =
    if store_up (requests w)
    then (Returned (answered (f <$> option_list (subscriptions w !! chatId))),
          set_subscriptions (alter f chatId) (ask w))
    else (Returned (failed StoreUnavailable), ask w).
Proof.
  unfold update_subscriptions_eq_chat_id, request. rewrite !bind_run.
  by destruct (store_up (requests w)).
Qed.

(** X5. [deleteTransactionByIndex] never looks at the outcome of its delete
    request: when the list of today is read but the delete is not answered,
    it still returns the row at the position asked for, as if deleted, and
    the row stays in the table. *)
Theorem deleteTransactionByIndex_unanswered_delete chatId k target w :
  store_up (requests w) = true →
  store_up (S (requests w)) = false →
  1 ≤ k →
  listToday chatId (clock (ticks w)) (transactions w) !! Z.to_nat (k - 1) = Some target →
  ∃ w',
    deleteTransactionByIndex chatId (Some k) w = (Returned (Some target), w')
    ∧ transactions w' = transactions w.
Proof.
  intros Hselect Hdelete Hk Hlook. unfold deleteTransactionByIndex.
  rewrite bind_run, getStartOfTodayISO_run, bind_run, select_transactions_eqn.
  cbn [requests tick]. rewrite Hselect. cbn [data answered].
  change (transactions (tick w)) with (transactions w).
  fold (listToday chatId (clock (ticks w)) (transactions w)).
  pose proof (lookup_lt_Some _ _ _ Hlook) as Hlt.
  destruct (listToday chatId (clock (ticks w)) (transactions w)) as [|row rest] eqn:Htoday;
    [cbn in Hlt; lia|].
  rewrite <- Htoday in *. clear Htoday.
  rewrite bool_decide_eq_false_2 by lia.
  rewrite Hlook, bind_run, delete_transactions_eqn.
  cbn [requests ask tick]. rewrite Hdelete.
  eexists. split; reflexivity.
Qed.

End Requests.

(** ** More of the usage gate *)

Section MoreGate.
Context `{Runtime}.

Lemma getOrCreateSubscription_read_answered chatId sub w :
  store_up (requests w) = true →
  subscriptions w !! chatId = Some sub →
  getOrCreateSubscription chatId w = (Returned (Some sub), ask w).
Proof.
  intros Hup Hsub. unfold getOrCreateSubscription.
  by rewrite bind_run, getSubscription_eqn, Hup, Hsub.
Qed.

Lemma getTodayTransactionCount_eqn chatId w :
  getTodayTransactionCount chatId w =
    (Returned (if store_up (requests w)
               then todayCount chatId (clock (ticks w)) w
               else 0),
     ask (tick w)).
Proof.
  unfold getTodayTransactionCount.
  rewrite bind_run, getStartOfTodayISO_run, bind_run, count_transactions_eqn.
  cbn [requests tick]. by destruct (store_up (requests w)).
Qed.

Lemma canProcess_free_eqn chatId sub w :
  store_up (requests w) = true →
  subscriptions w !! chatId = Some sub →
  Subscription.plan sub = free →
  canProcess chatId w =
    (Returned (freeDecision (if store_up (S (requests w))
                             then todayCount chatId (clock (ticks w)) w
                             else 0)),
     ask (tick (ask w))).
Proof.
  intros Hup Hsub Hfree. unfold canProcess.
  rewrite bind_run, (getOrCreateSubscription_read_answered _ _ _ Hup Hsub).
  unfold getDaysUntilExpiry. rewrite Hfree. rewrite bind_run. cbn.
  rewrite (decide_False (P := free ≠ free)) by (intros ?; done).
  rewrite (decide_False (P := free = ultra)) by done.
  rewrite (decide_True (P := free = free)) by done.
  rewrite bind_run, getTodayTransactionCount_eqn.
  cbn [requests ask ticks]. unfold freeDecision, limit_of, todayCount.
  cbn [transactions ask tick limit_ PLANS default from_option].
  destruct (store_up (S (requests w))); by case_bool_decide.
Qed.

(** X6. The free-tier rule fails open: when the row of a free chat is read
    but the count of today's ledger entries is not answered, [canProcess]
    allows with [used = 0], however many entries the chat has today. *)
Theorem canProcess_free_count_unanswered chatId sub w :
  store_up (requests w) = true →
  store_up (S (requests w)) = false →
  subscriptions w !! chatId = Some sub →
  Subscription.plan sub = free →
  ∃ r w',
    canProcess chatId w = (Returned r, w')
    ∧ CanProcessResult.allowed r = true
    ∧ CanProcessResult.used r = 0
    ∧ same_store w w'.
Proof.
  intros Hup Hdown Hsub Hfree.
  rewrite (canProcess_free_eqn _ _ _ Hup Hsub Hfree), Hdown.
  eexists _, _. split; [reflexivity|]. done.
Qed.

Lemma getDaysUntilExpiry_eqn sub w :
  getDaysUntilExpiry sub w =
    match Subscription.period_end sub with
    | Some periodEnd =>
        if decide (Subscription.plan sub = free) then (Returned None, w)
        else (Returned (Some (ceilDiv (periodEnd - clock (ticks w)) MS_PER_DAY)), tick w)
    | None => (Returned None, w)
    end.
Proof.
  unfold getDaysUntilExpiry.
  by destruct (Subscription.plan sub), (Subscription.period_end sub).
Qed.

Lemma isSubscriptionExpired_eqn sub w :
  isSubscriptionExpired sub w =
    match Subscription.period_end sub with
    | Some periodEnd =>
        if decide (Subscription.plan sub = free) then (Returned false, w)
        else (Returned (bool_decide (addDays periodEnd 3 < clock (ticks w))), tick w)
    | None => (Returned false, w)
    end.
Proof.
  unfold isSubscriptionExpired.
  by destruct (Subscription.plan sub), (Subscription.period_end sub).
Qed.

Lemma isInGracePeriod_eqn sub w :
  isInGracePeriod sub w =
    match Subscription.period_end sub with
    | Some periodEnd =>
        if decide (Subscription.plan sub = free) then (Returned false, w)
        else (Returned (bool_decide (periodEnd < clock (ticks w)
                                     ∧ clock (ticks w) ≤ addDays periodEnd 3)), tick w)
    | None => (Returned false, w)
    end.
Proof.
  unfold isInGracePeriod.
  by destruct (Subscription.plan sub), (Subscription.period_end sub).
Qed.

Lemma canProcess_paid_eqn chatId sub periodEnd w :
  store_up (requests w) = true →
  subscriptions w !! chatId = Some sub →
  Subscription.plan sub ≠ free →
  Subscription.period_end sub = Some periodEnd →
  clock (S (ticks w)) ≤ addDays periodEnd 3 →
  ¬ (periodEnd < clock (S (S (ticks w))) ≤ addDays periodEnd 3) →
  canProcess chatId w =
    (Returned (paidDecision sub (Some (ceilDiv (periodEnd - clock (ticks w)) MS_PER_DAY))),
     tick (tick (tick (ask w)))).
Proof.
  intros Hup Hsub Hplan Hend Hnot Hout. unfold canProcess.
  rewrite bind_run, (getOrCreateSubscription_read_answered _ _ _ Hup Hsub).
  rewrite bind_run, getDaysUntilExpiry_eqn, Hend, decide_False by done.
  rewrite (decide_True (P := Subscription.plan sub ≠ free)) by done.
  rewrite bind_run, isSubscriptionExpired_eqn, Hend, decide_False by done.
  cbn [ticks tick ask]. rewrite bool_decide_eq_false_2 by lia.
  rewrite bind_run, isInGracePeriod_eqn, Hend, decide_False by done.
  cbn [ticks tick ask]. rewrite bool_decide_eq_false_2 by done.
  destruct (decide (Subscription.plan sub = ultra)); unfold paidDecision; cbn zeta.
  - by rewrite decide_True.
  - rewrite (decide_False (P := Subscription.plan sub = free)) by done.
    rewrite (decide_False (P := Subscription.plan sub = ultra)) by done.
    by case_bool_decide.
Qed.

Lemma canProcess_paid_no_end_eqn chatId sub w :
  store_up (requests w) = true →
  subscriptions w !! chatId = Some sub →
  Subscription.plan sub ≠ free →
  Subscription.period_end sub = None →
  canProcess chatId w = (Returned (paidDecision sub None), ask w).
Proof.
  intros Hup Hsub Hplan Hend. unfold canProcess.
  rewrite bind_run, (getOrCreateSubscription_read_answered _ _ _ Hup Hsub).
  rewrite bind_run, getDaysUntilExpiry_eqn, Hend.
  rewrite (decide_True (P := Subscription.plan sub ≠ free)) by done.
  rewrite bind_run, isSubscriptionExpired_eqn, Hend.
  rewrite bind_run, isInGracePeriod_eqn, Hend.
  destruct (decide (Subscription.plan sub = ultra)); unfold paidDecision; cbn zeta.
  - by rewrite decide_True.
  - rewrite (decide_False (P := Subscription.plan sub = free)) by done.
    rewrite (decide_False (P := Subscription.plan sub = ultra)) by done.
    by case_bool_decide.
Qed.

Lemma canProcess_running_eqn chatId sub periodEnd w :
  store_up (requests w) = true →
  subscriptions w !! chatId = Some sub →
  Subscription.plan sub ≠ free →
  Subscription.period_end sub = Some periodEnd →
  clock (S (ticks w)) ≤ addDays periodEnd 3 →
  canProcess chatId w =
    (Returned
       (let d := ceilDiv (periodEnd - clock (ticks w)) MS_PER_DAY in
        if bool_decide (periodEnd < clock (S (S (ticks w)))
                        ∧ clock (S (S (ticks w))) ≤ addDays periodEnd 3)
        then graceDecision sub d
        else paidDecision sub (Some d)),
     tick (tick (tick (ask w)))).
Proof.
  intros Hup Hsub Hplan Hend Hnot. cbn zeta. case_bool_decide as Hgrace.
  - unfold canProcess.
    rewrite bind_run, (getOrCreateSubscription_read_answered _ _ _ Hup Hsub).
    rewrite bind_run, getDaysUntilExpiry_eqn, Hend, decide_False by done.
    rewrite (decide_True (P := Subscription.plan sub ≠ free)) by done.
    rewrite bind_run, isSubscriptionExpired_eqn, Hend, decide_False by done.
    cbn [ticks tick ask]. rewrite bool_decide_eq_false_2 by lia.
    rewrite bind_run, isInGracePeriod_eqn, Hend, decide_False by done.
    cbn [ticks tick ask]. rewrite bool_decide_eq_true_2 by done.
    unfold graceDecision. cbn. by case_decide.
  - by apply canProcess_paid_eqn.
Qed.

(** X7. On the ultra plan, as long as the plan has not expired past its days
    of grace (or has no period end at all), [canProcess] allows whatever
    the usage counter holds, reports no limit, and changes no table. *)
Theorem canProcess_ultra_unlimited chatId sub w :
  store_up (requests w) = true →
  subscriptions w !! chatId = Some sub →
  Subscription.plan sub = ultra →
  (∀ periodEnd, Subscription.period_end sub = Some periodEnd →
                clock (S (ticks w)) ≤ addDays periodEnd 3) →
  ∃ r w',
    canProcess chatId w = (Returned r, w')
    ∧ CanProcessResult.allowed r = true
    ∧ CanProcessResult.limit r = None
    ∧ CanProcessResult.plan r = ultra
    ∧ CanProcessResult.used r = Subscription.transactions_used sub
    ∧ same_store w w'.
Proof.
  intros Hup Hsub Hultra Hrunning.
  assert (Subscription.plan sub ≠ free) as Hplan by (by rewrite Hultra).
  destruct (Subscription.period_end sub) as [periodEnd|] eqn:Hend.
  - rewrite (canProcess_running_eqn _ _ _ _ Hup Hsub Hplan Hend (Hrunning _ eq_refl)).
    eexists _, _. split; [reflexivity|]. cbn zeta.
    unfold graceDecision, paidDecision. cbn zeta.
    rewrite !(decide_True (P := Subscription.plan sub = ultra)) by done.
    by case_bool_decide.
  - rewrite (canProcess_paid_no_end_eqn _ _ _ Hup Hsub Hplan Hend).
    eexists _, _. split; [reflexivity|]. unfold paidDecision. cbn zeta.
    by rewrite decide_True.
Qed.

(** X8. On the basico and pro plans, while the period is running,
    [canProcess] allows exactly when the stored usage counter is below the
    monthly cap (1000, 3500), sets neither the expired nor the grace flag,
    carries a message exactly when it refuses, and changes no table. *)
Theorem canProcess_capped_running chatId sub periodEnd w :
  store_up (requests w) = true →
  subscriptions w !! chatId = Some sub →
  Subscription.plan sub = basico ∨ Subscription.plan sub = pro →
  Subscription.period_end sub = Some periodEnd →
  clock (S (ticks w)) ≤ addDays periodEnd 3 →
  clock (S (S (ticks w))) ≤ periodEnd →
  ∃ r w',
    canProcess chatId w = (Returned r, w')
    ∧ CanProcessResult.allowed r
      = bool_decide (Subscription.transactions_used sub
                     < if decide (Subscription.plan sub = basico) then 1000 else 3500)
    ∧ CanProcessResult.used r = Subscription.transactions_used sub
    ∧ CanProcessResult.expired r = None
    ∧ CanProcessResult.inGracePeriod r = None
    ∧ (CanProcessResult.message r = None ↔ CanProcessResult.allowed r = true)
    ∧ same_store w w'.
Proof.
  intros Hup Hsub Hcapped Hend Hnot Hrun.
  assert (Subscription.plan sub ≠ free) as Hplan by (by destruct Hcapped as [-> | ->]).
  rewrite (canProcess_paid_eqn _ _ _ _ Hup Hsub Hplan Hend Hnot) by lia.
  assert (Subscription.plan sub ≠ ultra) as Hcap by (by destruct Hcapped as [-> | ->]).
  eexists _, _. split; [reflexivity|]. unfold paidDecision. cbn zeta.
  rewrite (decide_False (P := Subscription.plan sub = ultra)) by done.
  destruct Hcapped as [Hp | Hp]; rewrite Hp.
  - rewrite decide_True by done. cbn.
    case_bool_decide; cbn; case_bool_decide; try lia; by repeat split.
  - rewrite decide_False by done. cbn.
    case_bool_decide; cbn; case_bool_decide; try lia; by repeat split.
Qed.

Lemma downgradeToFree_eqn chatId w :
  downgradeToFree chatId w =
    (Returned (),
     if store_up (requests w)
     then set_subscriptions (alter Subscription.downgrade chatId) (ask w)
     else ask w).
Proof.
  unfold downgradeToFree. rewrite bind_run, update_subscriptions_eq_chat_id_eqn.
  by destruct (store_up (requests w)).
Qed.

(** X9. [downgradeToFree] never looks at the outcome of its update: when the
    row of an expired paid chat is read but the update is not answered,
    [canProcess] still answers with plan free and [expired = true], while
    the stored row keeps its paid plan. *)
Theorem canProcess_expired_update_unanswered chatId sub periodEnd w :
  store_up (requests w) = true →
  store_up (S (requests w)) = false →
  subscriptions w !! chatId = Some sub →
  Subscription.plan sub ≠ free →
  Subscription.period_end sub = Some periodEnd →
  addDays periodEnd 3 < clock (S (ticks w)) →
  ∃ r w',
    canProcess chatId w = (Returned r, w')
    ∧ CanProcessResult.plan r = free
    ∧ CanProcessResult.expired r = Some true
    ∧ same_store w w'
    ∧ subscriptions w' !! chatId = Some sub.
Proof.
  intros Hup Hdown Hsub Hplan Hend Hlate. unfold canProcess.
  rewrite bind_run, (getOrCreateSubscription_read_answered _ _ _ Hup Hsub).
  rewrite bind_run, getDaysUntilExpiry_eqn, Hend, decide_False by done.
  rewrite (decide_True (P := Subscription.plan sub ≠ free)) by done.
  rewrite bind_run, isSubscriptionExpired_eqn, Hend, decide_False by done.
  cbn [ticks tick ask]. rewrite bool_decide_eq_true_2 by done.
  rewrite bind_run, downgradeToFree_eqn. cbn [requests tick ask]. rewrite Hdown.
  rewrite bind_run, getTodayTransactionCount_eqn.
  eexists _, _. split; [reflexivity|]. done.
Qed.

(** X10. [getSubscription] drops the error of its read, so that a read that
    is not answered looks like a chat without a row: for a chat that has a
    row, [canProcess] and [incrementUsage] then throw, the unique violation
    of the insert they try when that insert is answered, and change no
    table. *)
Theorem getOrCreateSubscription_read_unanswered chatId sub w :
  store_up (requests w) = false →
  subscriptions w !! chatId = Some sub →
  let e := if store_up (S (requests w)) then UniqueViolation else StoreUnavailable in
  getOrCreateSubscription chatId w = (Thrown e, ask (ask w))
  ∧ canProcess chatId w = (Thrown e, ask (ask w))
  ∧ incrementUsage chatId w = (Thrown e, ask (ask w)).
Proof.
  intros Hdown Hsub. cbn zeta.
  assert (getOrCreateSubscription chatId w
          = (Thrown (if store_up (S (requests w)) then UniqueViolation else StoreUnavailable),
             ask (ask w))) as Hget.
  { unfold getOrCreateSubscription.
    rewrite bind_run, getSubscription_eqn, Hdown, bind_run, insert_subscription_eqn.
    cbn [requests subscriptions ask]. rewrite Hsub.
    by destruct (store_up (S (requests w))). }
  split; [exact Hget|]. split.
  - unfold canProcess. by rewrite bind_run, Hget.
  - unfold incrementUsage. by rewrite bind_run, Hget.
Qed.

(** X11. [getOrCreateSubscription] creates on read: with a store that
    answers it returns the row of the chat, creating it free, unused and
    without period end when the chat has none, and touches no other row; a
    second call returns the same row and changes nothing. *)
Theorem getOrCreateSubscription_idempotent chatId w :
  (∀ n, store_up n = true) →
  ∃ row w' w'',
    getOrCreateSubscription chatId w = (Returned (Some row), w')
    ∧ subscriptions w' !! chatId = Some row
    ∧ (∀ c, c ≠ chatId → subscriptions w' !! c = subscriptions w !! c)
    ∧ (∀ s, subscriptions w !! chatId = Some s → row = s)
    ∧ (subscriptions w !! chatId = None →
         Subscription.plan row = free
         ∧ Subscription.transactions_used row = 0
         ∧ Subscription.period_end row = None)
    ∧ transactions w' = transactions w
    ∧ getOrCreateSubscription chatId w' = (Returned (Some row), w'')
    ∧ same_store w' w''.
Proof.
  intros Hanswers. destruct (subscriptions w !! chatId) as [s|] eqn:Hsub.
  - rewrite (getOrCreateSubscription_found Hanswers _ _ _ Hsub).
    eexists _, _, _. split; [reflexivity|]. split; [done|]. split; [done|].
    split; [by intros ? [= ->]|]. split; [done|]. split; [done|].
    rewrite (getOrCreateSubscription_found Hanswers _ s) by done. done.
  - rewrite (getOrCreateSubscription_created Hanswers _ _ Hsub). cbn zeta.
    eexists _, _, _. split; [reflexivity|]. cbn [subscriptions transactions].
    split; [by rewrite lookup_insert_eq|].
    split; [by intros c Hc; rewrite lookup_insert_ne|].
    split; [done|]. split; [done|]. split; [done|].
    erewrite (getOrCreateSubscription_found Hanswers); [done|].
    cbn. by rewrite lookup_insert_eq.
Qed.

Lemma incrementUsage_paid_run chatId sub w :
  (∀ n, store_up n = true) →
  subscriptions w !! chatId = Some sub →
  Subscription.plan sub ≠ free →
  incrementUsage chatId w =
    (Returned (),
     set_subscriptions
       (alter (Subscription.set_transactions_used (Subscription.transactions_used sub + 1))
              chatId)
       (ask (ask w))).
Proof.
  intros Hanswers Hsub Hplan. unfold incrementUsage.
  rewrite bind_run, (getOrCreateSubscription_found Hanswers _ _ _ Hsub).
  rewrite decide_True by done.
  by rewrite bind_run, update_subscriptions_eq_chat_id_eqn, Hanswers.
Qed.

Lemma incrementUsage_free_run chatId sub w :
  (∀ n, store_up n = true) →
  subscriptions w !! chatId = Some sub →
  Subscription.plan sub = free →
  incrementUsage chatId w = (Returned (), ask w).
Proof.
  intros Hanswers Hsub Hplan. unfold incrementUsage.
  rewrite bind_run, (getOrCreateSubscription_found Hanswers _ _ _ Hsub).
  by rewrite decide_False by (by intros ?).
Qed.

(** X12. With a store that answers, [n] calls of [incrementUsage] raise the
    usage counter of a paid row by [n] and change nothing else of it; they
    leave a free row, every other row and the ledger as they are. *)
Theorem incrementUsage_counts_calls chatId n sub w :
  (∀ k, store_up k = true) →
  subscriptions w !! chatId = Some sub →
  ∃ w',
    repeatM n (incrementUsage chatId) w = (Returned (), w')
    ∧ subscriptions w' !! chatId
      = Some (if decide (Subscription.plan sub = free) then sub
              else Subscription.mk (Subscription.id sub) (Subscription.plan sub)
                     (Subscription.transactions_used sub + Z.of_nat n)
                     (Subscription.period_start sub) (Subscription.period_end sub)
                     (Subscription.created_at sub))
    ∧ (∀ c, c ≠ chatId → subscriptions w' !! c = subscriptions w !! c)
    ∧ transactions w' = transactions w.
Proof.
  intros Hanswers. revert sub w. induction n as [|n IH]; intros sub w Hsub.
  - exists w. split; [done|]. split; [|done]. rewrite Hsub. f_equal.
    case_decide; [done|]. destruct sub. cbn. f_equal. lia.
  - cbn [repeatM]. rewrite bind_run.
    destruct (decide (Subscription.plan sub = free)) as [Hfree|Hpaid].
    + rewrite (incrementUsage_free_run _ _ _ Hanswers Hsub Hfree).
      destruct (IH sub (ask w) Hsub) as (w' & Hrun & Hrow & Hothers & Htx).
      exists w'. rewrite decide_True in Hrow by done. done.
    + rewrite (incrementUsage_paid_run _ _ _ Hanswers Hsub Hpaid).
      set (w1 := set_subscriptions _ _).
      assert (subscriptions w1 !! chatId
              = Some (Subscription.set_transactions_used
                        (Subscription.transactions_used sub + 1) sub)) as Hsub1.
      { unfold w1. cbn. by rewrite lookup_alter_eq, Hsub. }
      destruct (IH _ w1 Hsub1) as (w' & Hrun & Hrow & Hothers & Htx).
      exists w'. split; [done|]. split; [|split].
      * rewrite Hrow. cbn. rewrite decide_False by done. do 2 f_equal. lia.
      * intros c Hc. rewrite (Hothers c Hc). unfold w1. cbn.
        by rewrite lookup_alter_ne.
      * by rewrite Htx.
Qed.

(** X13. After [resetMonthlyUsage], with a store that answers, a chat on a
    paid plan whose period is still running is allowed by [canProcess], with
    [used = 0]. *)
Theorem resetMonthlyUsage_then_allowed chatId sub periodEnd w :
  (∀ n, store_up n = true) →
  subscriptions w !! chatId = Some sub →
  Subscription.plan sub ≠ free →
  Subscription.period_end sub = Some periodEnd →
  clock (S (S (ticks w))) ≤ addDays periodEnd 3 →
  clock (S (S (S (ticks w)))) ≤ periodEnd →
  ∃ n w1 r w2,
    resetMonthlyUsage w = (Returned n, w1)
    ∧ canProcess chatId w1 = (Returned r, w2)
    ∧ CanProcessResult.allowed r = true
    ∧ CanProcessResult.used r = 0
    ∧ CanProcessResult.plan r = Subscription.plan sub.
Proof.
  intros Hanswers Hsub Hplan Hend Hnot Hrun. unfold resetMonthlyUsage.
  rewrite bind_run, now_run, bind_run, (update_subscriptions_neq_plan_run Hanswers).
  cbn [error data answered]. set (w1 := set_subscriptions _ _).
  assert (subscriptions w1 !! chatId = Some (Subscription.reset (clock (ticks w)) sub))
    as Hsub1.
  { unfold w1. cbn. rewrite lookup_fmap, Hsub. cbn. by rewrite decide_True. }
  eexists _, w1, _, _. split; [reflexivity|].
  rewrite (canProcess_paid_eqn chatId _ periodEnd w1 (Hanswers _) Hsub1); try done.
  - split; [reflexivity|]. unfold paidDecision, limit_of. cbn zeta. cbn.
    destruct (Subscription.plan sub); try done; by case_decide.
  - unfold w1. cbn. lia.
Qed.

End MoreGate.

(** ** The extraction *)

(** X14. [extractPixData] never throws and leaves the world as it is. An
    amount it reports was parsed from the answer of a model, which is kept
    as the raw response, and for a PDF that model is Sonnet. For an image,
    an amount in Haiku's answer is the result; a failed call of Haiku ends
    as "API call failed", without the fallback to Sonnet. *)
Theorem extractPixData_returns `{Outside} base64Data mediaType w :
  ∃ r,
    extractPixData base64Data mediaType w = (Returned r, w)
    ∧ (∀ a, ExtractionResult.amount r = Some a →
         ∃ model text parsed,
           messages_create model mediaType base64Data = Some text
           ∧ JSON_parse text = Some parsed
           ∧ parsed_amount parsed = Some a
           ∧ ExtractionResult.rawResponse r = text
           ∧ (mediaType = application_pdf → model = SONNET_MODEL))
    ∧ (mediaType ≠ application_pdf →
       ∀ text parsed a,
         messages_create HAIKU_MODEL mediaType base64Data = Some text →
         JSON_parse text = Some parsed →
         parsed_amount parsed = Some a →
         ExtractionResult.amount r = Some a ∧ ExtractionResult.rawResponse r = text)
    ∧ (mediaType ≠ application_pdf →
       messages_create HAIKU_MODEL mediaType base64Data = None →
       ExtractionResult.amount r = None
       ∧ ExtractionResult.error r = Some "API call failed").
Proof.
  assert (∀ model,
    match messages_create model mediaType base64Data with
    | Some text =>
        ∀ a, ExtractionResult.amount (parseExtractionResponse text) = Some a →
             ∃ parsed, JSON_parse text = Some parsed ∧ parsed_amount parsed = Some a
                       ∧ ExtractionResult.rawResponse (parseExtractionResponse text) = text
    | None => True
    end) as Hparse.
  { intros model. destruct (messages_create model mediaType base64Data) as [text|]; [|done].
    intros a. unfold parseExtractionResponse.
    destruct (JSON_parse text) as [parsed|]; cbn; [|done]. intros Ha. by exists parsed. }
  unfold extractPixData, try_catch, extractWithModel.
  destruct (decide (mediaType = application_pdf)) as [Hpdf|Himg].
  - pose proof (Hparse SONNET_MODEL) as Hsonnet.
    destruct (messages_create SONNET_MODEL mediaType base64Data) as [text|] eqn:Hcall.
    + eexists. split; [reflexivity|]. split; [|done].
      intros a Ha. destruct (Hsonnet a Ha) as (parsed & Hjson & Hamount & Hraw).
      by exists SONNET_MODEL, text, parsed.
    + eexists. split; [reflexivity|]. done.
  - rewrite bind_run.
    pose proof (Hparse HAIKU_MODEL) as Hhaiku.
    destruct (messages_create HAIKU_MODEL mediaType base64Data) as [text|] eqn:Hcall.
    2:{ eexists. split; [reflexivity|]. done. }
    unfold mret at 1, M_ret at 1.
    destruct (ExtractionResult.amount (parseExtractionResponse text)) as [a|] eqn:Hamount.
    + eexists. split; [reflexivity|]. rewrite Hamount.
      destruct (Hhaiku a eq_refl) as (parsed & Hjson & Hparsed & Hraw).
      split; [|split; [|done]].
      * intros a' [= <-]. by exists HAIKU_MODEL, text, parsed.
      * intros _ text' parsed' a' [= <-] Hjson' Ha'.
        rewrite Hjson in Hjson'. injection Hjson' as <-.
        by rewrite <- Hparsed, Ha'.
    + pose proof (Hparse SONNET_MODEL) as Hsonnet.
      assert (∀ parsed a, JSON_parse text = Some parsed → parsed_amount parsed = Some a → False)
        as Hnone.
      { intros parsed a Hjson Ha. unfold parseExtractionResponse in Hamount.
        rewrite Hjson in Hamount. cbn in Hamount. congruence. }
      destruct (messages_create SONNET_MODEL mediaType base64Data) as [text2|] eqn:Hcall2.
      * eexists. split; [reflexivity|]. split; [|split; [|done]].
        -- intros a Ha. destruct (Hsonnet a Ha) as (parsed & Hjson & Hparsed & Hraw).
           by exists SONNET_MODEL, text2, parsed.
        -- intros _ text' parsed' a' [= <-] Hjson' Ha'. by destruct (Hnone _ _ Hjson' Ha').
      * eexists. split; [reflexivity|]. split; [done|]. split; [|done].
        intros _ text' parsed' a' [= <-] Hjson' Ha'. by destruct (Hnone _ _ Hjson' Ha').
Qed.

(** ** The retries *)

Lemma triangle_succ n : triangle (n + 1) = triangle n + (n + 1).
Proof.
  unfold triangle.
  replace ((n + 1) * (n + 1 + 1)) with (n * (n + 1) + (n + 1) * 2) by lia.
  by rewrite Z.div_add.
Qed.

Lemma attempts_first_return {A} (fn : nat → Exn + A) maxRetries delayMs rounds :
  ∀ c lastError s k a,
    (c ≤ k < c + rounds)%nat →
    Z.of_nat (c + rounds) = maxRetries →
    (∀ j, (c ≤ j < k)%nat → ∃ e, fn j = inl e) →
    fn k = inr a →
    Retry.attempts fn maxRetries delayMs rounds (Z.of_nat c + 1) lastError (Retry.mkLog c s)
    = (inr a,
       Retry.mkLog (S k) (s + delayMs * (triangle (Z.of_nat k) - triangle (Z.of_nat c)))).
Proof.
  induction rounds as [|rounds IH]; intros c lastError s k a Hk Hmax Hfail Hret; [lia|].
  cbn [Retry.attempts Retry.calls Retry.slept].
  destruct (decide (c = k)) as [->|Hne].
  - rewrite Hret. do 2 f_equal. lia.
  - destruct (Hfail c ltac:(lia)) as [e He]. rewrite He.
    rewrite bool_decide_eq_true_2 by lia.
    replace (Z.of_nat c + 1 + 1) with (Z.of_nat (S c) + 1) by lia.
    rewrite (IH (S c) _ _ k a); [|lia|lia|intros j Hj; apply Hfail; lia|done].
    do 2 f_equal. replace (Z.of_nat (S c)) with (Z.of_nat c + 1) by lia.
    rewrite triangle_succ. lia.
Qed.

Lemma attempts_all_throw {A} (fn : nat → Exn + A) maxRetries delayMs rounds :
  ∀ c lastError s e,
    Z.of_nat (c + S rounds) = maxRetries →
    (∀ j, (c ≤ j < c + S rounds)%nat → ∃ e', fn j = inl e') →
    fn (c + rounds)%nat = inl e →
    Retry.attempts fn maxRetries delayMs (S rounds) (Z.of_nat c + 1) lastError
                   (Retry.mkLog c s)
    = (inl (Some e),
       Retry.mkLog (c + S rounds)
         (s + delayMs * (triangle (Z.of_nat (c + rounds)) - triangle (Z.of_nat c)))).
Proof.
  induction rounds as [|rounds IH]; intros c lastError s e Hmax Hfail Hlast.
  - cbn [Retry.attempts Retry.calls Retry.slept].
    rewrite Nat.add_0_r in Hlast. rewrite Hlast.
    rewrite bool_decide_eq_false_2 by lia.
    rewrite Nat.add_0_r, Nat.add_1_r. do 2 f_equal. lia.
  - destruct (Hfail c ltac:(lia)) as [e0 He0].
    change (Retry.attempts fn maxRetries delayMs (S (S rounds)) (Z.of_nat c + 1) lastError
              (Retry.mkLog c s))
      with (match fn c with
            | inr a => (inr a, Retry.mkLog (S c) s)
            | inl error =>
                Retry.attempts fn maxRetries delayMs (S rounds) (Z.of_nat c + 1 + 1)
                  (Some error)
                  (Retry.mkLog (S c)
                     (if bool_decide (Z.of_nat c + 1 < maxRetries)
                      then s + delayMs * (Z.of_nat c + 1) else s))
            end).
    rewrite He0, bool_decide_eq_true_2 by lia.
    replace (Z.of_nat c + 1 + 1) with (Z.of_nat (S c) + 1) by lia.
    rewrite (IH (S c) _ _ e); [|lia|intros j Hj; apply Hfail; lia|].
    2:{ by replace (S c + rounds)%nat with (c + S rounds)%nat by lia. }
    replace (S c + S rounds)%nat with (c + S (S rounds))%nat by lia.
    replace (S c + rounds)%nat with (c + S rounds)%nat by lia.
    do 2 f_equal. replace (Z.of_nat (S c)) with (Z.of_nat c + 1) by lia.
    rewrite triangle_succ. lia.
Qed.

(** X15. [withRetry] with [n] attempts allowed returns the value of the first
    call of [fn] that returns, after as many calls and no more, having
    waited [delayMs * (1 + ... + k)] when [k] calls threw before it. When all
    [n] calls throw, it throws the error of the last one after exactly [n]
    calls and a wait of [delayMs * (1 + ... + (n - 1))]: there is no wait
    after the last attempt. With the defaults that is at most three calls
    and three seconds. *)
Theorem withRetry_outcome {A} (fn : nat → Exn + A) (n : nat) (delayMs : Z) :
  (∀ k a,
     (k < n)%nat → (∀ j, (j < k)%nat → ∃ e, fn j = inl e) → fn k = inr a →
     Retry.withRetry fn (Z.of_nat n) delayMs
     = (inr a, Retry.mkLog (S k) (delayMs * triangle (Z.of_nat k))))
  ∧ (∀ e,
       (0 < n)%nat → (∀ j, (j < n)%nat → ∃ e', fn j = inl e') → fn (n - 1)%nat = inl e →
       Retry.withRetry fn (Z.of_nat n) delayMs
       = (inl (Some e), Retry.mkLog n (delayMs * triangle (Z.of_nat n - 1))))
  ∧ (Retry.calls (Retry.withRetry_default fn).2 ≤ 3)%nat
  ∧ 0 ≤ Retry.slept (Retry.withRetry_default fn).2 ≤ 3000.
Proof.
  split; [|split].
  - intros k a Hk Hfail Hret. unfold Retry.withRetry. rewrite Nat2Z.id.
    pose proof (attempts_first_return fn (Z.of_nat n) delayMs n 0 None 0 k a) as Hrun.
    change (Z.of_nat 0 + 1) with 1 in Hrun.
    rewrite Hrun; [|lia|done|intros j Hj; apply Hfail; lia|done].
    do 2 f_equal. change (triangle (Z.of_nat 0)) with 0. lia.
  - intros e Hn Hfail Hlast. unfold Retry.withRetry. rewrite Nat2Z.id.
    destruct n as [|n]; [lia|].
    replace (S n - 1)%nat with n in Hlast by lia.
    pose proof (attempts_all_throw fn (Z.of_nat (S n)) delayMs n 0 None 0 e) as Hrun.
    change (Z.of_nat 0 + 1) with 1 in Hrun. cbn [Nat.add] in Hrun.
    rewrite Hrun; [|done|intros j Hj; apply Hfail; lia|done].
    do 2 f_equal. change (triangle (Z.of_nat 0)) with 0.
    replace (Z.of_nat (S n) - 1) with (Z.of_nat n) by lia. lia.
  - unfold Retry.withRetry_default, Retry.withRetry.
    change (Z.to_nat 3) with 3%nat. cbn.
    destruct (fn 0%nat); [|cbn; lia].
    destruct (fn 1%nat); [|cbn; case_bool_decide; lia].
    destruct (fn 2%nat); cbn; repeat case_bool_decide; lia.
Qed.

(** ** Splitting and joining *)

Lemma split_not_nil sep s : split sep s ≠ [].
Proof.
  destruct s as [|c rest]; cbn; [done|].
  destruct (Ascii.eqb c sep); [done|]. by destruct (split sep rest).
Qed.

Lemma join_split sep s : join sep (split sep s) = s.
Proof.
  induction s as [|c rest IH]; [done|]. cbn [split].
  destruct (Ascii.eqb c sep) eqn:Hc.
  - apply Ascii.eqb_eq in Hc as ->.
    pose proof (split_not_nil sep rest) as Hne.
    destruct (split sep rest) as [|piece pieces] eqn:Hrest; [done|].
    by rewrite <- IH.
  - destruct (split sep rest) as [|piece pieces] eqn:Hrest.
    + by destruct (split_not_nil sep rest).
    + cbn [join] in *. destruct pieces as [|piece' pieces]; by rewrite <- IH.
Qed.

Lemma split_without sep s : mentions sep s = false → split sep s = [s].
Proof.
  induction s as [|c rest IH]; [done|]. cbn [mentions split].
  intros [Hc Hrest]%orb_false_elim. by rewrite Hc, (IH Hrest).
Qed.

Lemma split_at_first sep a b :
  mentions sep a = false → split sep (a +:+ String sep b) = a :: split sep b.
Proof.
  induction a as [|c rest IH].
  - intros _. change (EmptyString +:+ String sep b) with (String sep b).
    cbn [split]. by rewrite Ascii.eqb_refl.
  - cbn [mentions]. intros [Hc Hrest]%orb_false_elim.
    change (String c rest +:+ String sep b) with (String c (rest +:+ String sep b)).
    cbn [split]. by rewrite Hc, (IH Hrest).
Qed.

(** X16. Splitting at a character and joining with it gives the text back;
    the pieces before a separator are split off one by one; and the
    argument of /editar, [text.split(" ").slice(1).join(" ")], is what
    follows the first space of the message. *)
Theorem split_join sep s :
  join sep (split sep s) = s
  ∧ afterFirstSpace s = join " "%char (tail (split " "%char s))
  ∧ (mentions sep s = false → split sep s = [s])
  ∧ (∀ a b, s = a +:+ String sep b → mentions sep a = false →
            split sep s = a :: split sep b).
Proof.
  split; [apply join_split|]. split; [|split].
  - induction s as [|c rest IH]; [done|]. cbn [afterFirstSpace split].
    destruct (Ascii.eqb c " "%char).
    + cbn [tail]. by rewrite join_split.
    + destruct (split " "%char rest) as [|piece pieces]; [done|]. exact IH.
  - apply split_without.
  - intros a b -> Ha. by apply split_at_first.
Qed.

Lemma mentions_app c a b : mentions c (a +:+ b) = mentions c a || mentions c b.
Proof.
  induction a as [|c' rest IH]; [done|].
  change (String c' rest +:+ b) with (String c' (rest +:+ b)).
  cbn [mentions]. by rewrite IH, orb_assoc.
Qed.

(** ** Signed notifications *)

Section Signed.
Context (hmacSha256Hex : string → string → string).

Lemma parseSignature_ts_v1 ts v1 :
  ts ≠ EmptyString → v1 ≠ EmptyString →
  mentions ","%char ts = false → mentions "="%char ts = false →
  mentions ","%char v1 = false → mentions "="%char v1 = false →
  parseSignature ("ts=" +:+ ts +:+ ",v1=" +:+ v1) !! "ts" = Some ts
  ∧ parseSignature ("ts=" +:+ ts +:+ ",v1=" +:+ v1) !! "v1" = Some v1.
Proof.
  intros Hts Hv1 Hts1 Hts2 Hv11 Hv12. unfold parseSignature.
  replace ("ts=" +:+ ts +:+ ",v1=" +:+ v1)
    with (("ts=" +:+ ts) +:+ String ","%char ("v1=" +:+ v1)).
  2:{ reflexivity. }
  rewrite split_at_first by (cbn; exact Hts1).
  rewrite split_without by (cbn; exact Hv11).
  cbn [foldl].
  replace (split "="%char ("ts=" +:+ ts)) with ["ts"; ts].
  2:{ symmetry. change ("ts=" +:+ ts) with ("ts" +:+ String "="%char ts).
      rewrite split_at_first by done. by rewrite split_without. }
  replace (split "="%char ("v1=" +:+ v1)) with ["v1"; v1].
  2:{ symmetry. change ("v1=" +:+ v1) with ("v1" +:+ String "="%char v1).
      rewrite split_at_first by done. by rewrite split_without. }
  destruct ts as [|t0 ts']; [done|]. destruct v1 as [|v0 v1']; [done|].
  split.
  - rewrite lookup_insert_ne by done. by rewrite lookup_insert_eq.
  - by rewrite lookup_insert_eq.
Qed.

(** X17. With a secret configured and the header [ts=<ts>,v1=<v1>], a [v1]
    as long as the digest is accepted exactly when it is the HMAC-SHA256,
    under the secret, of [id:<dataId>;request-id:<xRequestId>;ts:<ts>;]. *)
Theorem validateWebhookSignature_signed c secret xRequestId dataId ts v1 :
  let digest := hmacSha256Hex (String c secret)
                  ("id:" +:+ dataId +:+ ";request-id:" +:+ xRequestId +:+ ";ts:" +:+ ts +:+ ";") in
  xRequestId ≠ EmptyString →
  ts ≠ EmptyString → v1 ≠ EmptyString →
  mentions ","%char ts = false → mentions "="%char ts = false →
  mentions ","%char v1 = false → mentions "="%char v1 = false →
  String.length v1 = String.length digest →
  validateWebhookSignature (Some (String c secret)) hmacSha256Hex
    (Some ("ts=" +:+ ts +:+ ",v1=" +:+ v1)) (Some xRequestId) dataId
  = Returned (bool_decide (v1 = digest)).
Proof.
  intros digest Hreq Hts Hv1 Hts1 Hts2 Hv11 Hv12 Hlen.
  destruct (parseSignature_ts_v1 ts v1 Hts Hv1 Hts1 Hts2 Hv11 Hv12) as [Hlts Hlv1].
  unfold validateWebhookSignature.
  destruct xRequestId as [|r0 r]; [done|].
  change ("ts=" +:+ ts +:+ ",v1=" +:+ v1)
    with (String "t" (String "s" (String "=" (ts +:+ ",v1=" +:+ v1)))) in *.
  cbn zeta. rewrite Hlts, Hlv1.
  by apply timingSafeEqual_same_length.
Qed.

End Signed.

(** ** The running total *)

(** X18. When the store answers, [saveTransaction] appends one row with the
    next id of the sequence, the chat, the amount and the file id given and
    the time of the store, and returns it. [getTodayStats], called next on
    the same day, reports the total of the day before the save plus the
    amount, and one row more. *)
Theorem saveTransaction_then_getTodayStats `{Runtime} chatId amount bank client fileId raw w :
  let today := startOfDay (clock (S (ticks w))) in
  store_up (requests w) = true →
  store_up (S (requests w)) = true →
  today ≤ clock (ticks w) →
  ∃ row w1 w2,
    saveTransaction chatId amount bank client fileId raw w = (Returned (Some row), w1)
    ∧ transactions w1 = transactions w ++ [row]
    ∧ row = Transaction.mk (transactions_id_seq w) chatId amount bank client fileId raw
                           (clock (ticks w))
    ∧ getTodayStats chatId w1
      = (Returned (totalAmount (filter (ofToday chatId today) (transactions w)) + amount,
                   Z.of_nat (length (filter (ofToday chatId today) (transactions w))) + 1),
         w2)
    ∧ same_store w1 w2.
Proof.
  intros today Hup1 Hup2 Hday.
  unfold saveTransaction. rewrite bind_run, insert_transaction_eqn, Hup1. cbn zeta.
  cbn [single data error answered length mret M_ret].
  eexists _, _, _. split; [reflexivity|]. split; [reflexivity|]. split; [reflexivity|].
  unfold getTodayStats.
  rewrite bind_run, getStartOfTodayISO_run, bind_run, select_transactions_eqn.
  cbn [requests ticks transactions tick ask]. rewrite Hup2.
  cbn [error data answered]. fold today.
  rewrite filter_app.
  rewrite (filter_cons_True (ofToday chatId today)) by done.
  rewrite filter_nil, foldl_app, length_app. cbn [foldl length].
  unfold mret, M_ret, totalAmount. split.
  - apply (f_equal2 pair); [|reflexivity]. do 2 f_equal. lia.
  - done.
Qed.

(** ** What every step keeps *)

Create HintDb steadies.

Global Hint Extern 1 (Steady _) => solve [apply _] : steadies.
Global Hint Extern 1 (Orderly _) => solve [apply _] : steadies.

Section Steadies.
Context `{Runtime} `{Outside}.
Context (R : World → World → Prop) `{!Steady R}.

Lemma steady_ret {A} (a : A) w : lands R (mret a) w.
Proof. unfold lands. reflexivity. Qed.

Lemma steady_throw {A} e w : lands R (throw (A := A) e) w.
Proof. unfold lands. reflexivity. Qed.

Lemma steady_get_world w : lands R get_world w.
Proof. unfold lands. reflexivity. Qed.

Lemma steady_now w : lands R now w.
Proof. apply steady_tick. Qed.

Lemma steady_request w : lands R request w.
Proof. apply steady_ask. Qed.

Lemma steady_bind {A B} (m : M A) (f : A → M B) w :
  lands R m w →
  (∀ a w', m w = (Returned a, w') → lands R (f a) w') →
  lands R (m ≫= f) w.
Proof.
  unfold lands. rewrite bind_run. intros Hm Hf.
  destruct (m w) as [[a|e] w'] eqn:Hrun; [|done].
  etrans; [exact Hm|]. by apply Hf.
Qed.

Lemma steady_try_catch {A} (body : M A) handler w :
  lands R body w →
  (∀ e w', body w = (Thrown e, w') → lands R (handler e) w') →
  lands R (try_catch body handler) w.
Proof.
  unfold lands, try_catch. intros Hm Hh.
  destruct (body w) as [[a|e] w'] eqn:Hrun; [done|].
  etrans; [exact Hm|]. by apply Hh.
Qed.

Lemma steady_set_subscriptions f w : lands R (modify_world (set_subscriptions f)) w.
Proof. apply steady_subscriptions. Qed.

Lemma steady_new_subscription chatId row w :
  lands R (modify_world (λ w, mkWorld (transactions w) (<[chatId := row]> (subscriptions w))
                                      (transactions_id_seq w) (subscriptions_id_seq w + 1)
                                      (ticks w) (requests w) (outbox w))) w.
Proof. apply steady_subscriptions. Qed.

End Steadies.

Global Hint Resolve steady_ret steady_throw steady_get_world steady_now steady_request
  steady_set_subscriptions steady_new_subscription : steadies.

Ltac steady_step :=
  match goal with
  | |- lands _ (_ ≫= _) _ => apply steady_bind; [apply _| |intros ? ? _]
  | |- lands _ (try_catch _ _) _ => apply steady_try_catch; [apply _| |intros ? ? _]
  | |- lands _ (match ?x with _ => _ end) _ => destruct x
  | |- lands _ (let _ := _ in _) _ => cbn zeta
  | |- lands _ _ _ => solve [eauto with steadies]
  end.

Ltac steady := repeat steady_step.

Section SteadyProgram.
Context `{Runtime} `{Outside}.
Context (R : World → World → Prop) `{!Steady R}.

Lemma steady_select_transactions (P : Transaction.t → Prop) `{∀ r, Decision (P r)} asc w :
  lands R (select_transactions P asc) w.
Proof. unfold select_transactions. steady. Qed.

Lemma steady_count_transactions (P : Transaction.t → Prop) `{∀ r, Decision (P r)} w :
  lands R (count_transactions P) w.
Proof. unfold count_transactions. steady. Qed.

Lemma steady_select_subscriptions_eq_chat_id chatId w :
  lands R (select_subscriptions_eq_chat_id chatId) w.
Proof. unfold select_subscriptions_eq_chat_id. steady. Qed.

Lemma steady_insert_subscription chatId plan w :
  lands R (insert_subscription chatId plan) w.
Proof. unfold insert_subscription. steady. Qed.

Lemma steady_update_subscriptions_eq_chat_id chatId f w :
  lands R (update_subscriptions_eq_chat_id chatId f) w.
Proof. unfold update_subscriptions_eq_chat_id. steady. Qed.

Lemma steady_update_subscriptions_neq_plan plan f w :
  lands R (update_subscriptions_neq_plan plan f) w.
Proof. unfold update_subscriptions_neq_plan. steady. Qed.

Lemma steady_getStartOfTodayISO w : lands R getStartOfTodayISO w.
Proof. unfold getStartOfTodayISO. steady. Qed.

#[local] Hint Resolve steady_select_transactions steady_count_transactions
  steady_select_subscriptions_eq_chat_id steady_insert_subscription
  steady_update_subscriptions_eq_chat_id steady_update_subscriptions_neq_plan
  steady_getStartOfTodayISO : steadies.

Lemma steady_isDuplicate chatId fileId w : lands R (isDuplicate chatId fileId) w.
Proof. unfold isDuplicate. steady. Qed.

Lemma steady_getTodayStats chatId w : lands R (getTodayStats chatId) w.
Proof. unfold getTodayStats. steady. Qed.

Lemma steady_getTodayTransactions chatId w : lands R (getTodayTransactions chatId) w.
Proof. unfold getTodayTransactions. steady. Qed.

Lemma steady_getTodayTransactionCount chatId w :
  lands R (getTodayTransactionCount chatId) w.
Proof. unfold getTodayTransactionCount. steady. Qed.

Lemma steady_getSubscription chatId w : lands R (getSubscription chatId) w.
Proof. unfold getSubscription. steady. Qed.

#[local] Hint Resolve steady_getSubscription : steadies.

Lemma steady_getOrCreateSubscription chatId w :
  lands R (getOrCreateSubscription chatId) w.
Proof. unfold getOrCreateSubscription. steady. Qed.

Lemma steady_getDaysUntilExpiry sub w : lands R (getDaysUntilExpiry sub) w.
Proof. unfold getDaysUntilExpiry. steady. Qed.

Lemma steady_isSubscriptionExpired sub w : lands R (isSubscriptionExpired sub) w.
Proof. unfold isSubscriptionExpired. steady. Qed.

Lemma steady_isInGracePeriod sub w : lands R (isInGracePeriod sub) w.
Proof. unfold isInGracePeriod. steady. Qed.

Lemma steady_downgradeToFree chatId w : lands R (downgradeToFree chatId) w.
Proof. unfold downgradeToFree. steady. Qed.

#[local] Hint Resolve steady_isDuplicate steady_getTodayStats steady_getTodayTransactions
  steady_getTodayTransactionCount steady_getOrCreateSubscription steady_getDaysUntilExpiry
  steady_isSubscriptionExpired steady_isInGracePeriod steady_downgradeToFree : steadies.

Lemma steady_canProcess chatId w : lands R (canProcess chatId) w.
Proof. unfold canProcess. steady. Qed.

Lemma steady_incrementUsage chatId w : lands R (incrementUsage chatId) w.
Proof. unfold incrementUsage. steady. Qed.

Lemma steady_resetMonthlyUsage w : lands R resetMonthlyUsage w.
Proof. unfold resetMonthlyUsage. steady. Qed.

Lemma steady_extractPixData base64 mediaType w :
  lands R (extractPixData base64 mediaType) w.
Proof. unfold extractPixData, extractWithModel. steady. Qed.

Lemma steady_getRunningTotalMessage chatId amount bank client w :
  lands R (getRunningTotalMessage chatId amount bank client) w.
Proof. unfold getRunningTotalMessage. steady. Qed.

End SteadyProgram.

Global Hint Resolve steady_select_transactions steady_count_transactions
  steady_select_subscriptions_eq_chat_id steady_insert_subscription
  steady_update_subscriptions_eq_chat_id steady_update_subscriptions_neq_plan
  steady_getStartOfTodayISO steady_isDuplicate steady_getTodayStats
  steady_getTodayTransactions steady_getTodayTransactionCount steady_getSubscription
  steady_getOrCreateSubscription steady_getDaysUntilExpiry steady_isSubscriptionExpired
  steady_isInGracePeriod steady_downgradeToFree steady_canProcess steady_incrementUsage
  steady_resetMonthlyUsage steady_extractPixData steady_getRunningTotalMessage : steadies.

Section OrderlyProgram.
Context `{Runtime} `{Outside}.
Context (R : World → World → Prop) `{!Orderly R}.

Lemma orderly_reply r w : lands R (reply r) w.
Proof. apply orderly_sent. Qed.

Lemma orderly_insert_transaction chatId amount bank client fileId raw w :
  lands R (insert_transaction chatId amount bank client fileId raw) w.
Proof.
  unfold lands. rewrite insert_transaction_eqn.
  destruct (store_up (requests w)); cbn [snd]; [|apply steady_ask].
  etrans; [apply steady_ask|]. etrans; [apply steady_tick|].
  by apply (orderly_append (tick (ask w))).
Qed.

Lemma orderly_delete_transactions (P : Transaction.t → Prop) `{∀ r, Decision (P r)} w :
  lands R (delete_transactions P) w.
Proof.
  unfold delete_transactions. steady.
  apply (orderly_delete _ (λ r, ¬ P r)).
Qed.

Lemma orderly_update_amount (P : Transaction.t → Prop) `{∀ r, Decision (P r)} newAmount w :
  lands R (update_transactions P (Transaction.set_amount newAmount)) w.
Proof.
  unfold update_transactions. steady.
  apply (orderly_rewrite _ (λ r, if decide (P r) then Transaction.set_amount newAmount r else r)).
  intros r. by case_decide.
Qed.

#[local] Hint Resolve orderly_reply orderly_insert_transaction orderly_delete_transactions
  orderly_update_amount : steadies.

Lemma orderly_saveTransaction chatId amount bank client fileId raw w :
  lands R (saveTransaction chatId amount bank client fileId raw) w.
Proof. unfold saveTransaction. steady. Qed.

Lemma orderly_clearTodayTransactions chatId w : lands R (clearTodayTransactions chatId) w.
Proof. unfold clearTodayTransactions. steady. Qed.

Lemma orderly_deleteTransactionByIndex chatId index w :
  lands R (deleteTransactionByIndex chatId index) w.
Proof. unfold deleteTransactionByIndex. steady. Qed.

Lemma orderly_updateLastTransactionAmount chatId newAmount w :
  lands R (updateLastTransactionAmount chatId newAmount) w.
Proof. unfold updateLastTransactionAmount. steady. Qed.

#[local] Hint Resolve orderly_saveTransaction orderly_clearTodayTransactions
  orderly_deleteTransactionByIndex orderly_updateLastTransactionAmount : steadies.

Lemma orderly_processImage chatId photos w : lands R (processImage chatId photos) w.
Proof. unfold processImage, extractPixAmount. steady. Qed.

Lemma orderly_processDocument chatId fileId mimeType w :
  lands R (processDocument chatId fileId mimeType) w.
Proof. unfold processDocument, extractPixAmount, extractFromPdf. steady. Qed.

Lemma orderly_editar chatId text w : lands R (editar chatId text) w.
Proof. unfold editar. steady. Qed.

End OrderlyProgram.

Global Instance silent_steady : Steady silent.
Proof.
  split; [split|..]; try done.
  intros w1 w2 w3 H12 H23. unfold silent in *. congruence.
Qed.

Global Instance same_ledger_steady : Steady same_ledger.
Proof.
  split; [split|..]; try done.
  intros w1 w2 w3 [H1 H2] [H3 H4]. split; congruence.
Qed.

Global Instance replies_kept_orderly : Orderly replies_kept.
Proof.
  split; [split; [split|..]|..]; unfold replies_kept.
  - by intros w.
  - intros w1 w2 w3 H12 H23. by etrans.
  - by intros w.
  - by intros w.
  - by intros w subs seq.
  - by intros w row _.
  - by intros w P HP.
  - by intros w g _.
  - intros w r. cbn. by apply prefix_app_r.
Qed.

(** ** Every submission is answered *)

Lemma isDuplicate_returns `{Runtime} chatId fileId w :
  ∃ dup, isDuplicate chatId fileId w = (Returned dup, ask w).
Proof.
  unfold isDuplicate. rewrite bind_run, select_transactions_eqn.
  destruct (store_up (requests w)); eexists; reflexivity.
Qed.

Section Answers.
Context `{Runtime} `{Outside}.

Lemma answered_after_gate chatId fileId check (body : M unit) w0 w1 :
  outbox w1 = outbox w0 →
  (∀ w, lands replies_kept body w) →
  ∃ w' replies,
    (if negb (CanProcessResult.allowed check) then reply (refused check)
     else
       match CanProcessResult.inGracePeriod check, CanProcessResult.message check with
       | Some true, Some (String _ _ as message) =>
           reply (GraceWarning message (CanProcessResult.plan check))
       | _, _ => mret ()
       end;;
       dup ← isDuplicate chatId fileId;
       if dup : bool then reply AlreadyRegistered
       else
         reply Processing;;
         try_catch body (λ _, reply ProcessingFailed)) w1
    = (Returned (), w')
    ∧ replies ≠ []
    ∧ outbox w' = outbox w0 ++ replies.
Proof.
  intros Hsilent Hbody.
  destruct (negb (CanProcessResult.allowed check)).
  { eexists _, [_]. split; [reflexivity|]. split; [done|]. cbn. by rewrite Hsilent. }
  rewrite bind_run.
  assert (∃ w2 sent2,
            match CanProcessResult.inGracePeriod check, CanProcessResult.message check with
            | Some true, Some (String _ _ as message) =>
                reply (GraceWarning message (CanProcessResult.plan check))
            | _, _ => mret ()
            end w1 = (Returned (), w2)
            ∧ outbox w2 = outbox w0 ++ sent2) as (w2 & sent2 & -> & Hout2).
  { destruct (CanProcessResult.inGracePeriod check) as [[]|];
      destruct (CanProcessResult.message check) as [[]|];
      try (exists w1, []; split; [reflexivity|]; by rewrite app_nil_r).
    eexists _, [_]. split; [reflexivity|]. cbn. by rewrite Hsilent. }
  rewrite bind_run. destruct (isDuplicate_returns chatId fileId w2) as [dup ->].
  destruct dup.
  { exists (sent AlreadyRegistered (ask w2)), (sent2 ++ [AlreadyRegistered]).
    split; [reflexivity|]. split; [by destruct sent2|].
    cbn. by rewrite Hout2, app_assoc. }
  rewrite bind_run. unfold reply at 1. unfold try_catch.
  specialize (Hbody (sent Processing (ask w2))). unfold lands, replies_kept in Hbody.
  destruct (body (sent Processing (ask w2))) as [[[]|e] w4]; cbn [snd] in Hbody;
    destruct Hbody as [sent4 Hout4]; cbn [outbox sent ask] in Hout4.
  - exists w4, (sent2 ++ [Processing] ++ sent4). split; [reflexivity|].
    split; [by destruct sent2|]. rewrite Hout4, Hout2. by rewrite <- !app_assoc.
  - exists (sent ProcessingFailed w4), (sent2 ++ [Processing] ++ sent4 ++ [ProcessingFailed]).
    split; [reflexivity|]. split; [by destruct sent2|].
    cbn. rewrite Hout4, Hout2. by rewrite <- !app_assoc.
Qed.

(** X20. A submission is answered unless the gate throws. When [canProcess]
    throws, [processImage] and [processDocument] throw the same error and
    send nothing (nothing in them catches it). When it returns, they return
    and have sent at least one reply, after those sent before. *)
Theorem pipeline_answers chatId w :
  (∀ photos fileId,
     last photos = Some fileId →
     match canProcess chatId w with
     | (Thrown e, w1) =>
         processImage chatId photos w = (Thrown e, w1) ∧ outbox w1 = outbox w
     | (Returned _, _) =>
         ∃ w' replies,
           processImage chatId photos w = (Returned (), w')
           ∧ replies ≠ []
           ∧ outbox w' = outbox w ++ replies
     end)
  ∧ (∀ fileId mimeType,
       match canProcess chatId w with
       | (Thrown e, w1) =>
           processDocument chatId fileId mimeType w = (Thrown e, w1) ∧ outbox w1 = outbox w
       | (Returned _, _) =>
           ∃ w' replies,
             processDocument chatId fileId mimeType w = (Returned (), w')
             ∧ replies ≠ []
             ∧ outbox w' = outbox w ++ replies
       end).
Proof.
  pose proof (steady_canProcess silent chatId w) as Hsilent. unfold lands in Hsilent.
  split.
  - intros photos fileId Hlast. unfold processImage. rewrite Hlast, bind_run.
    destruct (canProcess chatId w) as [[check|e] w1]; [|done].
    apply answered_after_gate; [exact Hsilent|].
    intros w2. unfold extractPixAmount. steady; apply orderly_reply || idtac.
    all: eauto using orderly_saveTransaction, orderly_reply with steadies.
  - intros fileId mimeType. unfold processDocument. rewrite bind_run.
    destruct (canProcess chatId w) as [[check|e] w1]; [|done].
    apply answered_after_gate; [exact Hsilent|].
    intros w2. unfold extractPixAmount, extractFromPdf. steady; apply orderly_reply || idtac.
    all: eauto using orderly_saveTransaction, orderly_reply with steadies.
Qed.

End Answers.

(** ** A file is stored once *)

(** X21. When the store answers, a file whose id is already in the ledger
    for the chat is not stored again: [processImage] and [processDocument]
    append no row and count no usage, whatever the download and the vision
    API would give. *)
Theorem duplicate_not_stored `{Runtime} `{Outside} chatId fileId w :
  (∀ n, store_up n = true) →
  Exists (λ r, Transaction.chat_id r = chatId ∧ Transaction.telegram_file_id r = fileId)
         (transactions w) →
  (∀ photos, last photos = Some fileId → quiet w (processImage chatId photos w).2)
  ∧ (∀ mimeType, quiet w (processDocument chatId fileId mimeType w).2).
Proof.
  intros Hanswers Hdup.
  assert (∀ w2 dup w3,
            transactions w2 = transactions w →
            isDuplicate chatId fileId w2 = (Returned dup, w3) → dup = true) as Htrue.
  { intros w2 dup w3 Ht. rewrite isDuplicate_eqn, Hanswers, Ht.
    rewrite bool_decide_eq_true_2 by done. by intros [= <- _]. }
  split.
  - intros photos Hlast. unfold processImage. rewrite Hlast.
    apply lands_bind; [apply _|apply lands_canProcess|]. intros check w1 Hgate.
    pose proof (lands_canProcess chatId w) as [Ht _]. unfold lands in Ht.
    rewrite Hgate in Ht. cbn [snd] in Ht.
    destruct (negb (CanProcessResult.allowed check)); [frame|].
    apply lands_bind; [apply _|frame|]. intros u w2 Hwarn.
    assert (same_store w1 w2) as [Ht2 _].
    { eapply same_store_run; [|exact Hwarn]. frame. }
    apply lands_bind; [apply _|frame|]. intros dup w3 Hrun.
    rewrite (Htrue w2 dup w3) by (done || congruence). frame.
  - intros mimeType. unfold processDocument.
    apply lands_bind; [apply _|apply lands_canProcess|]. intros check w1 Hgate.
    pose proof (lands_canProcess chatId w) as [Ht _]. unfold lands in Ht.
    rewrite Hgate in Ht. cbn [snd] in Ht.
    destruct (negb (CanProcessResult.allowed check)); [frame|].
    apply lands_bind; [apply _|frame|]. intros u w2 Hwarn.
    assert (same_store w1 w2) as [Ht2 _].
    { eapply same_store_run; [|exact Hwarn]. frame. }
    apply lands_bind; [apply _|frame|]. intros dup w3 Hrun.
    rewrite (Htrue w2 dup w3) by (done || congruence). frame.
Qed.

(** ** The edit command *)

Lemma silent_update_transactions `{Runtime} (P : Transaction.t → Prop)
    `{∀ r, Decision (P r)} f w :
  lands silent (update_transactions P f) w.
Proof.
  unfold lands. rewrite update_transactions_eqn. by destruct (store_up (requests w)).
Qed.

Lemma silent_updateLastTransactionAmount `{Runtime} chatId newAmount w :
  lands silent (updateLastTransactionAmount chatId newAmount) w.
Proof.
  pose proof (@silent_update_transactions _) as Hupdate.
  unfold updateLastTransactionAmount. steady.
Qed.

(** X22. /editar answers once. Without an argument, or with an argument
    that does not parse to a number, it sends its one reply and does
    nothing else: no request, no reading of the clock. Every run that
    returns has sent exactly one reply, and a run that throws (the update or
    the query of the summary failed) has sent none. *)
Theorem editar_answers_once `{Runtime} `{Outside} chatId text w :
  let args := afterFirstSpace text in
  let cleanAmount := keepDigitsAndDots (replaceFirst ","%char "."%char args) in
  (args = EmptyString → editar chatId text w = (Returned (), sent EditUsage w))
  ∧ (args ≠ EmptyString → parseFloat cleanAmount = None →
     editar chatId text w = (Returned (), sent InvalidValue w))
  ∧ match editar chatId text w with
    | (Returned _, w') => ∃ r, outbox w' = outbox w ++ [r]
    | (Thrown _, w') => outbox w' = outbox w
    end.
Proof.
  cbn zeta. split_and!.
  - intros Hargs. unfold editar. cbn zeta. by rewrite decide_True.
  - intros Hargs Hparse. unfold editar. cbn zeta. by rewrite decide_False, Hparse.
  - unfold editar. cbn zeta.
    destruct (decide (afterFirstSpace text = EmptyString)); [by eexists|].
    destruct (parseFloat _) as [newAmount|]; [|by eexists].
    case_bool_decide; [by eexists|].
    rewrite bind_run.
    pose proof (silent_updateLastTransactionAmount chatId newAmount w) as Hupdate.
    unfold lands, silent in Hupdate.
    destruct (updateLastTransactionAmount chatId newAmount w) as [[updated|e] w1];
      cbn [snd] in Hupdate; [|done].
    destruct updated as [row|]; [|eexists; cbn; by rewrite Hupdate].
    rewrite bind_run.
    pose proof (steady_getTodayStats silent chatId w1) as Hstats.
    unfold lands, silent in Hstats.
    destruct (getTodayStats chatId w1) as [[[total count]|e] w2]; cbn [snd] in Hstats;
      [|congruence].
    eexists. cbn. by rewrite Hstats, Hupdate.
Qed.

(** ** A request that is not answered *)

(** X23. What each query does when its request to the store is not
    answered. [saveTransaction], [getTodayStats], [getTodayTransactions],
    [clearTodayTransactions] and [resetMonthlyUsage] throw the error of the
    store. [isDuplicate] answers false, [deleteTransactionByIndex] and
    [updateLastTransactionAmount] answer null as if the chat had no row of
    today, and [getSubscription] answers null as if the chat had no
    subscription. None of them changes a table. *)
Theorem request_unanswered `{Runtime} chatId w :
  store_up (requests w) = false →
  (∀ amount bank client fileId raw,
     saveTransaction chatId amount bank client fileId raw w = (Thrown StoreUnavailable, ask w))
  ∧ getTodayStats chatId w = (Thrown StoreUnavailable, ask (tick w))
  ∧ getTodayTransactions chatId w = (Thrown StoreUnavailable, ask (tick w))
  ∧ clearTodayTransactions chatId w = (Thrown StoreUnavailable, ask (tick w))
  ∧ resetMonthlyUsage w = (Thrown StoreUnavailable, ask (tick w))
  ∧ (∀ fileId, isDuplicate chatId fileId w = (Returned false, ask w))
  ∧ (∀ index, deleteTransactionByIndex chatId index w = (Returned None, ask (tick w)))
  ∧ (∀ newAmount,
       updateLastTransactionAmount chatId newAmount w = (Returned None, ask (tick w)))
  ∧ getSubscription chatId w = (Returned None, ask w).
Proof.
  intros Hdown. split_and!.
  - intros amount bank client fileId raw. unfold saveTransaction.
    by rewrite bind_run, insert_transaction_eqn, Hdown.
  - unfold getTodayStats.
    rewrite bind_run, getStartOfTodayISO_run, bind_run, select_transactions_eqn.
    cbn [requests tick]. by rewrite Hdown.
  - unfold getTodayTransactions.
    rewrite bind_run, getStartOfTodayISO_run, bind_run, select_transactions_eqn.
    cbn [requests tick]. by rewrite Hdown.
  - unfold clearTodayTransactions.
    rewrite bind_run, getStartOfTodayISO_run, bind_run, delete_transactions_eqn.
    cbn [requests tick]. by rewrite Hdown.
  - unfold resetMonthlyUsage, update_subscriptions_neq_plan, request, now.
    rewrite !bind_run. cbn [requests tick]. by rewrite Hdown.
  - intros fileId. by rewrite isDuplicate_eqn, Hdown.
  - intros index. unfold deleteTransactionByIndex.
    rewrite bind_run, getStartOfTodayISO_run, bind_run, select_transactions_eqn.
    cbn [requests tick]. by rewrite Hdown.
  - intros newAmount. unfold updateLastTransactionAmount.
    rewrite bind_run, getStartOfTodayISO_run, bind_run, select_transactions_eqn.
    cbn [requests tick]. by rewrite Hdown.
  - by rewrite getSubscription_eqn, Hdown.
Qed.

(** ** A receipt that is stored *)

Section Stored.
Context `{Runtime} `{Outside}.
Hypothesis store_answers : ∀ n, store_up n = true.

Lemma commit_run chatId amount bank client fileId raw sub w :
  subscriptions w !! chatId = Some sub →
  let row := Transaction.mk (transactions_id_seq w) chatId amount bank client fileId raw
                            (clock (ticks w)) in
  let today := startOfDay (clock (S (ticks w))) in
  ∃ w',
    (saveTransaction chatId amount bank client fileId raw;;
     incrementUsage chatId;;
     message ← getRunningTotalMessage chatId amount bank client;
     reply message) w = (Returned (), w')
    ∧ transactions w' = transactions w ++ [row]
    ∧ subscriptions w'
      = (if decide (Subscription.plan sub ≠ free)
         then alter (Subscription.set_transactions_used
                       (Subscription.transactions_used sub + 1)) chatId (subscriptions w)
         else subscriptions w)
    ∧ outbox w'
      = outbox w ++ [RunningTotal amount bank client
                       (totalAmount (filter (ofToday chatId today) (transactions w ++ [row])))
                       (Z.of_nat (length (filter (ofToday chatId today)
                                                 (transactions w ++ [row]))))].
Proof.
  intros Hsub row today.
  rewrite bind_run. unfold saveTransaction.
  rewrite bind_run, insert_transaction_eqn, store_answers. cbn zeta.
  cbn [single data error answered length mret M_ret]. fold row.
  set (w1 := mkWorld _ _ _ _ _ _ _).
  assert (subscriptions w1 !! chatId = Some sub) as Hsub1 by done.
  rewrite bind_run.
  assert (∃ w2, incrementUsage chatId w1 = (Returned (), w2)
                ∧ transactions w2 = transactions w1
                ∧ ticks w2 = ticks w1
                ∧ outbox w2 = outbox w1
                ∧ subscriptions w2
                  = (if decide (Subscription.plan sub ≠ free)
                     then alter (Subscription.set_transactions_used
                                   (Subscription.transactions_used sub + 1)) chatId
                                (subscriptions w)
                     else subscriptions w)) as (w2 & -> & Ht2 & Hk2 & Ho2 & Hs2).
  { destruct (decide (Subscription.plan sub ≠ free)) as [Hpaid|Hfree].
    - rewrite (incrementUsage_paid_run _ _ _ store_answers Hsub1 Hpaid).
      eexists. split; [reflexivity|]. done.
    - rewrite (incrementUsage_free_run _ _ _ store_answers Hsub1) by (by apply dec_stable).
      eexists. split; [reflexivity|]. done. }
  rewrite bind_run. unfold getRunningTotalMessage. rewrite bind_run. unfold getTodayStats.
  rewrite bind_run, getStartOfTodayISO_run, bind_run, select_transactions_eqn, store_answers.
  cbn [error data answered ticks transactions tick ask].
  rewrite Hk2, Ht2. cbn [ticks transactions w1]. fold today.
  unfold mret, M_ret, reply. eexists. split; [reflexivity|].
  cbn [transactions subscriptions outbox sent tick ask]. rewrite Ht2, Hs2, Ho2. done.
Qed.

(** X24. The way of a receipt into the ledger. When the store answers, the
    gate allows, the file is new for the chat, it downloads and the answer
    of Haiku parses to an object whose amount is a number, [processImage]
    appends one row with the next id, the chat, that amount, the bank, the
    payer and the raw answer of the extraction, and the file id; it counts
    one use on the row of the chat unless the plan is free; and its last
    reply is the running total, which is the sum and the number of the rows
    of the day with the new row. *)
Theorem processImage_stores chatId photos fileId filePath base64 text parsed amount check sub
    w w1 :
  let mediaType := if endsWith filePath ".png" then image_png else image_jpeg in
  let result := parseExtractionResponse text in
  let row := Transaction.mk (transactions_id_seq w) chatId amount
               (ExtractionResult.bank result) (ExtractionResult.clientName result)
               fileId text (clock (ticks w1)) in
  let today := startOfDay (clock (S (ticks w1))) in
  last photos = Some fileId →
  canProcess chatId w = (Returned check, w1) →
  CanProcessResult.allowed check = true →
  subscriptions w1 !! chatId = Some sub →
  ¬ Exists (λ r, Transaction.chat_id r = chatId ∧ Transaction.telegram_file_id r = fileId)
           (transactions w) →
  download fileId = Some (filePath, base64) →
  messages_create HAIKU_MODEL mediaType base64 = Some text →
  JSON_parse text = Some parsed →
  parsed_amount parsed = Some amount →
  ∃ w',
    processImage chatId photos w = (Returned (), w')
    ∧ transactions w' = transactions w ++ [row]
    ∧ subscriptions w'
      = (if decide (Subscription.plan sub ≠ free)
         then alter (Subscription.set_transactions_used
                       (Subscription.transactions_used sub + 1)) chatId (subscriptions w1)
         else subscriptions w1)
    ∧ last (outbox w')
      = Some (RunningTotal amount (ExtractionResult.bank result)
                (ExtractionResult.clientName result)
                (totalAmount (filter (ofToday chatId today) (transactions w ++ [row])))
                (Z.of_nat (length (filter (ofToday chatId today)
                                          (transactions w ++ [row]))))).
Proof.
  intros mediaType result row today Hlast Hgate Hallowed Hsub Hnew Hdl Hcall Hjson Hparsed.
  assert (ExtractionResult.amount result = Some amount
          ∧ ExtractionResult.rawResponse result = text) as [Hamount Hraw].
  { unfold result, parseExtractionResponse. by rewrite Hjson. }
  assert (∀ w0, extractPixAmount base64 mediaType w0 = (Returned result, w0)) as Hextract.
  { intros w0. unfold extractPixAmount, extractPixData, try_catch, extractWithModel.
    rewrite decide_False by (unfold mediaType; by destruct (endsWith filePath ".png")).
    rewrite bind_run, Hcall. unfold mret at 1, M_ret at 1. fold result.
    by rewrite Hamount. }
  pose proof (steady_canProcess same_ledger chatId w) as Hledger.
  unfold lands in Hledger. rewrite Hgate in Hledger. destruct Hledger as [Ht1 Hseq1].
  cbn [snd] in Ht1, Hseq1.
  unfold processImage. rewrite Hlast, bind_run, Hgate, Hallowed. cbn [negb].
  rewrite bind_run.
  assert (∃ w2,
            match CanProcessResult.inGracePeriod check, CanProcessResult.message check with
            | Some true, Some (String _ _ as message) =>
                reply (GraceWarning message (CanProcessResult.plan check))
            | _, _ => mret ()
            end w1 = (Returned (), w2)
            ∧ transactions w2 = transactions w1
            ∧ transactions_id_seq w2 = transactions_id_seq w1
            ∧ subscriptions w2 = subscriptions w1
            ∧ ticks w2 = ticks w1) as (w2 & -> & Ht2 & Hseq2 & Hs2 & Hk2).
  { destruct (CanProcessResult.inGracePeriod check) as [[]|];
      destruct (CanProcessResult.message check) as [[]|];
      eexists; (split; [reflexivity|done]). }
  rewrite bind_run, isDuplicate_eqn, store_answers.
  rewrite bool_decide_eq_false_2 by (by rewrite Ht2, Ht1).
  rewrite bind_run. unfold reply at 1. unfold try_catch. rewrite Hdl. cbn zeta.
  fold mediaType. rewrite bind_run, Hextract, Hamount.
  destruct (commit_run chatId amount (ExtractionResult.bank result)
              (ExtractionResult.clientName result) fileId
              (ExtractionResult.rawResponse result) sub (sent Processing (ask w2)))
    as (w' & Hrun & Ht & Hs & Ho).
  { cbn. by rewrite Hs2. }
  rewrite Hrun. exists w'. split; [done|].
  cbn [transactions transactions_id_seq subscriptions ticks outbox sent ask] in Ht, Hs, Ho.
  rewrite Hk2, Hseq2, Hseq1, Ht2, Ht1, Hraw in Ht.
  rewrite Hk2, Hseq2, Hseq1, Ht2, Ht1, Hraw in Ho.
  rewrite Hs2 in Hs. split; [exact Ht|]. split; [exact Hs|].
  rewrite Ho. by rewrite last_snoc.
Qed.

End Stored.

(** ** Granting access *)

Section Grants.
Context `{Runtime}.
Context (parseInt : string → option Z).

Lemma upsert_subscription_on_chat_id_eqn chatId plan used periodStart periodEnd w :
  store_up (requests w) = true →
  ∃ row w',
    upsert_subscription_on_chat_id chatId plan used periodStart periodEnd w
    = (Returned (mkResponse None None None), w')
    ∧ subscriptions w' = <[chatId := row]> (subscriptions w)
    ∧ Subscription.plan row = plan
    ∧ Subscription.transactions_used row = used
    ∧ Subscription.period_start row = periodStart
    ∧ Subscription.period_end row = periodEnd
    ∧ transactions w' = transactions w
    ∧ requests w' = S (requests w)
    ∧ (ticks w ≤ ticks w')%nat
    ∧ (∀ s, subscriptions w !! chatId = Some s → ticks w' = ticks w).
Proof.
  intros Hup. unfold upsert_subscription_on_chat_id, request.
  rewrite !bind_run, Hup. unfold get_world. cbn [subscriptions ask].
  destruct (subscriptions w !! chatId) as [s|] eqn:Hrow.
  - eexists _, _. split; [reflexivity|]. cbn. by repeat split.
  - eexists _, _. split; [reflexivity|]. cbn. repeat split; try done. lia.
Qed.

(** X25. /grant is refused without a word to a chat that is not the admin,
    but only when an admin is configured: with [ADMIN_CHAT_ID] unset (or 0)
    the command is open to every chat. When it goes through and the store
    answers, the target chat is on ultra with usage 0 until the end of
    2099, the other rows and the ledger are as they were, and the gate
    allows the target without a limit. *)
Theorem grant_access ADMIN_CHAT_ID chatId text w :
  (∀ admin, ADMIN_CHAT_ID = Some admin → admin ≠ 0 → chatId ≠ admin →
            grant ADMIN_CHAT_ID parseInt chatId text w = (Returned None, w))
  ∧ (∀ arg rest targetChatId,
       ADMIN_CHAT_ID = None ∨ ADMIN_CHAT_ID = Some 0 ∨ ADMIN_CHAT_ID = Some chatId →
       tail (split " "%char text) = arg :: rest →
       parseInt arg = Some targetChatId →
       store_up (requests w) = true →
       ∃ row w',
         grant ADMIN_CHAT_ID parseInt chatId text w
         = (Returned (Some (GrantDone targetChatId)), w')
         ∧ subscriptions w' = <[targetChatId := row]> (subscriptions w)
         ∧ Subscription.plan row = ultra
         ∧ Subscription.transactions_used row = 0
         ∧ Subscription.period_start row = clock (ticks w)
         ∧ Subscription.period_end row = Some LIFETIME_END
         ∧ transactions w' = transactions w
         ∧ (store_up (requests w') = true →
            clock (S (ticks w')) ≤ addDays LIFETIME_END 3 →
            ∃ r w'',
              canProcess targetChatId w' = (Returned r, w'')
              ∧ CanProcessResult.allowed r = true
              ∧ CanProcessResult.limit r = None)).
Proof.
  split.
  - intros admin -> Hadmin Hother. unfold grant.
    by rewrite !bool_decide_eq_true_2.
  - intros arg rest targetChatId Hopen Hargs Hparse Hup. unfold grant.
    replace (match ADMIN_CHAT_ID with
             | Some admin => bool_decide (admin ≠ 0) && bool_decide (chatId ≠ admin)
             | None => false
             end) with false.
    2:{ destruct Hopen as [->|[->| ->]]; [done|done|].
        rewrite (bool_decide_eq_false_2 (chatId ≠ chatId)) by (by intros ?).
        by rewrite andb_false_r. }
    rewrite Hargs, Hparse, bind_run. unfold now at 1. rewrite bind_run.
    destruct (upsert_subscription_on_chat_id_eqn targetChatId ultra 0 (clock (ticks w))
                (Some LIFETIME_END) (tick w) Hup)
      as (row & w' & -> & Hsubs & Hplan & Hused & Hstart & Hend & Htx & Hreq & _).
    cbn [error]. exists row, w'. split; [reflexivity|].
    split; [done|]. split; [done|]. split; [done|]. split; [done|]. split; [done|].
    split; [done|]. intros Hup' Hrunning.
    assert (subscriptions w' !! targetChatId = Some row) as Hrow
      by (by rewrite Hsubs, lookup_insert_eq).
    assert (Subscription.plan row ≠ free) as Hpaid by (by rewrite Hplan).
    rewrite (canProcess_running_eqn _ _ _ _ Hup' Hrow Hpaid Hend Hrunning).
    eexists _, _. split; [reflexivity|]. cbn zeta.
    unfold graceDecision, paidDecision. cbn zeta.
    rewrite !(decide_True (P := Subscription.plan row = ultra)) by done.
    by case_bool_decide.
Qed.

End Grants.

(** ** The further properties at work *)

Lemma isDuplicate_exists_witness :
  ∃ dup, @isDuplicate Demo.runtime 7 "AgAD-2" Demo.mixed = (Returned dup, ask Demo.mixed)
         ∧ dup = true.
Proof.
  destruct (@isDuplicate_exists Demo.runtime 7 "AgAD-2" Demo.mixed) as (dup & Hrun & Hup & _).
  exists dup. split; [exact Hrun|]. apply Hup; [reflexivity|].
  exists (Demo.receipt 2 7 2590 "AgAD-2" (Demo.t0 - 2 * Demo.hour)).
  split; [|done]. apply (list_elem_of_lookup_2 _ 1%nat). reflexivity.
Defined.

Lemma getTodayTransactions_ordered_witness :
  ∃ rows w',
    @getTodayTransactions Demo.runtime 7 Demo.mixed = (Returned rows, w')
    ∧ StronglySorted (λ x y, Transaction.created_at x ≤ Transaction.created_at y) rows.
Proof.
  destruct (@getTodayTransactions_ordered Demo.runtime demo_store_answers 7 Demo.mixed)
    as (rows & w' & Hrun & _ & Hsorted & _).
  by exists rows, w'.
Defined.

Lemma getTodayStats_agrees_witness :
  ∃ rows w1 w2,
    @getTodayTransactions Demo.runtime 7 Demo.mixed = (Returned rows, w1)
    ∧ @getTodayStats Demo.runtime 7 Demo.mixed
      = (Returned (totalAmount rows, Z.of_nat (length rows)), w2).
Proof.
  destruct (@getTodayStats_agrees Demo.runtime demo_store_answers 7 Demo.mixed)
    as (rows & w1 & w2 & w3 & Hlist & Hstats & _).
  by exists rows, w1, w2.
Defined.

Lemma clearTodayTransactions_twice_witness :
  ∃ n w' w'',
    @clearTodayTransactions Demo.runtime 7 Demo.mixed = (Returned n, w')
    ∧ @clearTodayTransactions Demo.runtime 7 w' = (Returned 0, w'').
Proof.
  destruct (@clearTodayTransactions_twice Demo.runtime demo_store_answers 7 Demo.mixed)
    as (w' & w'' & Hrun & _ & _ & Hagain).
  destruct Hagain as [Hrun2 _]; [vm_compute; discriminate|].
  by eexists _, w', w''.
Defined.

Lemma deleteTransactionByIndex_unanswered_delete_witness :
  ∃ w',
    @deleteTransactionByIndex (Faulty.runtime 1) 7 (Some 2) Demo.mixed
    = (Returned (Some (Demo.receipt 4 7 120000 "AgAD-4" (Demo.t0 - 1 * Demo.hour))), w')
    ∧ transactions w' = transactions Demo.mixed.
Proof.
  apply (@deleteTransactionByIndex_unanswered_delete (Faulty.runtime 1)).
  - reflexivity.
  - reflexivity.
  - lia.
  - vm_compute. reflexivity.
Defined.

Lemma canProcess_free_count_unanswered_witness :
  ∃ r w',
    @canProcess (Faulty.runtime 1) 7 Demo.full = (Returned r, w')
    ∧ CanProcessResult.allowed r = true
    ∧ CanProcessResult.used r = 0
    ∧ same_store Demo.full w'.
Proof.
  apply (@canProcess_free_count_unanswered (Faulty.runtime 1) 7
           (Subscription.mk 1 free 0 (Demo.t0 - 70 * 24 * Demo.hour) None
                            (Demo.t0 - 70 * 24 * Demo.hour))).
  - reflexivity.
  - reflexivity.
  - vm_compute. reflexivity.
  - reflexivity.
Defined.

Lemma canProcess_ultra_unlimited_witness :
  ∃ r w',
    @canProcess Demo.runtime 8 Demo.mixed = (Returned r, w')
    ∧ CanProcessResult.allowed r = true
    ∧ CanProcessResult.limit r = None.
Proof.
  destruct (@canProcess_ultra_unlimited Demo.runtime 8
              (Subscription.mk 2 ultra 9000 (Demo.t0 - 5 * 24 * Demo.hour)
                 (Some (Demo.t0 + 25 * 24 * Demo.hour)) (Demo.t0 - 90 * 24 * Demo.hour))
              Demo.mixed)
    as (r & w' & Hrun & Hallowed & Hlimit & _).
  - reflexivity.
  - vm_compute. reflexivity.
  - reflexivity.
  - intros periodEnd [= <-]. vm_compute. discriminate.
  - by exists r, w'.
Defined.

Lemma canProcess_capped_running_witness :
  ∃ r w',
    @canProcess Demo.runtime 7 Cases.running = (Returned r, w')
    ∧ CanProcessResult.allowed r = true
    ∧ CanProcessResult.used r = 12.
Proof.
  destruct (@canProcess_capped_running Demo.runtime 7
              (Subscription.mk 1 basico 12 (Demo.t0 - 5 * 24 * Demo.hour)
                 (Some (Demo.t0 + 25 * 24 * Demo.hour)) (Demo.t0 - 90 * 24 * Demo.hour))
              (Demo.t0 + 25 * 24 * Demo.hour) Cases.running)
    as (r & w' & Hrun & Hallowed & Hused & _).
  - reflexivity.
  - vm_compute. reflexivity.
  - by left.
  - reflexivity.
  - vm_compute. discriminate.
  - vm_compute. discriminate.
  - exists r, w'. split; [exact Hrun|]. split; [|exact Hused].
    rewrite Hallowed. reflexivity.
Defined.

Lemma canProcess_expired_update_unanswered_witness :
  ∃ r w',
    @canProcess (Faulty.runtime 1) 7 Demo.expired = (Returned r, w')
    ∧ CanProcessResult.plan r = free
    ∧ Subscription.plan <$> subscriptions w' !! 7 = Some basico.
Proof.
  destruct (@canProcess_expired_update_unanswered (Faulty.runtime 1) 7
              (Subscription.mk 1 basico 12 (Demo.t0 - 70 * 24 * Demo.hour)
                 (Some (Demo.t0 - 40 * 24 * Demo.hour)) (Demo.t0 - 400 * 24 * Demo.hour))
              (Demo.t0 - 40 * 24 * Demo.hour) Demo.expired)
    as (r & w' & Hrun & Hplan & _ & _ & Hrow).
  - reflexivity.
  - reflexivity.
  - vm_compute. reflexivity.
  - done.
  - reflexivity.
  - vm_compute. reflexivity.
  - exists r, w'. split; [exact Hrun|]. split; [exact Hplan|]. by rewrite Hrow.
Defined.

Lemma getOrCreateSubscription_read_unanswered_witness :
  (@canProcess (Faulty.runtime 0) 7 Demo.mixed).1 = Thrown UniqueViolation.
Proof.
  destruct (@getOrCreateSubscription_read_unanswered (Faulty.runtime 0) 7
              (Subscription.mk 1 free 40 (Demo.t0 - 70 * 24 * Demo.hour) None
                               (Demo.t0 - 400 * 24 * Demo.hour))
              Demo.mixed)
    as (_ & Hgate & _).
  - reflexivity.
  - vm_compute. reflexivity.
  - rewrite Hgate. reflexivity.
Defined.

Lemma getOrCreateSubscription_idempotent_witness :
  ∃ row w',
    @getOrCreateSubscription Demo.runtime 9 Demo.mixed = (Returned (Some row), w')
    ∧ Subscription.plan row = free.
Proof.
  destruct (@getOrCreateSubscription_idempotent Demo.runtime 9 Demo.mixed demo_store_answers)
    as (row & w' & w'' & Hrun & _ & _ & _ & Hnew & _).
  exists row, w'. split; [exact Hrun|]. apply Hnew. vm_compute. reflexivity.
Defined.

Lemma incrementUsage_counts_calls_witness :
  ∃ w',
    repeatM 3 (@incrementUsage Demo.runtime 8) Demo.mixed = (Returned (), w')
    ∧ Subscription.transactions_used <$> subscriptions w' !! 8 = Some 9003.
Proof.
  destruct (@incrementUsage_counts_calls Demo.runtime 8 3
              (Subscription.mk 2 ultra 9000 (Demo.t0 - 5 * 24 * Demo.hour)
                 (Some (Demo.t0 + 25 * 24 * Demo.hour)) (Demo.t0 - 90 * 24 * Demo.hour))
              Demo.mixed demo_store_answers)
    as (w' & Hrun & Hrow & _).
  - vm_compute. reflexivity.
  - exists w'. split; [exact Hrun|]. rewrite Hrow. reflexivity.
Defined.

Lemma resetMonthlyUsage_then_allowed_witness :
  ∃ n w1 r w2,
    @resetMonthlyUsage Demo.runtime Demo.mixed = (Returned n, w1)
    ∧ @canProcess Demo.runtime 8 w1 = (Returned r, w2)
    ∧ CanProcessResult.allowed r = true
    ∧ CanProcessResult.used r = 0.
Proof.
  destruct (@resetMonthlyUsage_then_allowed Demo.runtime 8
              (Subscription.mk 2 ultra 9000 (Demo.t0 - 5 * 24 * Demo.hour)
                 (Some (Demo.t0 + 25 * 24 * Demo.hour)) (Demo.t0 - 90 * 24 * Demo.hour))
              (Demo.t0 + 25 * 24 * Demo.hour) Demo.mixed demo_store_answers)
    as (n & w1 & r & w2 & Hreset & Hgate & Hallowed & Hused & _).
  - vm_compute. reflexivity.
  - done.
  - reflexivity.
  - vm_compute. discriminate.
  - vm_compute. discriminate.
  - by exists n, w1, r, w2.
Defined.

Lemma extractPixData_returns_witness :
  ∃ r,
    @extractPixData (Demo.outside (Some 100)) "/9j/4AAQSkZJRg==" image_jpeg Demo.mixed
    = (Returned r, Demo.mixed)
    ∧ ExtractionResult.amount r = Some 100.
Proof.
  destruct (@extractPixData_returns (Demo.outside (Some 100)) "/9j/4AAQSkZJRg==" image_jpeg
              Demo.mixed)
    as (r & Hrun & _ & Hhaiku & _).
  exists r. split; [exact Hrun|].
  by apply (Hhaiku ltac:(done) "answer" (mkParsed (Some 100) (Some "Nubank") None None) 100).
Defined.

Lemma withRetry_outcome_witness :
  Retry.withRetry Cases.flaky 3 1000 = (inr 42, Retry.mkLog 3 3000).
Proof.
  destruct (withRetry_outcome Cases.flaky 3 1000) as (Hfirst & _).
  apply (Hfirst 2%nat 42).
  - lia.
  - intros [|[|j]] Hj; [by exists ApiError|by exists ApiError|lia].
  - reflexivity.
Defined.

Lemma split_join_witness :
  split ","%char "ts=1,v1=ab" = ["ts=1"; "v1=ab"].
Proof.
  destruct (split_join ","%char "ts=1,v1=ab") as (_ & _ & _ & Hfirst).
  rewrite (Hfirst "ts=1" "v1=ab"); reflexivity.
Defined.

Lemma validateWebhookSignature_signed_witness :
  validateWebhookSignature (Some "s3cr3t") Demo.digest
    (Some "ts=1700000000,v1=0000000000000000000000000000000000000000000000000000000000000000")
    (Some "req-1") "123"
  = Returned true.
Proof.
  etrans.
  - apply (validateWebhookSignature_signed Demo.digest "s" "3cr3t" "req-1" "123" "1700000000"
             "0000000000000000000000000000000000000000000000000000000000000000");
      done || reflexivity.
  - reflexivity.
Defined.

Lemma saveTransaction_then_getTodayStats_witness :
  ∃ row w1 w2,
    @saveTransaction Demo.runtime 7 100 None None "AgAD-9" "answer" Demo.mixed
    = (Returned (Some row), w1)
    ∧ @getTodayStats Demo.runtime 7 w1 = (Returned (2590 + 120000 + 100, 3), w2).
Proof.
  destruct (@saveTransaction_then_getTodayStats Demo.runtime 7 100 None None "AgAD-9" "answer"
              Demo.mixed)
    as (row & w1 & w2 & Hsave & _ & _ & Hstats & _).
  - reflexivity.
  - reflexivity.
  - vm_compute. discriminate.
  - exists row, w1, w2. split; [exact Hsave|]. rewrite Hstats. reflexivity.
Defined.

Lemma pipeline_answers_witness :
  ∃ w' replies,
    @processImage Demo.runtime (Demo.outside (Some 100)) 7 ["AgAD-9"] Demo.mixed
    = (Returned (), w')
    ∧ replies ≠ []
    ∧ outbox w' = outbox Demo.mixed ++ replies.
Proof.
  pose proof (proj1 (@pipeline_answers Demo.runtime (Demo.outside (Some 100)) 7 Demo.mixed)
                ["AgAD-9"] "AgAD-9" eq_refl) as Hrun.
  destruct (@canProcess Demo.runtime 7 Demo.mixed) as [[check|e] w1] eqn:Hgate;
    [exact Hrun|].
  vm_compute in Hgate. discriminate.
Defined.

Lemma duplicate_not_stored_witness :
  quiet Demo.mixed
        (@processImage Demo.runtime (Demo.outside (Some 100)) 7 ["AgAD-2"] Demo.mixed).2.
Proof.
  destruct (@duplicate_not_stored Demo.runtime (Demo.outside (Some 100)) 7 "AgAD-2" Demo.mixed
              demo_store_answers)
    as (Himage & _).
  - apply Exists_exists.
    exists (Demo.receipt 2 7 2590 "AgAD-2" (Demo.t0 - 2 * Demo.hour)).
    split; [|done]. apply (list_elem_of_lookup_2 _ 1%nat). reflexivity.
  - by apply Himage.
Defined.

Lemma editar_answers_once_witness :
  @editar Demo.runtime Cases.outside 7 "/editar abc" Demo.mixed
  = (Returned (), sent InvalidValue Demo.mixed).
Proof.
  destruct (@editar_answers_once Demo.runtime Cases.outside 7 "/editar abc" Demo.mixed)
    as (_ & Hparse & _).
  apply Hparse; [done|reflexivity].
Defined.

Lemma request_unanswered_witness :
  @isDuplicate Faulty.down 7 "AgAD-2" Demo.mixed = (Returned false, ask Demo.mixed)
  ∧ @getTodayStats Faulty.down 7 Demo.mixed = (Thrown StoreUnavailable, ask (tick Demo.mixed)).
Proof.
  destruct (@request_unanswered Faulty.down 7 Demo.mixed eq_refl)
    as (_ & Hstats & _ & _ & _ & Hdup & _).
  split; [apply Hdup|exact Hstats].
Defined.

Lemma processImage_stores_witness :
  ∃ w' row,
    @processImage Demo.runtime (Demo.outside (Some 100)) 7 ["AgAD-9"] Demo.mixed
    = (Returned (), w')
    ∧ transactions w' = transactions Demo.mixed ++ [row]
    ∧ Transaction.amount row = 100
    ∧ Transaction.id row = 5.
Proof.
  destruct (@canProcess Demo.runtime 7 Demo.mixed) as [[check|e] w1] eqn:Hgate;
    [|vm_compute in Hgate; discriminate].
  destruct (@processImage_stores Demo.runtime (Demo.outside (Some 100)) demo_store_answers
              7 ["AgAD-9"] "AgAD-9" "photos/file_1.jpg" "/9j/4AAQSkZJRg==" "answer"
              (mkParsed (Some 100) (Some "Nubank") None None) 100
              check (Subscription.mk 1 free 40 (Demo.t0 - 70 * 24 * Demo.hour) None
                                     (Demo.t0 - 400 * 24 * Demo.hour))
              Demo.mixed w1)
    as (w' & Hrun & Ht & _).
  - reflexivity.
  - exact Hgate.
  - vm_compute in Hgate. by injection Hgate as <- _.
  - vm_compute in Hgate. injection Hgate as _ <-. vm_compute. reflexivity.
  - apply (bool_decide_eq_false_1 _). vm_compute. reflexivity.
  - reflexivity.
  - reflexivity.
  - reflexivity.
  - reflexivity.
  - eexists w', _. split; [exact Hrun|]. split; [exact Ht|]. done.
Defined.

Lemma grant_access_witness :
  ∃ row w',
    @grant Demo.runtime None (λ _, Some 9) 7 "/grant 9" Demo.mixed
    = (Returned (Some (GrantDone 9)), w')
    ∧ subscriptions w' !! 9 = Some row
    ∧ Subscription.plan row = ultra.
Proof.
  destruct (@grant_access Demo.runtime (λ _, Some 9) None 7 "/grant 9" Demo.mixed)
    as (_ & Hgrant).
  destruct (Hgrant "9" [] 9) as (row & w' & Hrun & Hsubs & Hplan & _).
  - by left.
  - reflexivity.
  - reflexivity.
  - reflexivity.
  - exists row, w'. split; [exact Hrun|]. split; [|exact Hplan].
    rewrite Hsubs. apply lookup_insert_eq.
Defined.
